(** * A shallow embedding of the job-portal backend (backend/server.py)

    The file follows the source top to bottom: the two serialisation
    helpers, the pydantic models, the document store the handlers talk to,
    the twelve request handlers, and then the properties of the handlers.

    Conventions of the embedding.
    - A Python [dict] with string keys is a [gmap string value]; the values
      are the kinds of value the handlers read and write: [None], [str],
      [List[str]] and [datetime].
    - Python [str] is a [string] of bytes; case folding is the ASCII one.
    - [uuid.uuid4()] and [datetime.now(timezone.utc)] are read from an
      environment that is an input of every request.
    - A handler is a function from the environment and the store to an
      outcome and a store.  An [HTTPException] and an exception nobody
      catches (answered with status 500) are outcomes; writes made before
      the exception stay in the store, as there is no transaction. *)

From stdpp Require Import base option strings gmap list.
From Stdlib Require Import ZArith Ascii String Lia.

Open Scope string_scope.

(** ** Strings *)

Module Str.

(** [c in s] for a one-character [c]. *)
Fixpoint contains_char (c : ascii) (s : string) : bool :=
  match s with
  | EmptyString => false
  | String c' s' => if Ascii.eqb c c' then true else contains_char c s'
  end.

(** [s.replace(c, by)] for a one-character [c]. *)
Fixpoint replace_char (c : ascii) (by_ : string) (s : string) : string :=
  match s with
  | EmptyString => EmptyString
  | String c' s' =>
      if Ascii.eqb c c' then by_ +:+ replace_char c by_ s'
      else String c' (replace_char c by_ s')
  end.

Definition lower_char (c : ascii) : ascii :=
  let n := nat_of_ascii c in
  if (65 <=? n)%nat && (n <=? 90)%nat then ascii_of_nat (n + 32) else c.

Fixpoint lower (s : string) : string :=
  match s with
  | EmptyString => EmptyString
  | String c s' => String (lower_char c) (lower s')
  end.

Fixpoint starts_with (p s : string) : bool :=
  match p, s with
  | EmptyString, _ => true
  | String a p', String b s' => if Ascii.eqb a b then starts_with p' s' else false
  | String _ _, EmptyString => false
  end.

(** [p in s]: [p] occurs in [s] as a contiguous block. *)
Fixpoint is_substring (p s : string) : bool :=
  starts_with p s ||
  match s with
  | EmptyString => false
  | String _ s' => is_substring p s'
  end.

(** Case-insensitive occurrence. *)
Definition is_substring_ci (p s : string) : bool :=
  is_substring (lower p) (lower s).

(** Python truthiness of a [str]. *)
Definition truthy (s : string) : bool :=
  match s with EmptyString => false | String _ _ => true end.

End Str.

(** ** datetime *)

(** An aware or naive [datetime]; [utcoffset] is in microseconds. *)
Record datetime := mk_datetime {
  year : Z; month : Z; day : Z;
  hour : Z; minute : Z; second : Z; microsecond : Z;
  utcoffset : option Z
}.

#[global] Instance datetime_eq_dec : EqDecision datetime.
Proof. solve_decision. Defined.

Module Iso.
Local Open Scope Z_scope.

Definition is_leap (y : Z) : bool :=
  (y mod 4 =? 0) && negb (y mod 100 =? 0) || (y mod 400 =? 0).

Definition days_in_month (y m : Z) : Z :=
  match m with
  | 1 | 3 | 5 | 7 | 8 | 10 | 12 => 31
  | 4 | 6 | 9 | 11 => 30
  | 2 => if is_leap y then 29 else 28
  | _ => 0
  end.

Definition day_us : Z := 86400000000.

(** The checks of the [datetime] and [timezone] constructors. *)
Definition valid (d : datetime) : bool :=
  (1 <=? year d) && (year d <=? 9999) &&
  (1 <=? month d) && (month d <=? 12) &&
  (1 <=? day d) && (day d <=? days_in_month (year d) (month d)) &&
  (0 <=? hour d) && (hour d <? 24) &&
  (0 <=? minute d) && (minute d <? 60) &&
  (0 <=? second d) && (second d <? 60) &&
  (0 <=? microsecond d) && (microsecond d <? 1000000) &&
  match utcoffset d with
  | None => true
  | Some o => (- day_us <? o) && (o <? day_us)
  end.

Definition digit_char (n : Z) : ascii :=
  ascii_of_N (Z.to_N (48 + n mod 10)).

(** ["%0kd" % n] for [0 <= n < 10^k]. *)
Fixpoint pad (k : nat) (n : Z) : string :=
  match k with
  | O => EmptyString
  | S k' => pad k' (n / 10) +:+ String (digit_char n) EmptyString
  end.

Definition format_offset (o : option Z) : string :=
  match o with
  | None => ""
  | Some off =>
      let a := Z.abs off in
      let us := a mod 1000000 in
      let s := a / 1000000 in
      (if off <? 0 then "-" else "+") +:+
      pad 2 (s / 3600) +:+ ":" +:+ pad 2 (s / 60 mod 60) +:+
      (if (s mod 60 =? 0) && (us =? 0) then ""
       else ":" +:+ pad 2 (s mod 60) +:+
            (if us =? 0 then "" else "." +:+ pad 6 us))
  end.

(** [d.isoformat()]. *)
Definition isoformat (d : datetime) : string :=
  pad 4 (year d) +:+ "-" +:+ pad 2 (month d) +:+ "-" +:+ pad 2 (day d) +:+
  "T" +:+
  pad 2 (hour d) +:+ ":" +:+ pad 2 (minute d) +:+ ":" +:+ pad 2 (second d) +:+
  (if microsecond d =? 0 then "" else "." +:+ pad 6 (microsecond d)) +:+
  format_offset (utcoffset d).

Definition digit_val (c : ascii) : option Z :=
  let n := Z.of_N (N_of_ascii c) in
  if (48 <=? n) && (n <=? 57) then Some (n - 48) else None.

Fixpoint digits_val (acc : Z) (l : list ascii) : option Z :=
  match l with
  | [] => Some acc
  | c :: l' => d ← digit_val c; digits_val (10 * acc + d) l'
  end.

Definition num (l : list ascii) : option Z := digits_val 0 l.

Definition is_sign (c : ascii) : bool :=
  Ascii.eqb c "+" || Ascii.eqb c "-".

(** The time text up to the first sign, and the offset text from it. *)
Fixpoint split_offset (l : list ascii) : list ascii * list ascii :=
  match l with
  | [] => ([], [])
  | c :: l' =>
      if is_sign c then ([], l)
      else let '(a, b) := split_offset l' in (c :: a, b)
  end.

(** [.fff] or [.ffffff], as microseconds. *)
Definition parse_fraction (l : list ascii) : option Z :=
  match l with
  | [_; _; _] => n ← num l; Some (n * 1000)
  | [_; _; _; _; _; _] => num l
  | _ => None
  end.

(** [HH[:MM[:SS[.fff[fff]]]]] as (hour, minute, second, microsecond). *)
Definition parse_hms (l : list ascii) : option (Z * Z * Z * Z) :=
  match l with
  | [h1; h2] => h ← num [h1; h2]; Some (h, 0, 0, 0)
  | [h1; h2; c1; m1; m2] =>
      if Ascii.eqb c1 ":" then
        h ← num [h1; h2]; m ← num [m1; m2]; Some (h, m, 0, 0)
      else None
  | h1 :: h2 :: c1 :: m1 :: m2 :: c2 :: s1 :: s2 :: rest =>
      if Ascii.eqb c1 ":" && Ascii.eqb c2 ":" then
        h ← num [h1; h2]; m ← num [m1; m2]; s ← num [s1; s2];
        match rest with
        | [] => Some (h, m, s, 0)
        | c3 :: frac =>
            if Ascii.eqb c3 "." then us ← parse_fraction frac; Some (h, m, s, us)
            else None
        end
      else None
  | _ => None
  end.

(** [+HH:MM[:SS[.ffffff]]], as microseconds east of UTC. *)
Definition parse_offset (l : list ascii) : option (option Z) :=
  match l with
  | [] => Some None
  | sign :: body =>
      let n := List.length body in
      if (n =? 5)%nat || (n =? 8)%nat || (n =? 15)%nat then
        '(h, m, s, us) ← parse_hms body;
        let a := (h * 3600 + m * 60 + s) * 1000000 + us in
        Some (Some (if Ascii.eqb sign "-" then - a else a))
      else None
  end.

(** [datetime.fromisoformat(s)].  The texts read are those of the grammar
    documented since Python 3.7,
    [YYYY-MM-DD[*HH[:MM[:SS[.fff[fff]]]][+HH:MM[:SS[.ffffff]]]]], which
    every later version reads the same way; a result [Some d] is the
    result of every version.  [None] stands for [ValueError] in
    Python 3.7; later versions read some of these texts too, so the
    properties below rest on no [None] of this function: where they need
    a string to stay a string, they ask that it holds no [T]. *)
Definition fromisoformat (s : string) : option datetime :=
  match list_ascii_of_string s with
  | y1 :: y2 :: y3 :: y4 :: c1 :: m1 :: m2 :: c2 :: d1 :: d2 :: rest =>
      if Ascii.eqb c1 "-" && Ascii.eqb c2 "-" then
        y ← num [y1; y2; y3; y4]; m ← num [m1; m2]; d ← num [d1; d2];
        r ← match rest with
            | [] => Some (mk_datetime y m d 0 0 0 0 None)
            | _sep :: t =>
                let '(tm, off) := split_offset t in
                '(h, mi, sec, us) ← parse_hms tm;
                o ← parse_offset off;
                Some (mk_datetime y m d h mi sec us o)
            end;
        if valid r then Some r else None
      else None
  | _ => None
  end.

End Iso.

Definition utc (y mo d h mi s us : Z) : datetime :=
  mk_datetime y mo d h mi s us (Some 0%Z).

(** ** Values and documents *)

(** What a field of a document, of a model object or of a request body
    holds. *)
Inductive value :=
| VNull
| VStr (s : string)
| VList (l : list string)
| VDate (d : datetime).

#[global] Instance value_eq_dec : EqDecision value.
Proof. solve_decision. Defined.

(** A Python [dict] keyed by field name. *)
Abbreviation doc := (gmap string value).

Definition opt_str (o : option string) : value :=
  match o with Some s => VStr s | None => VNull end.

(** [if d:] for a dict. *)
Definition dict_truthy (d : doc) : bool := negb (bool_decide (d = ∅)).

(** [if x:] for the result of [find_one], a dict or [None]. *)
Definition found (o : option doc) : bool :=
  match o with Some d => dict_truthy d | None => false end.

(** [if x:] for an [Optional[str]] parameter. *)
Definition given (o : option string) : bool :=
  match o with Some s => Str.truthy s | None => false end.

(** ** Helper functions for MongoDB serialization *)

Definition prepare_value (v : value) : value :=
  match v with
  | VDate d => VStr (Iso.isoformat d)
  | _ => v
  end.

Definition prepare_for_mongo (data : doc) : doc := prepare_value <$> data.

Definition parse_value (v : value) : value :=
  match v with
  | VStr s =>
      if Str.contains_char "T" s then
        match Iso.fromisoformat (Str.replace_char "Z" "+00:00" s) with
        | Some d => VDate d
        | None => v
        end
      else v
  | _ => v
  end.

Definition parse_from_mongo (item : doc) : doc := parse_value <$> item.

(** ** Models *)

(** What the default factories of the models read: [str(uuid.uuid4())] and
    [datetime.now(timezone.utc)]. *)
Record env := mk_env { uuid4 : string; now : datetime }.

Module Pydantic.

Inductive annotation := Str_ | OptionalStr | ListStr | Datetime | OptionalDatetime.

Inductive default :=
| Required
| Default (v : value)
| FactoryUuid4
| FactoryNow.

Record field := Field {
  name : string;
  type_ : annotation;
  default_ : default
}.

Definition model := list field.

(** A [datetime] field given text.  pydantic reads ISO 8601 text with a
    parser of its own; on the texts [isoformat] writes it agrees with
    [fromisoformat], and it is taken to be that function on the others,
    which is not what pydantic does on all of them: it reads a text of
    digits as Unix time and, in some versions, refuses a date without a
    time.  The properties below give a [datetime] field a [datetime] or
    a text that [isoformat] wrote. *)
Definition parse_datetime (s : string) : option datetime :=
  Iso.fromisoformat (Str.replace_char "Z" "+00:00" s).

(** Validation of one field.  A [str] field takes no [None], list or
    [datetime]; a list field takes no [str]. *)
Definition validate (t : annotation) (v : value) : option value :=
  match t, v with
  | Str_, VStr _ => Some v
  | OptionalStr, (VStr _ | VNull) => Some v
  | ListStr, VList _ => Some v
  | Datetime, VDate _ => Some v
  | Datetime, VStr s => VDate <$> parse_datetime s
  | OptionalDatetime, (VDate _ | VNull) => Some v
  | OptionalDatetime, VStr s => VDate <$> parse_datetime s
  | _, _ => None
  end.

Definition field_value (e : env) (f : field) (kwargs : doc) : option value :=
  match kwargs !! name f with
  | Some v => validate (type_ f) v
  | None =>
      match default_ f with
      | Required => None
      | Default v => Some v
      | FactoryUuid4 => Some (VStr (uuid4 e))
      | FactoryNow => Some (VDate (now e))
      end
  end.

(** The model object built from keyword arguments, as its [.dict()]:
    every declared field, validated or
    defaulted; keys that are no field of the model are ignored; [None]
    stands for [ValidationError]. *)
Fixpoint construct (e : env) (m : model) (kwargs : doc) : option doc :=
  match m with
  | [] => Some ∅
  | f :: m' =>
      v ← field_value e f kwargs;
      r ← construct e m' kwargs;
      Some (<[name f := v]> r)
  end.

Definition fields (m : model) : list string := name <$> m.

End Pydantic.

Import Pydantic.

Definition User : model := [
  Field "id" Str_ FactoryUuid4;
  Field "email" Str_ Required;
  Field "password" Str_ Required;
  Field "name" Str_ Required;
  Field "user_type" Str_ Required;
  Field "profile_image" OptionalStr (Default VNull);
  Field "title" OptionalStr (Default VNull);
  Field "location" OptionalStr (Default VNull);
  Field "bio" OptionalStr (Default VNull);
  Field "company" OptionalStr (Default VNull);
  Field "skills" ListStr (Default (VList []));
  Field "experience" OptionalStr (Default VNull);
  Field "education" OptionalStr (Default VNull);
  Field "resume" OptionalStr (Default VNull);
  Field "created_at" Datetime FactoryNow
].

Module UserCreate.
Record t := mk { email : string; password : string; name : string; user_type : string }.
Definition dict (u : t) : doc :=
  {[ "email" := VStr (email u); "password" := VStr (password u);
     "name" := VStr (name u); "user_type" := VStr (user_type u) ]}.
End UserCreate.

Module UserLogin.
Record t := mk { email : string; password : string }.
End UserLogin.

Definition UserResponse : model := [
  Field "id" Str_ Required;
  Field "email" Str_ Required;
  Field "name" Str_ Required;
  Field "user_type" Str_ Required;
  Field "profile_image" OptionalStr (Default VNull);
  Field "title" OptionalStr (Default VNull);
  Field "location" OptionalStr (Default VNull);
  Field "bio" OptionalStr (Default VNull);
  Field "company" OptionalStr (Default VNull);
  Field "skills" ListStr (Default (VList []));
  Field "experience" OptionalStr (Default VNull);
  Field "education" OptionalStr (Default VNull);
  Field "created_at" Datetime Required
].

Definition Job : model := [
  Field "id" Str_ FactoryUuid4;
  Field "title" Str_ Required;
  Field "company" Str_ Required;
  Field "location" Str_ Required;
  Field "job_type" Str_ Required;
  Field "salary_range" OptionalStr (Default VNull);
  Field "description" Str_ Required;
  Field "requirements" ListStr (Default (VList []));
  Field "benefits" ListStr (Default (VList []));
  Field "employer_id" Str_ Required;
  Field "posted_at" Datetime FactoryNow;
  Field "expires_at" OptionalDatetime (Default VNull);
  Field "status" Str_ (Default (VStr "active"))
].

Module JobCreate.
Record t := mk {
  title : string; company : string; location : string; job_type : string;
  salary_range : option string; description : string;
  requirements : list string; benefits : list string
}.
Definition dict (j : t) : doc :=
  {[ "title" := VStr (title j); "company" := VStr (company j);
     "location" := VStr (location j); "job_type" := VStr (job_type j);
     "salary_range" := opt_str (salary_range j);
     "description" := VStr (description j);
     "requirements" := VList (requirements j);
     "benefits" := VList (benefits j) ]}.
End JobCreate.

Definition JobResponse : model := [
  Field "id" Str_ Required;
  Field "title" Str_ Required;
  Field "company" Str_ Required;
  Field "location" Str_ Required;
  Field "job_type" Str_ Required;
  Field "salary_range" OptionalStr (Default VNull);
  Field "description" Str_ Required;
  Field "requirements" ListStr (Default (VList []));
  Field "benefits" ListStr (Default (VList []));
  Field "employer_id" Str_ Required;
  Field "posted_at" Datetime Required;
  Field "status" Str_ Required
].

Definition Application : model := [
  Field "id" Str_ FactoryUuid4;
  Field "job_id" Str_ Required;
  Field "applicant_id" Str_ Required;
  Field "cover_letter" OptionalStr (Default VNull);
  Field "status" Str_ (Default (VStr "pending"));
  Field "applied_at" Datetime FactoryNow;
  Field "notes" OptionalStr (Default VNull)
].

Module ApplicationCreate.
Record t := mk { job_id : string; cover_letter : option string }.
Definition dict (a : t) : doc :=
  {[ "job_id" := VStr (job_id a); "cover_letter" := opt_str (cover_letter a) ]}.
End ApplicationCreate.

Definition ApplicationResponse : model := [
  Field "id" Str_ Required;
  Field "job_id" Str_ Required;
  Field "applicant_id" Str_ Required;
  Field "cover_letter" OptionalStr (Default VNull);
  Field "status" Str_ Required;
  Field "applied_at" Datetime Required;
  Field "job_title" OptionalStr (Default VNull);
  Field "company" OptionalStr (Default VNull);
  Field "applicant_name" OptionalStr (Default VNull)
].

(** ** The document store and the handler monad *)

(** The three collections, each in insertion order. *)
Record store := mk_store {
  users : list doc;
  jobs : list doc;
  applications : list doc
}.

Definition empty_store : store := mk_store [] [] [].

(** [db.users], [db.jobs], [db.applications]. *)
Inductive collection := Users | Jobs | Applications.

Definition docs (c : collection) (db : store) : list doc :=
  match c with
  | Users => users db
  | Jobs => jobs db
  | Applications => applications db
  end.

Definition set_docs (c : collection) (l : list doc) (db : store) : store :=
  match c with
  | Users => mk_store l (jobs db) (applications db)
  | Jobs => mk_store (users db) l (applications db)
  | Applications => mk_store (users db) (jobs db) l
  end.

(** What a request ends in: a value, an [HTTPException], or an exception
    that no handler catches and the framework answers with status 500. *)
Inductive outcome (A : Type) :=
| Ok (a : A)
| HTTPException (status_code : Z) (detail : string)
| Uncaught.
Arguments Ok {A} a.
Arguments HTTPException {A} status_code detail.
Arguments Uncaught {A}.

Definition M (A : Type) : Type := env → store → outcome A * store.

#[global] Instance M_ret : MRet M := λ A a _ db, (Ok a, db).

#[global] Instance M_bind : MBind M := λ A B f m e db,
  match m e db with
  | (Ok a, db') => f a e db'
  | (HTTPException c d, db') => (HTTPException c d, db')
  | (Uncaught, db') => (Uncaught, db')
  end.

#[global] Instance M_fmap : FMap M := λ A B f m, a ← m; mret (f a).

Definition raise {A} (status_code : Z) (detail : string) : M A :=
  λ _ db, (HTTPException status_code detail, db).

Definition uncaught {A} : M A := λ _ db, (Uncaught, db).

(** A partial library call, its failure an exception nobody catches. *)
Definition try_ {A} (o : option A) : M A :=
  match o with Some a => mret a | None => uncaught end.

(** [Model(...)], read back as a dict; [ValidationError] is not caught. *)
Definition new (m : model) (kwargs : doc) : M doc :=
  λ e db, try_ (construct e m kwargs) e db.

(** [d[k]], with its [KeyError]. *)
Definition getitem (d : doc) (k : string) : M value := try_ (d !! k).

(** [for x in l: ...] collecting results, stopping at the first exception. *)
Fixpoint for_each {A B} (f : A → M B) (l : list A) : M (list B) :=
  match l with
  | [] => mret []
  | x :: l' => y ← f x; ys ← for_each f l'; mret (y :: ys)
  end.

(** ** Queries *)

(** The filter documents the handlers build.  A query is the conjunction
    of its conditions. *)
#[warnings="-register-all"] Inductive cond :=
| QEq (k : string) (v : value)          (* {k: v} *)
| QRegex (k : string) (pattern : string) (* {k: {"$regex": pattern, "$options": "i"}} *)
| QIn (k : string) (vs : list value)    (* {k: {"$in": vs}} *)
| QOr (cs : list cond).                  (* {"$or": cs} *)

Definition query := list cond.

Module Bson.
Local Open Scope Z_scope.

(** [{k: v}]: the field equals [v], or is an array with [v] among its
    elements; a missing field is matched by [None]. *)
Definition field_eq (d : doc) (k : string) (v : value) : bool :=
  match d !! k with
  | None => bool_decide (v = VNull)
  | Some (VList l) =>
      bool_decide (v = VList l) ||
      match v with VStr s => bool_decide (s ∈ l) | _ => false end
  | Some v' => bool_decide (v' = v)
  end.

(** A regular expression matches a string field, or an element of an
    array field. *)
Definition field_regex (m : string → bool) (d : doc) (k : string) : bool :=
  match d !! k with
  | Some (VStr s) => m s
  | Some (VList l) => existsb m l
  | _ => false
  end.

Definition field_in (d : doc) (k : string) (vs : list value) : bool :=
  existsb (field_eq d k) vs.

(** Days from 0001-01-01 to the first day of year [y]. *)
Definition days_before_year (y : Z) : Z :=
  let p := y - 1 in 365 * p + p / 4 - p / 100 + p / 400.

Fixpoint days_before_month (y : Z) (m : nat) : Z :=
  match m with
  | O => 0
  | S m' => days_before_month y m' + Iso.days_in_month y (Z.of_nat m')
  end.

(** The instant of a [datetime], in milliseconds; a naive one is read
    as UTC. *)
Definition millis (d : datetime) : Z :=
  let days := days_before_year (year d)
              + days_before_month (year d) (Z.to_nat (month d)) + (day d - 1) in
  let us := ((days * 24 + hour d) * 60 + minute d) * 60 + second d in
  (us * 1000000 + microsecond d - match utcoffset d with Some o => o | None => 0 end) / 1000.

Definition max_string (l : list string) : string :=
  foldr (λ s acc, if String.ltb acc s then s else acc) "" l.

(** The key a document is ordered by in a descending sort on [k]: the
    rank of the type of the value, then the value.  An empty array comes
    below [None], an array counts as its largest element, a missing
    field as [None]. *)
Definition sort_key (d : doc) (k : string) : Z * string * Z :=
  match d !! k with
  | None | Some VNull => (1, "", 0)
  | Some (VStr s) => (2, s, 0)
  | Some (VList []) => (0, "", 0)
  | Some (VList l) => (2, max_string l, 0)
  | Some (VDate t) => (4, "", millis t)
  end.

Definition key_lt (a b : Z * string * Z) : bool :=
  let '(ra, sa, ta) := a in
  let '(rb, sb, tb) := b in
  (ra <? rb) ||
  ((ra =? rb) && (String.ltb sa sb || (String.eqb sa sb && (ta <? tb)))).

Fixpoint insert_desc (k : string) (x : doc) (l : list doc) : list doc :=
  match l with
  | [] => [x]
  | y :: l' =>
      if key_lt (sort_key x k) (sort_key y k) then y :: insert_desc k x l'
      else x :: l
  end.

(** [.sort(k, -1)]; documents with equal keys keep their order. *)
Definition sort_desc (k : string) (l : list doc) : list doc :=
  foldr (insert_desc k) [] l.

Definition int64_max : Z := 9223372036854775807.

Fixpoint update_first (p : doc → bool) (f : doc → doc) (l : list doc) : list doc :=
  match l with
  | [] => []
  | d :: l' => if p d then f d :: l' else d :: update_first p f l'
  end.

End Bson.

(** A cursor: a query on a collection with its paging and order, not yet
    run. *)
Record cursor := mk_cursor {
  c_collection : collection;
  c_query : query;
  c_skip : Z;
  c_limit : Z;
  c_sort : option string
}.

Section Backend.

(** The regular-expression engine of the store, with the option [i]:
    a pattern compiles to a search predicate, or is rejected. *)
Variable regex_i : string → option (string → bool).

Fixpoint compile (c : cond) : option (doc → bool) :=
  match c with
  | QEq k v => Some (λ d, Bson.field_eq d k v)
  | QRegex k pattern => m ← regex_i pattern; Some (λ d, Bson.field_regex m d k)
  | QIn k vs => Some (λ d, Bson.field_in d k vs)
  | QOr cs =>
      match cs with
      | [] => None
      | _ =>
          (fix any (l : list cond) : option (doc → bool) :=
             match l with
             | [] => Some (λ _, false)
             | c' :: l' =>
                 f ← compile c'; g ← any l'; Some (λ d, f d || g d)
             end) cs
      end
  end.

Fixpoint compile_query (q : query) : option (doc → bool) :=
  match q with
  | [] => Some (λ _, true)
  | c :: q' => f ← compile c; g ← compile_query q'; Some (λ d, f d && g d)
  end.

(** The documents of [c] that match [q], in insertion order; a query the
    store rejects raises. *)
Definition select (c : collection) (q : query) : M (list doc) :=
  λ e db,
    match compile_query q with
    | Some p => (Ok (List.filter p (docs c db)), db)
    | None => (Uncaught, db)
    end.

Definition find_one (c : collection) (q : query) : M (option doc) :=
  l ← select c q; mret (head l).

Definition count_documents (c : collection) (q : query) : M Z :=
  l ← select c q; mret (Z.of_nat (List.length l)).

Definition insert_one (c : collection) (d : doc) : M unit :=
  λ e db, (Ok (), set_docs c (docs c db ++ [d]) db).

(** [update_one(q, {"$set": fields})]: the first match gets the fields,
    each taken as the name of a top-level field.  This is what the store
    does for keys that are plain names; it walks a dotted key as a path
    and refuses a change of [_id], which the properties of the update
    leave out. *)
Definition update_one_set (c : collection) (q : query) (fields : doc) : M unit :=
  λ e db,
    match compile_query q with
    | Some p => (Ok (), set_docs c (Bson.update_first p (λ d, fields ∪ d) (docs c db)) db)
    | None => (Uncaught, db)
    end.

Definition find (c : collection) (q : query) : cursor :=
  mk_cursor c q 0 0 None.

(** [cursor.skip(n)] raises [ValueError] on a negative [n]. *)
Definition skip (n : Z) (cur : cursor) : M cursor :=
  if (n <? 0)%Z then uncaught
  else mret (mk_cursor (c_collection cur) (c_query cur) n (c_limit cur) (c_sort cur)).

Definition limit (n : Z) (cur : cursor) : cursor :=
  mk_cursor (c_collection cur) (c_query cur) (c_skip cur) n (c_sort cur).

(** [cursor.sort(k, -1)]. *)
Definition sort_desc (k : string) (cur : cursor) : cursor :=
  mk_cursor (c_collection cur) (c_query cur) (c_skip cur) (c_limit cur) (Some k).

(** Limit 0 is no limit.  A negative limit asks for its absolute value in
    one batch, and the store closes a first batch of unstated size after
    101 documents. *)
Definition page (skip_ limit_ : Z) (l : list doc) : list doc :=
  let l := drop (Z.to_nat skip_) l in
  if (limit_ =? 0)%Z then l
  else if (limit_ <? 0)%Z then take (Z.to_nat (Z.min (Z.abs limit_) 101)) l
  else take (Z.to_nat limit_) l.

(** [cursor.to_list(length=None)]: the store filters, orders, skips and
    limits, in this order whatever the order of the calls.  Numbers
    beyond 64 bits cannot be sent. *)
Definition to_list (cur : cursor) : M (list doc) :=
  if (Bson.int64_max <? c_skip cur)%Z || (Bson.int64_max <? Z.abs (c_limit cur))%Z
  then uncaught
  else
    l ← select (c_collection cur) (c_query cur);
    let l := match c_sort cur with Some k => Bson.sort_desc k l | None => l end in
    mret (page (c_skip cur) (c_limit cur) l).

(** [if not x: raise HTTPException(...)] on the result of [find_one]. *)
Definition or_raise (x : option doc) (status_code : Z) (detail : string) : M doc :=
  match x with
  | Some d => if dict_truthy d then mret d else raise status_code detail
  | None => raise status_code detail
  end.

(** ** Authentication routes *)

(** POST /auth/register *)
Definition register_user (user_data : UserCreate.t) : M doc :=
  existing_user ← find_one Users [QEq "email" (VStr (UserCreate.email user_data))];
  if found existing_user then raise 400 "Email already registered"
  else
    let user_dict := UserCreate.dict user_data in
    user_obj ← new User user_dict;
    let user_mongo := prepare_for_mongo user_obj in
    insert_one Users user_mongo;;
    new UserResponse user_obj.

(** POST /auth/login *)
Definition login_user (login_data : UserLogin.t) : M doc :=
  user ← find_one Users [QEq "email" (VStr (UserLogin.email login_data));
                         QEq "password" (VStr (UserLogin.password login_data))];
  user ← or_raise user 401 "Invalid credentials";
  let user := parse_from_mongo user in
  new UserResponse user.

(** ** User routes *)

(** GET /users/{user_id} *)
Definition get_user (user_id : string) : M doc :=
  user ← find_one Users [QEq "id" (VStr user_id)];
  user ← or_raise user 404 "User not found";
  let user := parse_from_mongo user in
  new UserResponse user.

(** PUT /users/{user_id}/profile *)
Definition update_user_profile (user_id : string) (profile_data : doc) : M doc :=
  user ← find_one Users [QEq "id" (VStr user_id)];
  _ ← or_raise user 404 "User not found";
  update_one_set Users [QEq "id" (VStr user_id)] profile_data;;
  mret {[ "message" := VStr "Profile updated successfully" ]}.

(** ** Job routes *)

(** POST /jobs *)
Definition create_job (job_data : JobCreate.t) (employer_id : string) : M doc :=
  let job_dict := JobCreate.dict job_data in
  let job_dict := <["employer_id" := VStr employer_id]> job_dict in
  job_obj ← new Job job_dict;
  let job_mongo := prepare_for_mongo job_obj in
  insert_one Jobs job_mongo;;
  new JobResponse job_obj.

(** The filter document of [get_jobs]. *)
Definition jobs_query (search location job_type : option string) : query :=
  ([QEq "status" (VStr "active")]
  ++ match search with
     | Some s =>
         if Str.truthy s
         then [QOr [QRegex "title" s; QRegex "company" s; QRegex "description" s]]
         else []
     | None => []
     end
  ++ match location with
     | Some l => if Str.truthy l then [QRegex "location" l] else []
     | None => []
     end
  ++ match job_type with
     | Some t => if Str.truthy t then [QEq "job_type" (VStr t)] else []
     | None => []
     end)%list.

(** GET /jobs *)
Definition get_jobs (skip_ limit_ : Z) (search location job_type : option string)
  : M (list doc) :=
  let query := jobs_query search location job_type in
  cur ← skip skip_ (find Jobs query);
  jobs ← to_list (sort_desc "posted_at" (limit limit_ cur));
  let jobs := parse_from_mongo <$> jobs in
  for_each (new JobResponse) jobs.

(** GET /jobs/{job_id} *)
Definition get_job (job_id : string) : M doc :=
  job ← find_one Jobs [QEq "id" (VStr job_id)];
  job ← or_raise job 404 "Job not found";
  let job := parse_from_mongo job in
  new JobResponse job.

(** GET /jobs/employer/{employer_id} *)
Definition get_employer_jobs (employer_id : string) : M (list doc) :=
  jobs ← to_list (sort_desc "posted_at" (find Jobs [QEq "employer_id" (VStr employer_id)]));
  let jobs := parse_from_mongo <$> jobs in
  for_each (new JobResponse) jobs.

(** ** Application routes *)

(** [if job: data["job_title"] = job["title"]; data["company"] = job["company"]] *)
Definition add_job_details (job : option doc) (data : doc) : M doc :=
  match job with
  | Some j =>
      if dict_truthy j then
        title ← getitem j "title";
        company ← getitem j "company";
        mret (<["company" := company]> (<["job_title" := title]> data))
      else mret data
  | None => mret data
  end.

(** [if applicant: data["applicant_name"] = applicant["name"]] *)
Definition add_applicant_details (applicant : option doc) (data : doc) : M doc :=
  match applicant with
  | Some a =>
      if dict_truthy a then
        name ← getitem a "name";
        mret (<["applicant_name" := name]> data)
      else mret data
  | None => mret data
  end.

(** POST /applications *)
Definition apply_for_job (application_data : ApplicationCreate.t) (applicant_id : string)
  : M doc :=
  let job_id := ApplicationCreate.job_id application_data in
  existing_application ←
    find_one Applications [QEq "job_id" (VStr job_id);
                           QEq "applicant_id" (VStr applicant_id)];
  if found existing_application then raise 400 "Already applied for this job"
  else
    let app_dict := ApplicationCreate.dict application_data in
    let app_dict := <["applicant_id" := VStr applicant_id]> app_dict in
    app_obj ← new Application app_dict;
    let app_mongo := prepare_for_mongo app_obj in
    insert_one Applications app_mongo;;
    job ← find_one Jobs [QEq "id" (VStr job_id)];
    applicant ← find_one Users [QEq "id" (VStr applicant_id)];
    let response_data := app_obj in
    response_data ← add_job_details job response_data;
    response_data ← add_applicant_details applicant response_data;
    new ApplicationResponse response_data.

(** GET /applications/user/{user_id} *)
Definition get_user_applications (user_id : string) : M (list doc) :=
  applications ←
    to_list (sort_desc "applied_at" (find Applications [QEq "applicant_id" (VStr user_id)]));
  let applications := parse_from_mongo <$> applications in
  for_each (λ app,
    job_id ← getitem app "job_id";
    job ← find_one Jobs [QEq "id" job_id];
    app_data ← add_job_details job app;
    new ApplicationResponse app_data) applications.

(** GET /applications/job/{job_id} *)
Definition get_job_applications (job_id : string) : M (list doc) :=
  applications ←
    to_list (sort_desc "applied_at" (find Applications [QEq "job_id" (VStr job_id)]));
  let applications := parse_from_mongo <$> applications in
  for_each (λ app,
    applicant_id ← getitem app "applicant_id";
    applicant ← find_one Users [QEq "id" applicant_id];
    job ← find_one Jobs [QEq "id" (VStr job_id)];
    app_data ← add_applicant_details applicant app;
    app_data ← add_job_details job app_data;
    new ApplicationResponse app_data) applications.

(** ** Dashboard stats *)

(** GET /dashboard/stats; the result is a dict of counts. *)
Definition get_dashboard_stats (user_id user_type : string) : M (gmap string Z) :=
  if String.eqb user_type "job_seeker" then
    applications_count ← count_documents Applications [QEq "applicant_id" (VStr user_id)];
    pending_count ←
      count_documents Applications [QEq "applicant_id" (VStr user_id);
                                    QEq "status" (VStr "pending")];
    shortlisted_count ←
      count_documents Applications [QEq "applicant_id" (VStr user_id);
                                    QEq "status" (VStr "shortlisted")];
    mret {[ "total_applications" := applications_count;
            "pending" := pending_count;
            "shortlisted" := shortlisted_count ]}
  else
    jobs_count ← count_documents Jobs [QEq "employer_id" (VStr user_id)];
    active_jobs ←
      count_documents Jobs [QEq "employer_id" (VStr user_id); QEq "status" (VStr "active")];
    employer_jobs ← to_list (find Jobs [QEq "employer_id" (VStr user_id)]);
    job_ids ← for_each (λ job, getitem job "id") employer_jobs;
    total_applications ←
      match job_ids with
      | [] => mret 0%Z
      | _ => count_documents Applications [QIn "job_id" job_ids]
      end;
    mret {[ "total_jobs" := jobs_count;
            "active_jobs" := active_jobs;
            "total_applications" := total_applications ]}.

(** ** The surface: one request, one handler *)

Inductive request :=
| Register (user_data : UserCreate.t)
| Login (login_data : UserLogin.t)
| GetUser (user_id : string)
| UpdateUserProfile (user_id : string) (profile_data : doc)
| CreateJob (job_data : JobCreate.t) (employer_id : string)
| GetJobs (skip_ limit_ : Z) (search location job_type : option string)
| GetJob (job_id : string)
| GetEmployerJobs (employer_id : string)
| ApplyForJob (application_data : ApplicationCreate.t) (applicant_id : string)
| GetUserApplications (user_id : string)
| GetJobApplications (job_id : string)
| GetDashboardStats (user_id user_type : string).

Inductive response :=
| Object_ (d : doc)
| Array_ (l : list doc)
| Counts (c : gmap string Z).

Definition handle (r : request) : M response :=
  match r with
  | Register u => Object_ <$> register_user u
  | Login l => Object_ <$> login_user l
  | GetUser i => Object_ <$> get_user i
  | UpdateUserProfile i p => Object_ <$> update_user_profile i p
  | CreateJob j e => Object_ <$> create_job j e
  | GetJobs s l q loc t => Array_ <$> get_jobs s l q loc t
  | GetJob i => Object_ <$> get_job i
  | GetEmployerJobs e => Array_ <$> get_employer_jobs e
  | ApplyForJob a i => Object_ <$> apply_for_job a i
  | GetUserApplications i => Array_ <$> get_user_applications i
  | GetJobApplications i => Array_ <$> get_job_applications i
  | GetDashboardStats i t => Counts <$> get_dashboard_stats i t
  end.

(** The store after a sequence of requests, each with its environment,
    served one after another: a handler runs to its end before the next
    one starts. *)
Fixpoint run (trace : list (env * request)) (db : store) : store :=
  match trace with
  | [] => db
  | (e, r) :: trace' => run trace' (handle r e db).2
  end.

(** The states the surface can bring an empty store to by requests served
    one after another. *)
Definition reachable (db : store) : Prop :=
  ∃ trace, run trace empty_store = db.

End Backend.

(** ** A regular-expression engine for evaluation *)

(** The engine of the store is an input of the handlers.  For running them
    on concrete requests, [Regex.engine] reads the patterns made of literal
    characters and [.] the way PCRE does under the option [i], and rejects
    every other pattern. *)
Module Regex.

Definition metachars : list ascii :=
  ["\"; "^"; "$"; "."; "["; "]"; "|"; "("; ")"; "?"; "*"; "+"; "{"; "}"]%char.

Definition is_meta (c : ascii) : bool := existsb (Ascii.eqb c) metachars.

(** No character of [p] has a special meaning in a pattern. *)
Fixpoint literal (p : string) : bool :=
  match p with
  | EmptyString => true
  | String c p' => negb (is_meta c) && literal p'
  end.

Fixpoint supported (p : string) : bool :=
  match p with
  | EmptyString => true
  | String c p' => (negb (is_meta c) || Ascii.eqb c ".") && supported p'
  end.

Definition newline : ascii := ascii_of_nat 10.

Definition match_char (pc c : ascii) : bool :=
  if Ascii.eqb pc "." then negb (Ascii.eqb c newline)
  else Ascii.eqb (Str.lower_char pc) (Str.lower_char c).

Fixpoint match_here (p s : string) : bool :=
  match p, s with
  | EmptyString, _ => true
  | String pc p', String c s' => match_char pc c && match_here p' s'
  | String _ _, EmptyString => false
  end.

Fixpoint search (p s : string) : bool :=
  match_here p s ||
  match s with
  | EmptyString => false
  | String _ s' => search p s'
  end.

Definition engine (p : string) : option (string → bool) :=
  if supported p then Some (search p) else None.

End Regex.

Open Scope list_scope.

(** ** The objects the handlers build, and the words of the properties *)

(** [User(...)] for a registration, as [.dict()] gives it. *)
Definition user_object (e : env) (u : UserCreate.t) : doc :=
  list_to_map [
    ("id", VStr (uuid4 e));
    ("email", VStr (UserCreate.email u));
    ("password", VStr (UserCreate.password u));
    ("name", VStr (UserCreate.name u));
    ("user_type", VStr (UserCreate.user_type u));
    ("profile_image", VNull); ("title", VNull); ("location", VNull);
    ("bio", VNull); ("company", VNull); ("skills", VList []);
    ("experience", VNull); ("education", VNull); ("resume", VNull);
    ("created_at", VDate (now e)) ].

(** [Job(...)] for a job posting. *)
Definition job_object (e : env) (j : JobCreate.t) (employer_id : string) : doc :=
  list_to_map [
    ("id", VStr (uuid4 e));
    ("title", VStr (JobCreate.title j));
    ("company", VStr (JobCreate.company j));
    ("location", VStr (JobCreate.location j));
    ("job_type", VStr (JobCreate.job_type j));
    ("salary_range", opt_str (JobCreate.salary_range j));
    ("description", VStr (JobCreate.description j));
    ("requirements", VList (JobCreate.requirements j));
    ("benefits", VList (JobCreate.benefits j));
    ("employer_id", VStr employer_id);
    ("posted_at", VDate (now e));
    ("expires_at", VNull);
    ("status", VStr "active") ].

(** [Application(...)] for an application. *)
Definition application_object (e : env) (a : ApplicationCreate.t) (applicant_id : string)
  : doc :=
  list_to_map [
    ("id", VStr (uuid4 e));
    ("job_id", VStr (ApplicationCreate.job_id a));
    ("applicant_id", VStr applicant_id);
    ("cover_letter", opt_str (ApplicationCreate.cover_letter a));
    ("status", VStr "pending");
    ("applied_at", VDate (now e));
    ("notes", VNull) ].

(** The [ApplicationResponse] for an application and the three enrichment
    values. *)
Definition application_response (e : env) (a : ApplicationCreate.t) (applicant_id : string)
  (job_title company applicant_name : value) : doc :=
  list_to_map [
    ("id", VStr (uuid4 e));
    ("job_id", VStr (ApplicationCreate.job_id a));
    ("applicant_id", VStr applicant_id);
    ("cover_letter", opt_str (ApplicationCreate.cover_letter a));
    ("status", VStr "pending");
    ("applied_at", VDate (now e));
    ("job_title", job_title);
    ("company", company);
    ("applicant_name", applicant_name) ].


Definition omitted (r : doc) (k : string) : Prop := r !! k = Some VNull.

(** A stored user carries this email. *)
Definition email_taken (email : string) (db : store) : bool :=
  existsb (λ d, Bson.field_eq d "email" (VStr email)) (users db).

(** A stored user carries this email and this password. *)
Definition credentials_match (email password : string) (db : store) : bool :=
  existsb (λ d, Bson.field_eq d "email" (VStr email) &&
                Bson.field_eq d "password" (VStr password)) (users db).

(** An application is stored for this job and this applicant. *)
Definition already_applied (job_id applicant_id : string) (db : store) : bool :=
  existsb (λ d, Bson.field_eq d "job_id" (VStr job_id) &&
                Bson.field_eq d "applicant_id" (VStr applicant_id)) (applications db).

(** The first document of a collection stored under an id. *)
Definition lookup_id (l : list doc) (id : string) : option doc :=
  head (List.filter (λ d, Bson.field_eq d "id" (VStr id)) l).

(** The jobs of an employer, and the applications whose [job_id] is the id
    of one of them. *)
Definition employer_jobs (employer_id : string) (db : store) : list doc :=
  List.filter (λ j, Bson.field_eq j "employer_id" (VStr employer_id)) (jobs db).

Definition active_employer_jobs (employer_id : string) (db : store) : list doc :=
  List.filter (λ j, Bson.field_eq j "status" (VStr "active")) (employer_jobs employer_id db).

Definition applied_to_employer (employer_id : string) (db : store) (a : doc) : bool :=
  existsb (λ j, bool_decide (is_Some (a !! "job_id") ∧ a !! "job_id" = j !! "id"))
          (employer_jobs employer_id db).

Definition employer_applications (employer_id : string) (db : store) : list doc :=
  List.filter (applied_to_employer employer_id db) (applications db).

(** Stored jobs and applications are what [create_job] and [apply_for_job]
    wrote. *)
Definition job_written (d : doc) : Prop :=
  ∃ e j employer_id, d = prepare_for_mongo (job_object e j employer_id).

Definition application_written (d : doc) : Prop :=
  ∃ e a applicant_id, d = prepare_for_mongo (application_object e a applicant_id).

(** One request can only add what it wrote, to the end of [jobs] and of
    [applications]. *)
Definition grows (db db' : store) : Prop :=
  (∃ new, jobs db' = jobs db ++ new ∧ Forall job_written new) ∧
  (∃ new, applications db' = applications db ++ new ∧ Forall application_written new).

(** A handler run in environment [e] lets the store grow, and its value
    satisfies [Q]. *)
Definition sat {A} (e : env) (m : M A) (Q : A → Prop) : Prop :=
  ∀ db, grows db (m e db).2 ∧ ∀ a, (m e db).1 = Ok a → Q a.

(** A value built by one of the response models. *)
Definition is_UserResponse (e : env) (r : doc) : Prop :=
  ∃ kw, construct e UserResponse kw = Some r.

Definition is_JobResponse (e : env) (r : doc) : Prop :=
  ∃ kw, construct e JobResponse kw = Some r.

Definition is_ApplicationResponse (e : env) (r : doc) : Prop :=
  ∃ kw, construct e ApplicationResponse kw = Some r.

(** A handler that leaves the store as it is. *)
Definition read_only {A} (m : M A) : Prop := ∀ e db, (m e db).2 = db.

(** The search of a listing, read as the words of the interface say:
    case-insensitive occurrence in the title, the company or the
    description; the location likewise; the job type exactly. *)
Definition search_matches (search : option string) (title company description : string)
  : bool :=
  match search with
  | Some s =>
      if Str.truthy s
      then Str.is_substring_ci s title || Str.is_substring_ci s company
           || Str.is_substring_ci s description
      else true
  | None => true
  end.

Definition location_matches (location : option string) (loc : string) : bool :=
  match location with
  | Some l => if Str.truthy l then Str.is_substring_ci l loc else true
  | None => true
  end.

Definition job_type_matches (job_type : option string) (t : string) : bool :=
  match job_type with
  | Some t' => if Str.truthy t' then String.eqb t t' else true
  | None => true
  end.

(** Text of ASCII characters other than NUL. *)
Definition ascii_char (c : ascii) : bool :=
  let n := nat_of_ascii c in (1 <=? n)%nat && (n <? 128)%nat.

Fixpoint ascii_text (s : string) : bool :=
  match s with
  | EmptyString => true
  | String c s' => ascii_char c && ascii_text s'
  end.

(** A text that is a pattern for itself: ASCII characters, none of them
    with a meaning of its own in a regular expression. *)
Definition plain_pattern (p : string) : bool := Regex.literal p && ascii_text p.

Definition plain_opt (o : option string) : bool :=
  match o with Some s => plain_pattern s | None => true end.

(** What is assumed of the engine of the store, as it holds of a
    regular-expression engine run with the option [i]: a plain pattern is
    searched for in ASCII text as it is written, ignoring the case of the
    letters.  Nothing is assumed for other patterns or other texts, where
    the engine folds case by rules of its own. *)
Definition searches_plain_patterns (regex_i : string → option (string → bool)) : Prop :=
  ∀ p, plain_pattern p = true →
       ∃ m, regex_i p = Some m ∧
            ∀ s, ascii_text s = true → m s = Str.is_substring_ci p s.

(** The value an enrichment field takes from a looked-up document. *)
Definition enrich (o : option doc) (k : string) : value :=
  match o with
  | Some d => match d !! k with Some v => v | None => VNull end
  | None => VNull
  end.

(** The requests answered with a [UserResponse]. *)
Definition returns_user (r : request) : bool :=
  match r with
  | Register _ | Login _ | GetUser _ => true
  | _ => false
  end.

(** The documents of a response, and the names of the counts of one. *)
Definition response_docs (r : response) : list doc :=
  match r with
  | Object_ d => [d]
  | Array_ l => l
  | Counts _ => []
  end.

(** A document that shows neither a resume nor a password. *)
Definition no_secret (d : doc) : Prop :=
  d !! "resume" = None ∧ d !! "password" = None.

(** The ids of a list of jobs. *)
Definition job_ids (l : list doc) : list value := omap (λ j, j !! "id") l.

(** ** Concrete requests and stores, for evaluation *)

Module Demo.

Definition clock (minute_ : Z) (id : string) : env :=
  mk_env id (utc 2024 5 17 9 minute_ 0 0).

Definition ann : UserCreate.t :=
  UserCreate.mk "ann@example.com" "s3cret" "Ann Lee" "job_seeker".

Definition bob : UserCreate.t :=
  UserCreate.mk "bob@example.com" "hunter2" "Bob Roe" "employer".

Definition welder : JobCreate.t :=
  JobCreate.mk "Welder" "Acme" "Paris" "full-time" (Some "40k")
               "Welds steel frames" ["MIG"] ["Meals"].

(** Ann and Bob registered, Bob posted the welder job. *)
Definition trace_posted : list (env * request) :=
  [ (clock 0 "u-1", Register ann);
    (clock 1 "u-2", Register bob);
    (clock 2 "j-1", CreateJob welder "u-2") ].

Definition posted : store := run Regex.engine trace_posted empty_store.

(** Then Ann applied. *)
Definition apply_welder : ApplicationCreate.t :=
  ApplicationCreate.mk "j-1" (Some "I weld.").

Definition trace_applied : list (env * request) :=
  trace_posted ++ [ (clock 3 "a-1", ApplyForJob apply_welder "u-1") ].

Definition applied : store := run Regex.engine trace_applied empty_store.

(** Ann uploaded a resume. *)
Definition trace_resume : list (env * request) :=
  [ (clock 0 "u-1", Register ann);
    (clock 1 "-", UpdateUserProfile "u-1" {[ "resume" := VStr "JVBERi0xLjQK" ]}) ].

Definition with_resume : store := run Regex.engine trace_resume empty_store.

(** The public view of Ann. *)
Definition ann_view : doc :=
  list_to_map [
    ("id", VStr "u-1"); ("email", VStr "ann@example.com");
    ("name", VStr "Ann Lee"); ("user_type", VStr "job_seeker");
    ("profile_image", VNull); ("title", VNull); ("location", VNull);
    ("bio", VNull); ("company", VNull); ("skills", VList []);
    ("experience", VNull); ("education", VNull);
    ("created_at", VDate (utc 2024 5 17 9 0 0 0)) ].

(** Ann's name was set to null by a profile update. *)
Definition trace_nameless : list (env * request) :=
  [ (clock 0 "u-1", Register ann);
    (clock 1 "-", UpdateUserProfile "u-1" {[ "name" := VNull ]}) ].

Definition nameless : store := run Regex.engine trace_nameless empty_store.

(** A job whose title reads as a timestamp, and a user whose name does. *)
Definition dated_job : JobCreate.t :=
  JobCreate.mk "2024-01-01T00:00:00" "Acme" "Paris" "full-time" None
               "New year shift" [] [].

Definition dated_user : UserCreate.t :=
  UserCreate.mk "eve@example.com" "pa55" "2024-01-01T00:00:00" "job_seeker".

(** A job titled [abc]. *)
Definition abc_job : JobCreate.t :=
  JobCreate.mk "abc" "Acme" "Paris" "full-time" None "Spells letters" [] [].

End Demo.

Module DemoViews.

(** The welder job as a [JobResponse]. *)
Definition welder_view : doc :=
  list_to_map [
    ("id", VStr "j-1"); ("title", VStr "Welder"); ("company", VStr "Acme");
    ("location", VStr "Paris"); ("job_type", VStr "full-time");
    ("salary_range", VStr "40k"); ("description", VStr "Welds steel frames");
    ("requirements", VList ["MIG"]); ("benefits", VList ["Meals"]);
    ("employer_id", VStr "u-2");
    ("posted_at", VDate (utc 2024 5 17 9 2 0 0));
    ("status", VStr "active") ].

(** A store with the job titled [abc], and that job as a [JobResponse]. *)
Definition abc_posted : store :=
  run Regex.engine [ (Demo.clock 2 "j-1", CreateJob Demo.abc_job "u-2") ] empty_store.

Definition abc_view : doc :=
  list_to_map [
    ("id", VStr "j-1"); ("title", VStr "abc"); ("company", VStr "Acme");
    ("location", VStr "Paris"); ("job_type", VStr "full-time");
    ("salary_range", VNull); ("description", VStr "Spells letters");
    ("requirements", VList []); ("benefits", VList []);
    ("employer_id", VStr "u-2");
    ("posted_at", VDate (utc 2024 5 17 9 2 0 0));
    ("status", VStr "active") ].

End DemoViews.

(** A query compiles to a predicate that agrees with [P]. *)
Definition compiles (regex_i : string → option (string → bool)) (q : query)
  (P : doc → bool) : Prop :=
  ∃ p, compile_query regex_i q = Some p ∧ ∀ d, p d = P d.

(** The filter of a listing as a predicate on stored documents, for the
    searches [ms] and [ml] that the engine makes of the search text and of
    the location. *)
Definition listing_filter (ms ml : string → bool) (search location job_type : option string)
  (d : doc) : bool :=
  Bson.field_eq d "status" (VStr "active") &&
  (match search with
   | Some s =>
       if Str.truthy s
       then existsb (Bson.field_regex ms d) ["title"; "company"; "description"]
       else true
   | None => true
   end &&
   (match location with
    | Some l => if Str.truthy l then Bson.field_regex ml d "location" else true
    | None => true
    end &&
    match job_type with
    | Some t => if Str.truthy t then Bson.field_eq d "job_type" (VStr t) else true
    | None => true
    end)).

Module DemoDated.

(** After the job with the timestamp-like title was posted. *)
Definition job_env : env := Demo.clock 2 "j-1".

Definition job_posted : store :=
  set_docs Jobs [prepare_for_mongo (job_object job_env Demo.dated_job "u-2")] empty_store.

Definition job_view : doc := delete "expires_at" (job_object job_env Demo.dated_job "u-2").

(** After the user with the timestamp-like name registered. *)
Definition user_env : env := Demo.clock 0 "u-9".

Definition user_registered : store :=
  set_docs Users [prepare_for_mongo (user_object user_env Demo.dated_user)] empty_store.

Definition user_view : doc :=
  delete "resume" (delete "password" (user_object user_env Demo.dated_user)).

End DemoDated.

(** A string that [parse_from_mongo] leaves as it is, whatever the
    version of Python: it holds no [T], so that no reading as a timestamp
    is tried. *)
Definition reads_back (s : string) : Prop := Str.contains_char "T" s = false.

Definition reads_back_opt (o : option string) : Prop :=
  match o with Some s => reads_back s | None => True end.

(** The strings of a job posting, and of a registration. *)
Definition job_reads_back (id employer_id : string) (j : JobCreate.t) : Prop :=
  reads_back id ∧ reads_back employer_id ∧
  reads_back (JobCreate.title j) ∧ reads_back (JobCreate.company j) ∧
  reads_back (JobCreate.location j) ∧ reads_back (JobCreate.job_type j) ∧
  reads_back_opt (JobCreate.salary_range j) ∧ reads_back (JobCreate.description j).

Definition user_reads_back (id : string) (u : UserCreate.t) : Prop :=
  reads_back id ∧ reads_back (UserCreate.email u) ∧ reads_back (UserCreate.password u) ∧
  reads_back (UserCreate.name u) ∧ reads_back (UserCreate.user_type u).

(** The clock of the server gives a valid time in UTC. *)
Definition utc_clock (e : env) : Prop :=
  Iso.valid (now e) = true ∧ utcoffset (now e) = Some 0%Z.

(** A field that holds a string or [None]. *)
Definition str_or_null (d : doc) (k : string) : Prop :=
  d !! k = Some VNull ∨ ∃ s, d !! k = Some (VStr s).

Module DemoNames.

(** Ann's name was set to a list by a profile update. *)
Definition trace_listed_name : list (env * request) :=
  [ (Demo.clock 0 "u-1", Register Demo.ann);
    (Demo.clock 1 "-", UpdateUserProfile "u-1" {[ "name" := VList ["Ann"; "Lee"] ]}) ].

Definition listed_name : store := run Regex.engine trace_listed_name empty_store.

(** Ann as the registration stores her, and the store that holds only
    her. *)
Definition ann_stored : doc :=
  list_to_map [
    ("id", VStr "u-1"); ("email", VStr "ann@example.com");
    ("password", VStr "s3cret");
    ("name", VStr "Ann Lee"); ("user_type", VStr "job_seeker");
    ("profile_image", VNull); ("title", VNull); ("location", VNull);
    ("bio", VNull); ("company", VNull); ("skills", VList []);
    ("experience", VNull); ("education", VNull); ("resume", VNull);
    ("created_at", VStr "2024-05-17T09:00:00+00:00") ].

Definition only_ann : store := mk_store [ann_stored] [] [].

(** An application for a job that is not stored. *)
Definition apply_unknown : ApplicationCreate.t := ApplicationCreate.mk "j-404" None.

End DemoNames.

(** ** Further words, for the properties of the whole surface *)

(** A value that is written and read back as it is: a valid time in UTC,
    a string that holds no [T], a list or [None]. *)
Definition value_reads_back (v : value) : Prop :=
  match v with
  | VDate d => Iso.valid d = true ∧ utcoffset d = Some 0%Z
  | VStr s => reads_back s
  | _ => True
  end.

(** A naive time, taken as one in UTC. *)
Definition in_utc (d : datetime) : datetime :=
  mk_datetime (year d) (month d) (day d) (hour d) (minute d) (second d)
              (microsecond d) (Some 0%Z).

(** A key that [$set] takes as the name of a top-level field: not empty,
    no dotted path, no operator, not the key of the store itself. *)
Definition top_level_name (k : string) : bool :=
  Str.truthy k && negb (Str.contains_char "." k) && negb (Str.starts_with "$" k)
  && negb (String.eqb k "_id") && negb (Str.contains_char Ascii.zero k).

(** A value of a JSON body. *)
Definition json_value (v : value) : bool :=
  match v with VDate _ => false | _ => true end.

(** A value of a JSON body that is stored and read back as it is: [None],
    a list, or a string that holds no [T]. *)
Definition plain_value (v : value) : bool :=
  match v with
  | VStr s => negb (Str.contains_char "T" s)
  | VDate _ => false
  | _ => true
  end.

(** A stored user whose [created_at] is the ISO text of a valid time in
    UTC, as [prepare_for_mongo] writes it, and whose other fields hold
    plain values. *)
Definition plainly_stored (u : doc) : Prop :=
  (∃ t, Iso.valid t = true ∧ utcoffset t = Some 0%Z ∧
        u !! "created_at" = Some (VStr (Iso.isoformat t))) ∧
  forallb (λ kv : string * value, String.eqb kv.1 "created_at" || plain_value kv.2)
          (map_to_list u) = true.

(** The body of a profile update that sets top-level fields. *)
Definition plain_update (p : doc) : Prop :=
  p ≠ ∅ ∧ map_Forall (λ k v, top_level_name k = true ∧ json_value v = true) p.

(** The answer of a profile update. *)
Definition profile_updated : doc := {[ "message" := VStr "Profile updated successfully" ]}.

(** The requests whose handlers only read the store. *)
Definition reads_only (r : request) : bool :=
  match r with
  | Register _ | UpdateUserProfile _ _ | CreateJob _ _ | ApplyForJob _ _ => false
  | _ => true
  end.

(** The one [HTTPException] a handler raises, if it raises any. *)
Definition error_of (r : request) : option (Z * string) :=
  match r with
  | Register _ => Some (400%Z, "Email already registered")
  | Login _ => Some (401%Z, "Invalid credentials")
  | GetUser _ | UpdateUserProfile _ _ => Some (404%Z, "User not found")
  | GetJob _ => Some (404%Z, "Job not found")
  | ApplyForJob _ _ => Some (400%Z, "Already applied for this job")
  | _ => None
  end.

(** A handler whose [HTTPException]s are all among [S]. *)
Definition only_raises {A} (S : Z → string → Prop) (m : M A) : Prop :=
  ∀ e db c d, (m e db).1 = HTTPException c d → S c d.

(** The store after a request, whatever the request ends in. *)
Definition written (r : request) (e : env) (db : store) : store :=
  match r with
  | Register u =>
      if email_taken (UserCreate.email u) db then db
      else set_docs Users (users db ++ [prepare_for_mongo (user_object e u)]) db
  | UpdateUserProfile i p =>
      match lookup_id (users db) i with
      | None => db
      | Some _ =>
          set_docs Users
            (Bson.update_first (λ d, Bson.field_eq d "id" (VStr i)) (λ d, p ∪ d) (users db))
            db
      end
  | CreateJob j employer_id =>
      set_docs Jobs (jobs db ++ [prepare_for_mongo (job_object e j employer_id)]) db
  | ApplyForJob a i =>
      if already_applied (ApplicationCreate.job_id a) i db then db
      else set_docs Applications
             (applications db ++ [prepare_for_mongo (application_object e a i)]) db
  | _ => db
  end.

(** What tells two applications apart: the job and the applicant. *)
Definition application_key (d : doc) : option value * option value :=
  (d !! "job_id", d !! "applicant_id").

(** The applications of a user, and those for a job. *)
Definition user_applications (user_id : string) (db : store) : list doc :=
  List.filter (λ a, Bson.field_eq a "applicant_id" (VStr user_id)) (applications db).

Definition job_applications (job_id : string) (db : store) : list doc :=
  List.filter (λ a, Bson.field_eq a "job_id" (VStr job_id)) (applications db).

(** The requests that update a profile. *)
Definition updates_profile (r : request) : bool :=
  match r with UpdateUserProfile _ _ => true | _ => false end.

(** The requests that leave the emails of the stored users as they are:
    all but the profile updates, and the profile updates whose body names
    plain top-level fields, [email] not among them. *)
Definition keeps_emails (r : request) : Prop :=
  match r with
  | UpdateUserProfile _ p => plain_update p ∧ p !! "email" = None
  | _ => True
  end.

(** Ann registers, Bob posts a job and Ann sets her bio. *)
Definition trace_between : list (env * request) :=
  [ (Demo.clock 2 "j-1", CreateJob Demo.welder "u-2");
    (Demo.clock 3 "-", UpdateUserProfile "u-1" {[ "bio" := VStr "I weld." ]}) ].

(** The emails of the stored users. *)
Definition emails (db : store) : list (option value) := (λ u : doc, u !! "email") <$> users db.

(** ** Two requests at a time *)

(** A handler is a coroutine: where it awaits the store it gives way, and
    another request can be served before it goes on.  [register_user] and
    [apply_for_job] check before they insert; each is its check, a
    [find_one], followed by what it does with the answer. *)
Definition register_user_check (regex_i : string → option (string → bool))
  (user_data : UserCreate.t) : M (option doc) :=
  find_one regex_i Users [QEq "email" (VStr (UserCreate.email user_data))].

Definition register_user_after (user_data : UserCreate.t) (existing_user : option doc)
  : M doc :=
  if found existing_user then raise 400 "Email already registered"
  else
    let user_dict := UserCreate.dict user_data in
    user_obj ← new User user_dict;
    let user_mongo := prepare_for_mongo user_obj in
    insert_one Users user_mongo;;
    new UserResponse user_obj.

Definition apply_for_job_check (regex_i : string → option (string → bool))
  (application_data : ApplicationCreate.t) (applicant_id : string) : M (option doc) :=
  find_one regex_i Applications
    [QEq "job_id" (VStr (ApplicationCreate.job_id application_data));
     QEq "applicant_id" (VStr applicant_id)].

Definition apply_for_job_after (regex_i : string → option (string → bool))
  (application_data : ApplicationCreate.t) (applicant_id : string)
  (existing_application : option doc) : M doc :=
  let job_id := ApplicationCreate.job_id application_data in
  if found existing_application then raise 400 "Already applied for this job"
  else
    let app_dict := ApplicationCreate.dict application_data in
    let app_dict := <["applicant_id" := VStr applicant_id]> app_dict in
    app_obj ← new Application app_dict;
    let app_mongo := prepare_for_mongo app_obj in
    insert_one Applications app_mongo;;
    job ← find_one regex_i Jobs [QEq "id" (VStr job_id)];
    applicant ← find_one regex_i Users [QEq "id" (VStr applicant_id)];
    let response_data := app_obj in
    response_data ← add_job_details job response_data;
    response_data ← add_applicant_details applicant response_data;
    new ApplicationResponse response_data.

(** A handler goes on with the answer it awaited. *)
Definition resume {A B} (after : A → M B) (answer : outcome A) : M B :=
  match answer with
  | Ok a => after a
  | HTTPException status_code detail => raise status_code detail
  | Uncaught => uncaught
  end.

(** Two requests whose checks are both answered before either of them goes
    on: what the first and the second end in, and the store they leave. *)
Definition both_checked {A} (check1 check2 : M (option doc))
  (after1 after2 : option doc → M A) (e1 e2 : env) (db : store)
  : outcome A * outcome A * store :=
  let c1 := check1 e1 db in
  let c2 := check2 e2 c1.2 in
  let r1 := resume after1 c1.1 e1 c2.2 in
  let r2 := resume after2 c2.1 e2 r1.2 in
  (r1.1, r2.1, r2.2).

(** A second request of Ann to register, under another name. *)
Definition ann_again : UserCreate.t :=
  UserCreate.mk "ann@example.com" "0ther" "Ann Roe" "employer".

(** ** The settings of the middleware *)

(** [s.split(sep)] for a one-character [sep]. *)
Fixpoint split_char (sep : ascii) (s : string) : list string :=
  match s with
  | EmptyString => [EmptyString]
  | String c s' =>
      if Ascii.eqb c sep then EmptyString :: split_char sep s'
      else match split_char sep s' with
           | x :: rest => String c x :: rest
           | [] => [String c EmptyString]
           end
  end.

(** [sep.join(l)]. *)
Fixpoint join (sep : string) (l : list string) : string :=
  match l with
  | [] => EmptyString
  | [x] => x
  | x :: rest => x +:+ sep +:+ join sep rest
  end.

(** [os.environ.get('CORS_ORIGINS', '*').split(',')], the origins the
    middleware allows. *)
Definition allow_origins (environ : gmap string string) : list string :=
  split_char "," (match environ !! "CORS_ORIGINS" with Some v => v | None => "*" end).

(** ** The order of a listing *)

(** The fields of a time read as one number, [YYYYMMDDhhmmssffffff]: of
    two valid times in UTC, the earlier one has the smaller number. *)
Definition stamp (d : datetime) : Z :=
  ((((((year d * 100 + month d) * 100 + day d) * 100 + hour d) * 100 + minute d) * 100
    + second d) * 1000000 + microsecond d)%Z.

(** Every element stands in relation [R] to all that come after it. *)
Fixpoint ordered {A} (R : A → A → Prop) (l : list A) : Prop :=
  match l with
  | [] => True
  | x :: l' => Forall (R x) l' ∧ ordered R l'
  end.

(** A listing whose entries carry a time in the field [k], an entry that
    comes first being no older than one that comes later. *)
Definition newest_first (k : string) (l : list doc) : Prop :=
  ∀ i j r1 r2, (i < j)%nat → l !! i = Some r1 → l !! j = Some r2 →
    ∃ t1 t2, r1 !! k = Some (VDate t1) ∧ r2 !! k = Some (VDate t2) ∧
             (stamp t2 ≤ stamp t1)%Z.

(** A comparison, and a second one for when the first finds no difference. *)
Definition then_by (c1 c2 : comparison) : comparison :=
  match c1 with Eq => c2 | _ => c1 end.

(** A trace whose clocks all give a valid time in UTC, and the stores such
    traces build. *)
Definition utc_trace (trace : list (env * request)) : Prop :=
  Forall (λ er : env * request, utc_clock er.1) trace.

Definition reachable_utc (regex_i : string → option (string → bool)) (db : store) : Prop :=
  ∃ trace, utc_trace trace ∧ run regex_i trace empty_store = db.

(** Jobs and applications written at a valid time in UTC. *)
Definition job_written_at (d : doc) : Prop :=
  ∃ e j employer_id, utc_clock e ∧ d = prepare_for_mongo (job_object e j employer_id).

Definition application_written_at (d : doc) : Prop :=
  ∃ e a applicant_id,
    utc_clock e ∧ d = prepare_for_mongo (application_object e a applicant_id).

(** The time a stored document carries as text in the field [k], as a
    number; 0 when it carries none. *)
Definition stored_stamp (k : string) (d : doc) : Z :=
  match d !! k with
  | Some (VStr s) =>
      match Iso.fromisoformat s with Some t => stamp t | None => 0%Z end
  | _ => 0%Z
  end.

(** A second job, which Bob posted three minutes after the first. *)
Definition fitter : JobCreate.t :=
  JobCreate.mk "Fitter" "Acme" "Lyon" "contract" None "Fits pipes" [] [].

Definition trace_two_jobs : list (env * request) :=
  Demo.trace_posted ++ [ (Demo.clock 5 "j-2", CreateJob fitter "u-2") ].

Definition two_jobs : store := run Regex.engine trace_two_jobs empty_store.

(** Then Ann applied for the first job, and a minute later for the second. *)
Definition trace_two_applications : list (env * request) :=
  trace_two_jobs
  ++ [ (Demo.clock 6 "a-1", ApplyForJob (ApplicationCreate.mk "j-1" None) "u-1");
       (Demo.clock 7 "a-2", ApplyForJob (ApplicationCreate.mk "j-2" None) "u-1") ].

Definition two_applications : store := run Regex.engine trace_two_applications empty_store.

(** * Properties *)

(** ** Timestamps *)

Example isoformat_utc :
  Iso.isoformat (utc 2024 5 17 9 30 0 123456) = "2024-05-17T09:30:00.123456+00:00".
Proof. reflexivity. Qed.

Example fromisoformat_utc :
  Iso.fromisoformat "2024-05-17T09:30:00.123456+00:00"
  = Some (utc 2024 5 17 9 30 0 123456).
Proof. vm_compute. reflexivity. Qed.

Example fromisoformat_plain :
  Iso.fromisoformat "2024-01-01T00:00:00" = Some (mk_datetime 2024 1 1 0 0 0 0 None).
Proof. vm_compute. reflexivity. Qed.

Example fromisoformat_words : Iso.fromisoformat "Team Lead" = None.
Proof. vm_compute. reflexivity. Qed.

(** ** Lists *)

Lemma filter_ext {A} (p q : A → bool) (l : list A) :
  (∀ x, p x = q x) → List.filter p l = List.filter q l.
Proof. intros H. induction l as [|x l IH]; cbn; [done|]. by rewrite H, IH. Qed.

Lemma existsb_ext {A} (p q : A → bool) (l : list A) :
  (∀ x, p x = q x) → existsb p l = existsb q l.
Proof. intros H. induction l as [|x l IH]; cbn; [done|]. by rewrite H, IH. Qed.

Lemma head_filter {A} (p : A → bool) (l : list A) :
  match head (List.filter p l) with
  | Some x => p x = true ∧ existsb p l = true
  | None => existsb p l = false
  end.
Proof.
  induction l as [|x l IH]; cbn; [done|].
  destruct (p x) eqn:Hp; cbn; [done|]. exact IH.
Qed.

Lemma filter_nil_existsb {A} (p : A → bool) (l : list A) :
  List.filter p l = [] → existsb p l = false.
Proof.
  intros H. pose proof (head_filter p l) as Hh. by rewrite H in Hh.
Qed.

Lemma elem_of_filter_bool {A} (p : A → bool) (l : list A) (x : A) :
  x ∈ List.filter p l ↔ x ∈ l ∧ p x = true.
Proof. rewrite !list_elem_of_In. apply filter_In. Qed.

(** ** Documents *)

Lemma field_eq_truthy d k s : Bson.field_eq d k (VStr s) = true → dict_truthy d = true.
Proof.
  unfold Bson.field_eq, dict_truthy. intros H.
  destruct (decide (d = ∅)) as [->|Hne].
  - rewrite lookup_empty in H. by rewrite bool_decide_eq_true in H.
  - by rewrite bool_decide_eq_false_2.
Qed.

Lemma field_eq_str d k s t :
  d !! k = Some (VStr t) → Bson.field_eq d k (VStr s) = bool_decide (t = s).
Proof.
  intros H. unfold Bson.field_eq. rewrite H.
  apply bool_decide_ext. split; congruence.
Qed.

Lemma field_eq_true d k s :
  Bson.field_eq d k (VStr s) = true →
  d !! k = Some (VStr s) ∨ ∃ l, d !! k = Some (VList l).
Proof.
  unfold Bson.field_eq. destruct (d !! k) as [[| t | l | t]|] eqn:E; intros H;
    try (apply bool_decide_eq_true in H; try discriminate).
  - left. by rewrite H.
  - right. by exists l.
Qed.

Lemma found_head_filter k s (l : list doc) :
  found (head (List.filter (λ d, Bson.field_eq d k (VStr s)) l))
  = existsb (λ d, Bson.field_eq d k (VStr s)) l.
Proof.
  pose proof (head_filter (λ d, Bson.field_eq d k (VStr s)) l) as H.
  destruct (head _) as [d|]; cbn.
  - destruct H as [H1 H2]. by rewrite H2, (field_eq_truthy _ _ _ H1).
  - by rewrite H.
Qed.

Lemma found_head_filter2 k1 s1 k2 s2 (l : list doc) :
  found (head (List.filter
    (λ d, Bson.field_eq d k1 (VStr s1) && Bson.field_eq d k2 (VStr s2)) l))
  = existsb (λ d, Bson.field_eq d k1 (VStr s1) && Bson.field_eq d k2 (VStr s2)) l.
Proof.
  pose proof (head_filter
    (λ d, Bson.field_eq d k1 (VStr s1) && Bson.field_eq d k2 (VStr s2)) l) as H.
  destruct (head _) as [d|]; cbn.
  - destruct H as [H1 H2]. rewrite H2. apply andb_true_iff in H1 as [H1 _].
    by rewrite (field_eq_truthy _ _ _ H1).
  - by rewrite H.
Qed.

Lemma parse_value_no_T s :
  Str.contains_char "T" s = false → parse_value (VStr s) = VStr s.
Proof. intros H. unfold parse_value. by rewrite H. Qed.

Lemma parse_value_str s :
  parse_value (VStr s) = VStr s ∨ ∃ d, parse_value (VStr s) = VDate d.
Proof.
  unfold parse_value. destruct (Str.contains_char _ _); [|by left].
  destruct (Iso.fromisoformat _) as [d|]; [right; by exists d | by left].
Qed.

Lemma parse_value_is_str v s : parse_value v = VStr s → v = VStr s.
Proof.
  destruct v as [| t | l | t]; cbn; try done.
  destruct (Str.contains_char _ _); [|done].
  by destruct (Iso.fromisoformat _).
Qed.

(** ** Models *)

(** A constructed object holds, for each field of the model, the value
    validation gave it. *)
Lemma construct_lookup e (m : model) kw r :
  NoDup (fields m) → construct e m kw = Some r →
  ∀ f, f ∈ m → field_value e f kw = r !! name f ∧ is_Some (r !! name f).
Proof.
  revert r. induction m as [|g m IH]; intros r Hnd Hc f Hf; [by apply elem_of_nil in Hf|].
  cbn in Hc. destruct (field_value e g kw) as [v|] eqn:Hv; [|done].
  destruct (construct e m kw) as [r'|] eqn:Hr; [|done].
  cbn in Hc. injection Hc as <-.
  cbn in Hnd. apply NoDup_cons in Hnd as [Hnotin Hnd].
  apply elem_of_cons in Hf as [->|Hf].
  - rewrite lookup_insert_eq. by rewrite Hv.
  - assert (name g ≠ name f) as Hne.
    { intros Heq. apply Hnotin. rewrite Heq. unfold fields. by apply list_elem_of_fmap_2. }
    rewrite lookup_insert_ne by done. by apply IH.
Qed.

(** It holds nothing else. *)
Lemma construct_dom e (m : model) kw r k :
  construct e m kw = Some r → k ∉ fields m → r !! k = None.
Proof.
  revert r. induction m as [|g m IH]; intros r Hc Hk.
  - cbn in Hc. injection Hc as <-. apply lookup_empty.
  - cbn in Hc. destruct (field_value e g kw) as [v|]; [|done].
    destruct (construct e m kw) as [r'|]; [|done].
    cbn in Hc. injection Hc as <-.
    cbn in Hk. apply not_elem_of_cons in Hk as [Hne Hk].
    rewrite lookup_insert_ne by done. by apply IH.
Qed.

(** What a required [str] field of a constructed object is. *)
Lemma construct_str e (m : model) kw r k :
  NoDup (fields m) → construct e m kw = Some r → Field k Str_ Required ∈ m →
  ∃ s, kw !! k = Some (VStr s) ∧ r !! k = Some (VStr s).
Proof.
  intros Hnd Hc Hf. destruct (construct_lookup _ _ _ _ Hnd Hc _ Hf) as [H [v Hv]].
  cbn in *. rewrite Hv in H. unfold field_value in H. cbn in H.
  destruct (kw !! k) as [[| s | l | t]|]; cbn in H; try done.
  exists s. split; [done|]. by injection H as <-.
Qed.

Lemma NoDup_UserResponse : NoDup (fields UserResponse).
Proof. compute_done. Qed.

Lemma NoDup_JobResponse : NoDup (fields JobResponse).
Proof. compute_done. Qed.

Lemma NoDup_ApplicationResponse : NoDup (fields ApplicationResponse).
Proof. compute_done. Qed.

(** ** Timestamps are read back as they were written *)

Module IsoFacts.
Local Open Scope Z_scope.

Lemma digit_cases x :
  let r := x mod 10 in
  r = 0 ∨ r = 1 ∨ r = 2 ∨ r = 3 ∨ r = 4 ∨ r = 5 ∨ r = 6 ∨ r = 7 ∨ r = 8 ∨ r = 9.
Proof. intros r. pose proof (Z.mod_pos_bound x 10 eq_refl). lia. Qed.

Ltac digit x :=
  unfold Iso.digit_char;
  destruct (digit_cases x) as [E|[E|[E|[E|[E|[E|[E|[E|[E|E]]]]]]]]];
  rewrite E; reflexivity.

Lemma digit_val_char x : Iso.digit_val (Iso.digit_char x) = Some (x mod 10).
Proof. digit x. Qed.

Lemma digit_not_Z x : Ascii.eqb "Z" (Iso.digit_char x) = false.
Proof. digit x. Qed.

Lemma digit_not_T x : Ascii.eqb "T" (Iso.digit_char x) = false.
Proof. digit x. Qed.

Lemma digit_not_sign x : Iso.is_sign (Iso.digit_char x) = false.
Proof. digit x. Qed.

Lemma num2 n : 0 ≤ n < 100 →
  Iso.num [Iso.digit_char (n / 10); Iso.digit_char n] = Some n.
Proof.
  intros H. unfold Iso.num. cbn [Iso.digits_val].
  rewrite !digit_val_char. cbn [mbind option_bind]. f_equal.
  Z.div_mod_to_equations. lia.
Qed.

Lemma num4 n : 0 ≤ n < 10000 →
  Iso.num [Iso.digit_char (n / 10 / 10 / 10); Iso.digit_char (n / 10 / 10);
           Iso.digit_char (n / 10); Iso.digit_char n] = Some n.
Proof.
  intros H. unfold Iso.num. cbn [Iso.digits_val].
  rewrite !digit_val_char. cbn [mbind option_bind]. f_equal.
  Z.div_mod_to_equations. lia.
Qed.

Lemma num6 n : 0 ≤ n < 1000000 →
  Iso.num [Iso.digit_char (n / 10 / 10 / 10 / 10 / 10);
           Iso.digit_char (n / 10 / 10 / 10 / 10);
           Iso.digit_char (n / 10 / 10 / 10); Iso.digit_char (n / 10 / 10);
           Iso.digit_char (n / 10); Iso.digit_char n] = Some n.
Proof.
  intros H. unfold Iso.num. cbn [Iso.digits_val].
  rewrite !digit_val_char. cbn [mbind option_bind]. f_equal.
  Z.div_mod_to_equations. lia.
Qed.

Lemma valid_bounds y mo d h mi s us o :
  Iso.valid (mk_datetime y mo d h mi s us o) = true →
  1 ≤ y ≤ 9999 ∧ 1 ≤ mo ≤ 12 ∧ 1 ≤ d ≤ 31 ∧ 0 ≤ h < 24 ∧ 0 ≤ mi < 60 ∧
  0 ≤ s < 60 ∧ 0 ≤ us < 1000000.
Proof.
  unfold Iso.valid. cbn [year month day hour minute second microsecond utcoffset].
  intros H. repeat (apply andb_true_iff in H as [H ?]).
  assert (1 ≤ mo ≤ 12) as Hmo by lia.
  assert (Iso.days_in_month y mo ≤ 31).
  { assert (mo = 1 ∨ mo = 2 ∨ mo = 3 ∨ mo = 4 ∨ mo = 5 ∨ mo = 6 ∨ mo = 7 ∨ mo = 8
            ∨ mo = 9 ∨ mo = 10 ∨ mo = 11 ∨ mo = 12) as Hc by lia.
    destruct Hc as [->|[->|[->|[->|[->|[->|[->|[->|[->|[->|[->| ->]]]]]]]]]]];
      cbn; try lia. destruct (Iso.is_leap y); lia. }
  lia.
Qed.

Lemma contains_char_append c a b :
  Str.contains_char c (a +:+ b) = Str.contains_char c a || Str.contains_char c b.
Proof.
  induction a as [|x a IH]; [done|].
  change (String x a +:+ b) with (String x (a +:+ b)). cbn [Str.contains_char].
  destruct (Ascii.eqb c x); [done | exact IH].
Qed.

Lemma contains_char_pad c k n :
  (∀ x, Ascii.eqb c (Iso.digit_char x) = false) →
  Str.contains_char c (Iso.pad k n) = false.
Proof.
  intros H. revert n. induction k as [|k IH]; intros n; [done|].
  cbn [Iso.pad]. rewrite contains_char_append, IH. cbn [Str.contains_char orb].
  by rewrite H.
Qed.

Lemma replace_char_id c b s :
  Str.contains_char c s = false → Str.replace_char c b s = s.
Proof.
  induction s as [|x s IH]; [done|]. cbn [Str.contains_char Str.replace_char].
  destruct (Ascii.eqb c x); [done|]. intros H. by rewrite IH.
Qed.

Lemma isoformat_no_Z d :
  utcoffset d = Some 0 → Str.contains_char "Z" (Iso.isoformat d) = false.
Proof.
  intros Ho. unfold Iso.isoformat. rewrite Ho.
  change (Iso.format_offset (Some 0)) with "+00:00".
  rewrite !contains_char_append, !(contains_char_pad "Z") by apply digit_not_Z.
  destruct (microsecond d =? 0); [reflexivity|].
  rewrite !contains_char_append, !(contains_char_pad "Z") by apply digit_not_Z.
  reflexivity.
Qed.

Lemma isoformat_has_T d : Str.contains_char "T" (Iso.isoformat d) = true.
Proof.
  unfold Iso.isoformat.
  rewrite !contains_char_append, !(contains_char_pad "T") by apply digit_not_T.
  reflexivity.
Qed.

Lemma split_offset_prefix pre rest :
  forallb (λ c, negb (Iso.is_sign c)) pre = true →
  Iso.split_offset (pre ++ "+"%char :: rest) = (pre, "+"%char :: rest).
Proof.
  induction pre as [|c pre IH]; [done|]. cbn [forallb app Iso.split_offset].
  intros [Hc Hpre]%andb_true_iff. apply negb_true_iff in Hc.
  by rewrite Hc, (IH Hpre).
Qed.

Lemma fromisoformat_isoformat d :
  Iso.valid d = true → utcoffset d = Some 0 →
  Iso.fromisoformat (Iso.isoformat d) = Some d.
Proof.
  destruct d as [y mo d h mi s us o]. intros Hv Ho. cbn in Ho. subst o.
  pose proof (valid_bounds _ _ _ _ _ _ _ _ Hv) as (By & Bmo & Bd & Bh & Bmi & Bs & Bus).
  unfold Iso.isoformat, Iso.fromisoformat.
  cbn [year month day hour minute second microsecond utcoffset].
  change (Iso.format_offset (Some 0)) with "+00:00".
  destruct (us =? 0) eqn:Eus.
  - apply Z.eqb_eq in Eus. subst us.
    lazy [Iso.pad String.append list_ascii_of_string].
    change (Ascii.eqb "-" "-") with true. cbv [andb].
    rewrite num4, !num2 by lia. cbn [mbind option_bind].
    pose proof (split_offset_prefix
      [Iso.digit_char (h / 10); Iso.digit_char h; ":"%char;
       Iso.digit_char (mi / 10); Iso.digit_char mi; ":"%char;
       Iso.digit_char (s / 10); Iso.digit_char s] ["0"; "0"; ":"; "0"; "0"]%char) as E.
    cbn [forallb app] in E. rewrite !digit_not_sign in E. rewrite (E eq_refl).
    unfold Iso.parse_hms. change (Ascii.eqb ":" ":") with true. cbv [andb].
    rewrite !num2 by lia. cbn [mbind option_bind].
    change (Iso.parse_offset ["+"; "0"; "0"; ":"; "0"; "0"]%char) with (Some (Some 0)).
    cbn [mbind option_bind]. by rewrite Hv.
  - lazy [Iso.pad String.append list_ascii_of_string].
    change (Ascii.eqb "-" "-") with true. cbv [andb].
    rewrite num4, !num2 by lia. cbn [mbind option_bind].
    pose proof (split_offset_prefix
      [Iso.digit_char (h / 10); Iso.digit_char h; ":"%char;
       Iso.digit_char (mi / 10); Iso.digit_char mi; ":"%char;
       Iso.digit_char (s / 10); Iso.digit_char s; "."%char;
       Iso.digit_char (us / 10 / 10 / 10 / 10 / 10);
       Iso.digit_char (us / 10 / 10 / 10 / 10); Iso.digit_char (us / 10 / 10 / 10);
       Iso.digit_char (us / 10 / 10); Iso.digit_char (us / 10); Iso.digit_char us]
      ["0"; "0"; ":"; "0"; "0"]%char) as E.
    cbn [forallb app] in E. rewrite !digit_not_sign in E. rewrite (E eq_refl).
    unfold Iso.parse_hms. change (Ascii.eqb ":" ":") with true.
    change (Ascii.eqb "." ".") with true. cbv [andb].
    rewrite !num2 by lia. cbn [mbind option_bind].
    unfold Iso.parse_fraction. rewrite num6 by lia. cbn [mbind option_bind].
    change (Iso.parse_offset ["+"; "0"; "0"; ":"; "0"; "0"]%char) with (Some (Some 0)).
    cbn [mbind option_bind]. by rewrite Hv.
Qed.

(** A valid UTC timestamp is read back from its text as it was. *)
Lemma parse_value_isoformat d :
  Iso.valid d = true → utcoffset d = Some 0 →
  parse_value (VStr (Iso.isoformat d)) = VDate d.
Proof.
  intros Hv Ho. unfold parse_value.
  rewrite isoformat_has_T, (replace_char_id _ _ _ (isoformat_no_Z d Ho)).
  by rewrite (fromisoformat_isoformat d Hv Ho).
Qed.

End IsoFacts.

(** ** The objects of the handlers, by evaluation *)

(** Maps with literal keys are evaluated by the virtual machine. *)
Ltac by_vm :=
  lazymatch goal with |- _ = ?r => vm_cast_no_check (@eq_refl _ r) end.

Lemma new_User e u : construct e User (UserCreate.dict u) = Some (user_object e u).
Proof. by_vm. Qed.

Lemma new_UserResponse e u :
  construct e UserResponse (user_object e u)
  = Some (delete "resume" (delete "password" (user_object e u))).
Proof. by_vm. Qed.

Lemma user_object_fields e u :
  user_object e u !! "id" = Some (VStr (uuid4 e)) ∧
  user_object e u !! "created_at" = Some (VDate (now e)) ∧
  user_object e u !! "email" = Some (VStr (UserCreate.email u)) ∧
  user_object e u !! "password" = Some (VStr (UserCreate.password u)) ∧
  user_object e u !! "name" = Some (VStr (UserCreate.name u)) ∧
  user_object e u !! "user_type" = Some (VStr (UserCreate.user_type u)).
Proof. repeat split; by_vm. Qed.

Lemma stored_user_fields e u :
  prepare_for_mongo (user_object e u) !! "id" = Some (VStr (uuid4 e)) ∧
  prepare_for_mongo (user_object e u) !! "created_at"
    = Some (VStr (Iso.isoformat (now e))) ∧
  prepare_for_mongo (user_object e u) !! "email" = Some (VStr (UserCreate.email u)) ∧
  prepare_for_mongo (user_object e u) !! "password"
    = Some (VStr (UserCreate.password u)).
Proof. repeat split; by_vm. Qed.

Lemma public_user_fields e u :
  let r := delete "resume" (delete "password" (user_object e u)) in
  r !! "id" = Some (VStr (uuid4 e)) ∧
  r !! "created_at" = Some (VDate (now e)) ∧
  r !! "email" = Some (VStr (UserCreate.email u)) ∧
  r !! "name" = Some (VStr (UserCreate.name u)) ∧
  r !! "user_type" = Some (VStr (UserCreate.user_type u)) ∧
  r !! "password" = None ∧
  r !! "resume" = None.
Proof. repeat split; by_vm. Qed.

Lemma new_Job e j employer_id :
  construct e Job (<["employer_id" := VStr employer_id]> (JobCreate.dict j))
  = Some (job_object e j employer_id).
Proof. destruct j as [? ? ? ? [?|] ? ? ?]; by_vm. Qed.

Lemma new_JobResponse e j employer_id :
  construct e JobResponse (job_object e j employer_id)
  = Some (delete "expires_at" (job_object e j employer_id)).
Proof. destruct j as [? ? ? ? [?|] ? ? ?]; by_vm. Qed.

Lemma stored_job_fields e j employer_id :
  let d := prepare_for_mongo (job_object e j employer_id) in
  d !! "id" = Some (VStr (uuid4 e)) ∧
  d !! "title" = Some (VStr (JobCreate.title j)) ∧
  d !! "company" = Some (VStr (JobCreate.company j)) ∧
  d !! "employer_id" = Some (VStr employer_id) ∧
  d !! "status" = Some (VStr "active").
Proof. destruct j as [? ? ? ? [?|] ? ? ?]; repeat split; by_vm. Qed.

Lemma new_Application e a applicant_id :
  construct e Application (<["applicant_id" := VStr applicant_id]> (ApplicationCreate.dict a))
  = Some (application_object e a applicant_id).
Proof. destruct a as [? [?|]]; by_vm. Qed.

Lemma stored_application_fields e a applicant_id :
  let d := prepare_for_mongo (application_object e a applicant_id) in
  d !! "id" = Some (VStr (uuid4 e)) ∧
  d !! "job_id" = Some (VStr (ApplicationCreate.job_id a)) ∧
  d !! "applicant_id" = Some (VStr applicant_id) ∧
  d !! "status" = Some (VStr "pending") ∧
  d !! "notes" = Some VNull.
Proof. destruct a as [? [?|]]; repeat split; by_vm. Qed.





Lemma application_response_fields e a i t c n :
  let r := application_response e a i t c n in
  r !! "status" = Some (VStr "pending") ∧
  r !! "job_title" = Some t ∧
  r !! "company" = Some c ∧
  r !! "applicant_name" = Some n ∧
  r !! "job_id" = Some (VStr (ApplicationCreate.job_id a)) ∧
  r !! "applicant_id" = Some (VStr i).
Proof. repeat split; by_vm. Qed.

(** ** Equations of the monad and of the store *)

Lemma bind_eq {A B} (m : M A) (f : A → M B) e db :
  (m ≫= f) e db =
  match m e db with
  | (Ok a, db') => f a e db'
  | (HTTPException c d, db') => (HTTPException c d, db')
  | (Uncaught, db') => (Uncaught, db')
  end.
Proof. reflexivity. Qed.

Lemma fmap_eq {A B} (f : A → B) (m : M A) e db :
  (f <$> m) e db =
  match m e db with
  | (Ok a, db') => (Ok (f a), db')
  | (HTTPException c d, db') => (HTTPException c d, db')
  | (Uncaught, db') => (Uncaught, db')
  end.
Proof. reflexivity. Qed.

Lemma new_eq m kw e db :
  new m kw e db = (match construct e m kw with Some d => Ok d | None => Uncaught end, db).
Proof. unfold new, try_. by destruct (construct e m kw). Qed.

Lemma getitem_eq d k e db :
  getitem d k e db = (match d !! k with Some v => Ok v | None => Uncaught end, db).
Proof. unfold getitem, try_. by destruct (d !! k). Qed.

Section Store.

Variable regex_i : string → option (string → bool).

Lemma select_eq c q e db :
  select regex_i c q e db =
  match compile_query regex_i q with
  | Some p => (Ok (List.filter p (docs c db)), db)
  | None => (Uncaught, db)
  end.
Proof. reflexivity. Qed.

Lemma select_eq1 c k v e db :
  select regex_i c [QEq k v] e db
  = (Ok (List.filter (λ d, Bson.field_eq d k v) (docs c db)), db).
Proof.
  rewrite select_eq. cbn [compile_query compile mbind option_bind].
  do 2 f_equal. apply filter_ext. intros d. apply andb_true_r.
Qed.

Lemma select_eq2 c k1 v1 k2 v2 e db :
  select regex_i c [QEq k1 v1; QEq k2 v2] e db
  = (Ok (List.filter (λ d, Bson.field_eq d k1 v1 && Bson.field_eq d k2 v2) (docs c db)), db).
Proof.
  rewrite select_eq. cbn [compile_query compile mbind option_bind].
  do 2 f_equal. apply filter_ext. intros d. by rewrite andb_true_r.
Qed.

Lemma find_one_eq1 c k v e db :
  find_one regex_i c [QEq k v] e db
  = (Ok (head (List.filter (λ d, Bson.field_eq d k v) (docs c db))), db).
Proof. unfold find_one. by rewrite bind_eq, select_eq1. Qed.

Lemma find_one_eq2 c k1 v1 k2 v2 e db :
  find_one regex_i c [QEq k1 v1; QEq k2 v2] e db
  = (Ok (head (List.filter (λ d, Bson.field_eq d k1 v1 && Bson.field_eq d k2 v2)
                 (docs c db))), db).
Proof. unfold find_one. by rewrite bind_eq, select_eq2. Qed.

Lemma count_documents_eq1 c k v e db :
  count_documents regex_i c [QEq k v] e db
  = (Ok (Z.of_nat (List.length (List.filter (λ d, Bson.field_eq d k v) (docs c db)))), db).
Proof. unfold count_documents. by rewrite bind_eq, select_eq1. Qed.

Lemma count_documents_eq2 c k1 v1 k2 v2 e db :
  count_documents regex_i c [QEq k1 v1; QEq k2 v2] e db
  = (Ok (Z.of_nat (List.length
      (List.filter (λ d, Bson.field_eq d k1 v1 && Bson.field_eq d k2 v2) (docs c db)))), db).
Proof. unfold count_documents. by rewrite bind_eq, select_eq2. Qed.

Lemma or_raise_eq k s (l : list doc) c detail e db :
  or_raise (head (List.filter (λ d, Bson.field_eq d k (VStr s)) l)) c detail e db
  = match head (List.filter (λ d, Bson.field_eq d k (VStr s)) l) with
    | Some d => (Ok d, db)
    | None => (HTTPException c detail, db)
    end.
Proof.
  pose proof (head_filter (λ d, Bson.field_eq d k (VStr s)) l) as H.
  destruct (head _) as [d|]; [|done].
  destruct H as [H _]. unfold or_raise. by rewrite (field_eq_truthy _ _ _ H).
Qed.

Lemma or_raise_eq2 k1 s1 k2 s2 (l : list doc) c detail e db :
  let p := λ d, Bson.field_eq d k1 (VStr s1) && Bson.field_eq d k2 (VStr s2) in
  or_raise (head (List.filter p l)) c detail e db
  = match head (List.filter p l) with
    | Some d => (Ok d, db)
    | None => (HTTPException c detail, db)
    end.
Proof.
  intros p. pose proof (head_filter p l) as H.
  destruct (head _) as [d|]; [|done].
  destruct H as [H _]. apply andb_true_iff in H as [H _].
  unfold or_raise. by rewrite (field_eq_truthy _ _ _ H).
Qed.

End Store.

(** ** What a request can do to the store *)

Lemma grows_refl db : grows db db.
Proof. split; exists []; by rewrite app_nil_r. Qed.

Lemma grows_trans db1 db2 db3 : grows db1 db2 → grows db2 db3 → grows db1 db3.
Proof.
  intros [[j1 [Hj1 Fj1]] [a1 [Ha1 Fa1]]] [[j2 [Hj2 Fj2]] [a2 [Ha2 Fa2]]]. split.
  - exists (j1 ++ j2). rewrite Hj2, Hj1, app_assoc. split; [done|]. by apply Forall_app.
  - exists (a1 ++ a2). rewrite Ha2, Ha1, app_assoc. split; [done|]. by apply Forall_app.
Qed.

Lemma grows_users l db : grows db (set_docs Users l db).
Proof. split; exists []; cbn; by rewrite app_nil_r. Qed.

Lemma grows_job d db :
  job_written d → grows db (set_docs Jobs (docs Jobs db ++ [d]) db).
Proof.
  intros H. split; cbn.
  - exists [d]. split; [done|]. by apply Forall_singleton.
  - exists []. by rewrite app_nil_r.
Qed.

Lemma grows_application d db :
  application_written d → grows db (set_docs Applications (docs Applications db ++ [d]) db).
Proof.
  intros H. split; cbn.
  - exists []. by rewrite app_nil_r.
  - exists [d]. split; [done|]. by apply Forall_singleton.
Qed.

Lemma sat_mono {A} e (m : M A) (Q R : A → Prop) :
  sat e m Q → (∀ a, Q a → R a) → sat e m R.
Proof. intros H HQR db. destruct (H db) as [Hg Hq]. split; [done|]. auto. Qed.

Lemma sat_ret {A} e (a : A) (Q : A → Prop) : Q a → sat e (mret a) Q.
Proof.
  intros H db. split; [apply grows_refl|]. intros a' Ha. cbn in Ha. by injection Ha as <-.
Qed.

Lemma sat_bind {A B} e (m : M A) (f : A → M B) (Q : A → Prop) (R : B → Prop) :
  sat e m Q → (∀ a, Q a → sat e (f a) R) → sat e (m ≫= f) R.
Proof.
  intros Hm Hf db. rewrite bind_eq. destruct (Hm db) as [Hg Hq].
  destruct (m e db) as [[a | c d |] db'] eqn:E; cbn in *; try (split; [done|]; done).
  destruct (Hf a (Hq a eq_refl) db') as [Hg' Hr]. split; [|done].
  by apply grows_trans with db'.
Qed.

Lemma sat_fmap {A B} e (g : A → B) (m : M A) (Q : A → Prop) (R : B → Prop) :
  sat e m Q → (∀ a, Q a → R (g a)) → sat e (g <$> m) R.
Proof.
  intros Hm Hg. apply sat_bind with Q; [done|]. intros a Ha. apply sat_ret. auto.
Qed.

Lemma sat_read {A} e (m : M A) (Q : A → Prop) :
  (∀ db, (m e db).2 = db) → (∀ db a, (m e db).1 = Ok a → Q a) → sat e m Q.
Proof. intros H1 H2 db. rewrite H1. split; [apply grows_refl | apply H2]. Qed.

Lemma sat_raise {A} e c d (Q : A → Prop) : sat e (raise c d) Q.
Proof. by apply sat_read. Qed.

Lemma sat_uncaught {A} e (Q : A → Prop) : sat e uncaught Q.
Proof. by apply sat_read. Qed.

Lemma sat_try {A} e (o : option A) : sat e (try_ o) (λ a, o = Some a).
Proof.
  destruct o as [a|]; [|apply sat_uncaught]. apply sat_ret. done.
Qed.

Lemma sat_new e m kw : sat e (new m kw) (λ d, construct e m kw = Some d).
Proof.
  apply sat_read; intros db; rewrite new_eq; [done|].
  intros a. cbn. by destruct (construct e m kw); intros [= ->].
Qed.

Lemma sat_getitem e d k : sat e (getitem d k) (λ v, d !! k = Some v).
Proof. apply sat_try. Qed.

Lemma sat_or_raise e x c d : sat e (or_raise x c d) (λ y, x = Some y).
Proof.
  unfold or_raise. destruct x as [y|]; [|apply sat_raise].
  destruct (dict_truthy y); [|apply sat_raise]. by apply sat_ret.
Qed.

Lemma sat_for_each {A B} e (f : A → M B) (l : list A) (Q : B → Prop) :
  (∀ x, sat e (f x) Q) → sat e (for_each f l) (Forall Q).
Proof.
  intros Hf. induction l as [|x l IH]; cbn [for_each].
  - by apply sat_ret.
  - apply sat_bind with Q; [done|]. intros y Hy.
    apply sat_bind with (Forall Q); [done|]. intros ys Hys.
    apply sat_ret. by constructor.
Qed.

Lemma sat_insert_users e d : sat e (insert_one Users d) (λ _, True).
Proof. intros db. split; [apply grows_users | done]. Qed.

Lemma sat_insert_job e d : job_written d → sat e (insert_one Jobs d) (λ _, True).
Proof. intros H db. split; [by apply grows_job | done]. Qed.

Lemma sat_insert_application e d :
  application_written d → sat e (insert_one Applications d) (λ _, True).
Proof. intros H db. split; [by apply grows_application | done]. Qed.

Section Surface.

Variable regex_i : string → option (string → bool).

Lemma sat_select e c q : sat e (select regex_i c q) (λ _, True).
Proof.
  apply sat_read; [|done]. intros db. rewrite select_eq.
  by destruct (compile_query regex_i q).
Qed.

Lemma sat_find_one e c q : sat e (find_one regex_i c q) (λ _, True).
Proof.
  unfold find_one. apply sat_bind with (λ _, True); [apply sat_select|].
  intros l _. by apply sat_ret.
Qed.

Lemma sat_count_documents e c q : sat e (count_documents regex_i c q) (λ _, True).
Proof.
  unfold count_documents. apply sat_bind with (λ _, True); [apply sat_select|].
  intros l _. by apply sat_ret.
Qed.

Lemma sat_to_list e cur : sat e (to_list regex_i cur) (λ _, True).
Proof.
  unfold to_list. destruct (_ || _); [apply sat_uncaught|].
  apply sat_bind with (λ _, True); [apply sat_select|].
  intros l _. by apply sat_ret.
Qed.

Lemma sat_skip e n cur : sat e (skip n cur) (λ _, True).
Proof. unfold skip. destruct (n <? 0)%Z; [apply sat_uncaught | by apply sat_ret]. Qed.

Lemma sat_update_users e q fields_ :
  sat e (update_one_set regex_i Users q fields_) (λ _, True).
Proof.
  intros db. unfold update_one_set. destruct (compile_query regex_i q); cbn.
  - split; [apply grows_users | done].
  - split; [apply grows_refl | done].
Qed.

Lemma sat_add_job_details e job data :
  sat e (add_job_details job data) (λ _, True).
Proof.
  unfold add_job_details. destruct job as [j|]; [|by apply sat_ret].
  destruct (dict_truthy j); [|by apply sat_ret].
  apply sat_bind with (λ _, True); [eapply sat_mono; [apply sat_getitem | done]|].
  intros t _. apply sat_bind with (λ _, True); [eapply sat_mono; [apply sat_getitem | done]|].
  intros c _. by apply sat_ret.
Qed.

Lemma sat_add_applicant_details e applicant data :
  sat e (add_applicant_details applicant data) (λ _, True).
Proof.
  unfold add_applicant_details. destruct applicant as [a|]; [|by apply sat_ret].
  destruct (dict_truthy a); [|by apply sat_ret].
  apply sat_bind with (λ _, True); [eapply sat_mono; [apply sat_getitem | done]|].
  intros n _. by apply sat_ret.
Qed.

Ltac sat_true_step :=
  first
    [ apply sat_find_one | apply sat_count_documents | apply sat_to_list
    | apply sat_skip | apply sat_select | apply sat_update_users
    | apply sat_insert_users | apply sat_add_job_details
    | apply sat_add_applicant_details
    | eapply sat_mono; [apply sat_or_raise | done]
    | eapply sat_mono; [apply sat_getitem | done]
    | eapply sat_mono; [apply sat_new | done] ].

Lemma sat_register_user e u : sat e (register_user regex_i u) (is_UserResponse e).
Proof.
  unfold register_user.
  apply sat_bind with (λ _, True); [sat_true_step|]. intros x _.
  destruct (found x); [apply sat_raise|].
  apply sat_bind with (λ _, True); [sat_true_step|]. intros o _.
  apply sat_bind with (λ _, True); [sat_true_step|]. intros _ _.
  eapply sat_mono; [apply sat_new|]. intros r Hr. eexists; exact Hr.
Qed.

Lemma sat_login_user e l : sat e (login_user regex_i l) (is_UserResponse e).
Proof.
  unfold login_user.
  apply sat_bind with (λ _, True); [sat_true_step|]. intros x _.
  apply sat_bind with (λ _, True); [sat_true_step|]. intros y _.
  eapply sat_mono; [apply sat_new|]. intros r Hr. eexists; exact Hr.
Qed.

Lemma sat_get_user e i : sat e (get_user regex_i i) (is_UserResponse e).
Proof.
  unfold get_user.
  apply sat_bind with (λ _, True); [sat_true_step|]. intros x _.
  apply sat_bind with (λ _, True); [sat_true_step|]. intros y _.
  eapply sat_mono; [apply sat_new|]. intros r Hr. eexists; exact Hr.
Qed.

Lemma sat_update_user_profile e i p :
  sat e (update_user_profile regex_i i p)
      (λ r, r = {[ "message" := VStr "Profile updated successfully" ]}).
Proof.
  unfold update_user_profile.
  apply sat_bind with (λ _, True); [sat_true_step|]. intros x _.
  apply sat_bind with (λ _, True); [sat_true_step|]. intros y _.
  apply sat_bind with (λ _, True); [sat_true_step|]. intros _ _.
  by apply sat_ret.
Qed.

Lemma sat_create_job e j employer_id :
  sat e (create_job j employer_id) (is_JobResponse e).
Proof.
  unfold create_job.
  apply sat_bind with (λ o, o = job_object e j employer_id).
  { eapply sat_mono; [apply sat_new|]. intros o Ho. rewrite new_Job in Ho. congruence. }
  intros o ->.
  apply sat_bind with (λ _, True).
  { apply sat_insert_job. by exists e, j, employer_id. }
  intros _ _. eapply sat_mono; [apply sat_new|]. intros r Hr. eexists; exact Hr.
Qed.

Lemma sat_jobs_page e cur :
  sat e (jobs ← to_list regex_i cur;
         for_each (new JobResponse) (parse_from_mongo <$> jobs))
      (Forall (is_JobResponse e)).
Proof.
  apply sat_bind with (λ _, True); [sat_true_step|]. intros l _.
  apply sat_for_each. intros d. eapply sat_mono; [apply sat_new|].
  intros r Hr. eexists; exact Hr.
Qed.

Lemma sat_get_jobs e s l q loc t :
  sat e (get_jobs regex_i s l q loc t) (Forall (is_JobResponse e)).
Proof.
  unfold get_jobs. apply sat_bind with (λ _, True); [sat_true_step|].
  intros cur _. apply sat_jobs_page.
Qed.

Lemma sat_get_job e i : sat e (get_job regex_i i) (is_JobResponse e).
Proof.
  unfold get_job.
  apply sat_bind with (λ _, True); [sat_true_step|]. intros x _.
  apply sat_bind with (λ _, True); [sat_true_step|]. intros y _.
  eapply sat_mono; [apply sat_new|]. intros r Hr. eexists; exact Hr.
Qed.

Lemma sat_get_employer_jobs e i :
  sat e (get_employer_jobs regex_i i) (Forall (is_JobResponse e)).
Proof. unfold get_employer_jobs. apply sat_jobs_page. Qed.

Lemma sat_apply_for_job e a i :
  sat e (apply_for_job regex_i a i) (is_ApplicationResponse e).
Proof.
  unfold apply_for_job.
  apply sat_bind with (λ _, True); [sat_true_step|]. intros x _.
  destruct (found x); [apply sat_raise|].
  apply sat_bind with (λ o, o = application_object e a i).
  { eapply sat_mono; [apply sat_new|]. intros o Ho. rewrite new_Application in Ho. congruence. }
  intros o ->.
  apply sat_bind with (λ _, True).
  { apply sat_insert_application. by exists e, a, i. }
  intros _ _.
  apply sat_bind with (λ _, True); [sat_true_step|]. intros job _.
  apply sat_bind with (λ _, True); [sat_true_step|]. intros applicant _.
  apply sat_bind with (λ _, True); [sat_true_step|]. intros d1 _.
  apply sat_bind with (λ _, True); [sat_true_step|]. intros d2 _.
  eapply sat_mono; [apply sat_new|]. intros r Hr. eexists; exact Hr.
Qed.

Lemma sat_get_user_applications e i :
  sat e (get_user_applications regex_i i) (Forall (is_ApplicationResponse e)).
Proof.
  unfold get_user_applications.
  apply sat_bind with (λ _, True); [sat_true_step|]. intros l _.
  apply sat_for_each. intros app.
  apply sat_bind with (λ _, True); [sat_true_step|]. intros v _.
  apply sat_bind with (λ _, True); [sat_true_step|]. intros job _.
  apply sat_bind with (λ _, True); [sat_true_step|]. intros d _.
  eapply sat_mono; [apply sat_new|]. intros r Hr. eexists; exact Hr.
Qed.

Lemma sat_get_job_applications e i :
  sat e (get_job_applications regex_i i) (Forall (is_ApplicationResponse e)).
Proof.
  unfold get_job_applications.
  apply sat_bind with (λ _, True); [sat_true_step|]. intros l _.
  apply sat_for_each. intros app.
  apply sat_bind with (λ _, True); [sat_true_step|]. intros v _.
  apply sat_bind with (λ _, True); [sat_true_step|]. intros applicant _.
  apply sat_bind with (λ _, True); [sat_true_step|]. intros job _.
  apply sat_bind with (λ _, True); [sat_true_step|]. intros d1 _.
  apply sat_bind with (λ _, True); [sat_true_step|]. intros d2 _.
  eapply sat_mono; [apply sat_new|]. intros r Hr. eexists; exact Hr.
Qed.

Lemma sat_get_dashboard_stats e i t :
  sat e (get_dashboard_stats regex_i i t) (λ _, True).
Proof.
  unfold get_dashboard_stats. destruct (String.eqb t "job_seeker").
  - apply sat_bind with (λ _, True); [sat_true_step|]. intros n1 _.
    apply sat_bind with (λ _, True); [sat_true_step|]. intros n2 _.
    apply sat_bind with (λ _, True); [sat_true_step|]. intros n3 _.
    by apply sat_ret.
  - apply sat_bind with (λ _, True); [sat_true_step|]. intros n1 _.
    apply sat_bind with (λ _, True); [sat_true_step|]. intros n2 _.
    apply sat_bind with (λ _, True); [sat_true_step|]. intros l _.
    apply sat_bind with (λ _, True).
    { eapply sat_mono; [|done]. apply sat_for_each with (Q := λ _, True).
      intros job. sat_true_step. }
    intros ids _.
    apply sat_bind with (λ _, True).
    { destruct ids; [by apply sat_ret | sat_true_step]. }
    intros n3 _. by apply sat_ret.
Qed.

Lemma no_secret_UserResponse e r : is_UserResponse e r → no_secret r.
Proof. intros [kw H]. split; apply (construct_dom _ _ _ _ _ H); compute_done. Qed.

Lemma no_secret_JobResponse e r : is_JobResponse e r → no_secret r.
Proof. intros [kw H]. split; apply (construct_dom _ _ _ _ _ H); compute_done. Qed.

Lemma no_secret_ApplicationResponse e r : is_ApplicationResponse e r → no_secret r.
Proof. intros [kw H]. split; apply (construct_dom _ _ _ _ _ H); compute_done. Qed.

Lemma no_secret_message : no_secret {[ "message" := VStr "Profile updated successfully" ]}.
Proof. split; by_vm. Qed.

(** Every request lets the store grow, and answers with documents that
    show neither a resume nor a password. *)
Lemma sat_handle e r :
  sat e (handle regex_i r) (λ resp, Forall no_secret (response_docs resp)).
Proof.
  destruct r; cbn [handle].
  - eapply sat_fmap; [apply sat_register_user|]. intros d Hd. cbn.
    apply Forall_singleton. by apply (no_secret_UserResponse e).
  - eapply sat_fmap; [apply sat_login_user|]. intros d Hd. cbn.
    apply Forall_singleton. by apply (no_secret_UserResponse e).
  - eapply sat_fmap; [apply sat_get_user|]. intros d Hd. cbn.
    apply Forall_singleton. by apply (no_secret_UserResponse e).
  - eapply sat_fmap; [apply sat_update_user_profile|]. intros d ->. cbn [response_docs].
    apply Forall_singleton, no_secret_message.
  - eapply sat_fmap; [apply sat_create_job|]. intros d Hd. cbn.
    apply Forall_singleton. by apply (no_secret_JobResponse e).
  - eapply sat_fmap; [apply sat_get_jobs|]. intros l Hl. cbn.
    eapply Forall_impl; [exact Hl|]. apply no_secret_JobResponse.
  - eapply sat_fmap; [apply sat_get_job|]. intros d Hd. cbn.
    apply Forall_singleton. by apply (no_secret_JobResponse e).
  - eapply sat_fmap; [apply sat_get_employer_jobs|]. intros l Hl. cbn.
    eapply Forall_impl; [exact Hl|]. apply no_secret_JobResponse.
  - eapply sat_fmap; [apply sat_apply_for_job|]. intros d Hd. cbn.
    apply Forall_singleton. by apply (no_secret_ApplicationResponse e).
  - eapply sat_fmap; [apply sat_get_user_applications|]. intros l Hl. cbn.
    eapply Forall_impl; [exact Hl|]. apply no_secret_ApplicationResponse.
  - eapply sat_fmap; [apply sat_get_job_applications|]. intros l Hl. cbn.
    eapply Forall_impl; [exact Hl|]. apply no_secret_ApplicationResponse.
  - eapply sat_fmap; [apply sat_get_dashboard_stats|]. intros c _. cbn. constructor.
Qed.

(** Every request lets the store grow. *)
Lemma handle_grows r e db : grows db (handle regex_i r e db).2.
Proof. apply (sat_handle e r db). Qed.

Lemma run_grows trace db : grows db (run regex_i trace db).
Proof.
  revert db. induction trace as [|[e r] trace IH]; intros db; cbn [run].
  - apply grows_refl.
  - eapply grows_trans; [apply handle_grows | apply IH].
Qed.

(** In a reachable store every job and every application is one that
    [create_job] or [apply_for_job] wrote. *)
Lemma reachable_written db :
  reachable regex_i db →
  Forall job_written (jobs db) ∧ Forall application_written (applications db).
Proof.
  intros [trace <-].
  destruct (run_grows trace empty_store) as [[nj [Hj Fj]] [na [Ha Fa]]].
  cbn in Hj, Ha. by rewrite Hj, Ha.
Qed.

End Surface.

(** ** Registration, and the public view of a user *)

Section Users.

Variable regex_i : string → option (string → bool).

Lemma register_user_eq e u db :
  register_user regex_i u e db =
    if email_taken (UserCreate.email u) db
    then (HTTPException 400 "Email already registered", db)
    else (Ok (delete "resume" (delete "password" (user_object e u))),
          set_docs Users (users db ++ [prepare_for_mongo (user_object e u)]) db).
Proof.
  unfold register_user, email_taken. rewrite bind_eq, find_one_eq1.
  cbn [docs]. rewrite found_head_filter.
  destruct (existsb _ _); [done|].
  rewrite bind_eq, new_eq, new_User, bind_eq. unfold insert_one.
  by rewrite new_eq, new_UserResponse.
Qed.

(** C3. Registration fails with status 400 and leaves the store as it is
    when a stored user carries the email; otherwise the store after it is
    the store before with one user appended to the users, jobs and
    applications as they were; the user has the id and the time of
    creation the server generated, and the public view returned has no
    password. *)
Theorem register_user_conflict_or_created e u db :
  register_user regex_i u e db =
    (if email_taken (UserCreate.email u) db
     then (HTTPException 400 "Email already registered", db)
     else (Ok (delete "resume" (delete "password" (user_object e u))),
           mk_store (users db ++ [prepare_for_mongo (user_object e u)])
                    (jobs db) (applications db)))
  ∧ construct e User (UserCreate.dict u) = Some (user_object e u)
  ∧ prepare_for_mongo (user_object e u) !! "id" = Some (VStr (uuid4 e))
  ∧ prepare_for_mongo (user_object e u) !! "created_at"
      = Some (VStr (Iso.isoformat (now e)))
  ∧ prepare_for_mongo (user_object e u) !! "email" = Some (VStr (UserCreate.email u))
  ∧ prepare_for_mongo (user_object e u) !! "password"
      = Some (VStr (UserCreate.password u))
  ∧ (let r := delete "resume" (delete "password" (user_object e u)) in
     r !! "id" = Some (VStr (uuid4 e)) ∧
     r !! "created_at" = Some (VDate (now e)) ∧
     r !! "email" = Some (VStr (UserCreate.email u)) ∧
     r !! "name" = Some (VStr (UserCreate.name u)) ∧
     r !! "user_type" = Some (VStr (UserCreate.user_type u)) ∧
     r !! "password" = None).
Proof.
  split; [|split; [apply new_User|]].
  - apply register_user_eq.
  - destruct (stored_user_fields e u) as (H1 & H2 & H3 & H4).
    destruct (public_user_fields e u) as (R1 & R2 & R3 & R4 & R5 & R6 & _).
    repeat split; assumption.
Qed.

(** C9. The response of register, login and get-user is one document,
    which has neither a [resume] nor a [password] field, whatever the
    stored user holds; and no document of any response of the surface has
    one. *)
Theorem public_view_omits_resume_and_password e db (r : request) (resp : response) :
  (handle regex_i r e db).1 = Ok resp →
  Forall no_secret (response_docs resp) ∧
  (returns_user r = true → ∃ view, resp = Object_ view ∧ no_secret view).
Proof.
  intros Hresp.
  assert (Forall no_secret (response_docs resp)) as Hall.
  { destruct (sat_handle regex_i e r db) as [_ H]. by apply H. }
  split; [exact Hall|]. intros Hr.
  assert (∃ view, resp = Object_ view) as [view ->].
  { destruct r; try discriminate Hr; cbn [handle] in Hresp; rewrite fmap_eq in Hresp.
    - destruct (register_user _ _ _ _) as [[a| |] ?]; try discriminate Hresp.
      injection Hresp as <-. by eexists.
    - destruct (login_user _ _ _ _) as [[a| |] ?]; try discriminate Hresp.
      injection Hresp as <-. by eexists.
    - destruct (get_user _ _ _ _) as [[a| |] ?]; try discriminate Hresp.
      injection Hresp as <-. by eexists. }
  exists view. split; [reflexivity|].
  change (Forall no_secret [view]) in Hall. exact (proj1 (Forall_singleton _ _) Hall).
Qed.

End Users.

(** Ann registers on an empty store: she is stored, as the only user,
    with her password and the time of the clock as text, and gets her
    public view; a second registration with her email is refused and
    leaves that store as it is. *)
Lemma register_user_conflict_or_created_witness :
  register_user Regex.engine Demo.ann (Demo.clock 0 "u-1") empty_store
    = (Ok Demo.ann_view, DemoNames.only_ann) ∧
  register_user Regex.engine Demo.ann (Demo.clock 5 "u-5") DemoNames.only_ann
    = (HTTPException 400 "Email already registered", DemoNames.only_ann).
Proof.
  split.
  - destruct (register_user_conflict_or_created Regex.engine (Demo.clock 0 "u-1")
                Demo.ann empty_store) as [H _].
    rewrite H. by_vm.
  - destruct (register_user_conflict_or_created Regex.engine (Demo.clock 5 "u-5")
                Demo.ann DemoNames.only_ann) as [H _].
    rewrite H. by_vm.
Defined.

(** Ann's resume is stored, and the answer to get-user has none. *)
Lemma public_view_omits_resume_and_password_witness :
  lookup_id (users Demo.with_resume) "u-1" ≫= (λ d, d !! "resume")
    = Some (VStr "JVBERi0xLjQK") ∧
  (handle Regex.engine (GetUser "u-1") (Demo.clock 5 "-") Demo.with_resume).1
    = Ok (Object_ Demo.ann_view) ∧
  no_secret Demo.ann_view.
Proof.
  assert ((handle Regex.engine (GetUser "u-1") (Demo.clock 5 "-") Demo.with_resume).1
          = Ok (Object_ Demo.ann_view)) as H by by_vm.
  split; [by_vm|]. split; [exact H|].
  destruct (public_view_omits_resume_and_password Regex.engine _ _ _ _ H) as [_ Hv].
  destruct (Hv eq_refl) as (view & [= <-] & Hview). exact Hview.
Defined.

(** ** Applications are created pending and never changed *)

Section Applications.

Variable regex_i : string → option (string → bool).

Lemma application_written_pending d :
  application_written d →
  d !! "status" = Some (VStr "pending") ∧ d !! "notes" = Some VNull.
Proof.
  intros (e & a & i & ->).
  destruct (stored_application_fields e a i) as (_ & _ & _ & H1 & H2). by split.
Qed.

(** C8. Whatever requests are served, every stored application has status
    pending; and one request leaves the applications it finds as they are,
    adding at most new ones, which are pending and without notes. *)
Theorem applications_pending_and_immutable :
  (∀ trace,
     Forall (λ a : doc, a !! "status" = Some (VStr "pending") ∧ a !! "notes" = Some VNull)
            (applications (run regex_i trace empty_store))) ∧
  (∀ r e db, ∃ new,
     applications (handle regex_i r e db).2 = applications db ++ new ∧
     Forall (λ a : doc, a !! "status" = Some (VStr "pending") ∧ a !! "notes" = Some VNull)
            new).
Proof.
  split.
  - intros trace.
    destruct (run_grows regex_i trace empty_store) as [_ (new & H & F)].
    rewrite H. cbn. eapply Forall_impl; [exact F|].
    intros d. apply application_written_pending.
  - intros r e db. destruct (handle_grows regex_i r e db) as [_ (new & H & F)].
    exists new. split; [done|]. eapply Forall_impl; [exact F|].
    intros d. apply application_written_pending.
Qed.

End Applications.

(** ** Applying for a job *)

Section Apply.

Variable regex_i : string → option (string → bool).

Lemma lookup_id_truthy l id d : lookup_id l id = Some d → dict_truthy d = true.
Proof.
  unfold lookup_id. intros H.
  pose proof (head_filter (λ d, Bson.field_eq d "id" (VStr id)) l) as Hh.
  rewrite H in Hh. destruct Hh as [Hh _]. by apply field_eq_truthy in Hh.
Qed.








Lemma read_only_bind {A B} (m : M A) (f : A → M B) :
  read_only m → (∀ a, read_only (f a)) → read_only (m ≫= f).
Proof.
  intros Hm Hf e db. rewrite bind_eq. specialize (Hm e db).
  destruct (m e db) as [[a| |] db']; cbn in Hm; subst db'; [apply Hf | done | done].
Qed.

Lemma read_only_ret {A} (a : A) : read_only (mret a).
Proof. done. Qed.

Lemma read_only_getitem d k : read_only (getitem d k).
Proof. intros e db. by rewrite getitem_eq. Qed.

Lemma read_only_new m kw : read_only (new m kw).
Proof. intros e db. by rewrite new_eq. Qed.

Lemma read_only_find_one c q : read_only (find_one regex_i c q).
Proof.
  unfold find_one. apply read_only_bind; [|intros l; apply read_only_ret].
  intros e db. rewrite select_eq. by destruct (compile_query regex_i q).
Qed.

Lemma read_only_add_job_details job data : read_only (add_job_details job data).
Proof.
  unfold add_job_details. destruct job as [j|]; [|apply read_only_ret].
  destruct (dict_truthy j); [|apply read_only_ret].
  apply read_only_bind; [apply read_only_getitem|]. intros t.
  apply read_only_bind; [apply read_only_getitem|]. intros c. apply read_only_ret.
Qed.

Lemma read_only_add_applicant_details applicant data :
  read_only (add_applicant_details applicant data).
Proof.
  unfold add_applicant_details. destruct applicant as [u|]; [|apply read_only_ret].
  destruct (dict_truthy u); [|apply read_only_ret].
  apply read_only_bind; [apply read_only_getitem|]. intros n. apply read_only_ret.
Qed.

(** The store after [apply_for_job], whatever the looked-up documents
    hold: nothing is written for a second application, one application is
    appended for a first one, even when the response cannot be built. *)
Lemma apply_for_job_store e a i db :
  (apply_for_job regex_i a i e db).2 =
    if already_applied (ApplicationCreate.job_id a) i db then db
    else set_docs Applications
           (applications db ++ [prepare_for_mongo (application_object e a i)]) db.
Proof.
  unfold apply_for_job, already_applied. rewrite bind_eq, find_one_eq2. cbn [docs].
  rewrite found_head_filter2. destruct (existsb _ _); [done|].
  rewrite bind_eq, new_eq, new_Application, bind_eq. unfold insert_one.
  cbn [docs].
  match goal with |- (?m e ?db').2 = _ => assert (read_only m) as H end.
  { apply read_only_bind; [apply read_only_find_one|]. intros job.
    apply read_only_bind; [apply read_only_find_one|]. intros applicant.
    apply read_only_bind; [apply read_only_add_job_details|]. intros d1.
    apply read_only_bind; [apply read_only_add_applicant_details|]. intros d2.
    apply read_only_new. }
  apply H.
Qed.


Lemma add_job_details_stored job data e db :
  (∀ j, job = Some j → is_Some (j !! "title") ∧ is_Some (j !! "company")) →
  add_job_details job data e db =
  (Ok match job with
      | Some _ => <["company" := enrich job "company"]>
                    (<["job_title" := enrich job "title"]> data)
      | None => data
      end, db).
Proof.
  intros H. unfold add_job_details. destruct job as [j|]; [|done].
  destruct (H j eq_refl) as [[t Ht] [c Hc]].
  destruct (dict_truthy j) eqn:Hj.
  - rewrite bind_eq, getitem_eq, Ht, bind_eq, getitem_eq, Hc. cbn [enrich].
    by rewrite Ht, Hc.
  - unfold dict_truthy in Hj. apply negb_false_iff, bool_decide_eq_true in Hj.
    subst j. by rewrite lookup_empty in Ht.
Qed.

Lemma add_applicant_details_stored applicant data e db :
  (∀ u, applicant = Some u → is_Some (u !! "name")) →
  add_applicant_details applicant data e db =
  (Ok match applicant with
      | Some _ => <["applicant_name" := enrich applicant "name"]> data
      | None => data
      end, db).
Proof.
  intros H. unfold add_applicant_details. destruct applicant as [u|]; [|done].
  destruct (H u eq_refl) as [n Hn].
  destruct (dict_truthy u) eqn:Hu.
  - rewrite bind_eq, getitem_eq, Hn. cbn [enrich]. by rewrite Hn.
  - unfold dict_truthy in Hu. apply negb_false_iff, bool_decide_eq_true in Hu.
    subst u. by rewrite lookup_empty in Hn.
Qed.

Lemma str_or_null_is_Some d k : str_or_null d k → is_Some (d !! k).
Proof. intros [H | [s H]]; rewrite H; by eexists. Qed.

(** [ApplicationResponse] accepts the enriched data when every value added
    to it is a string or null, and answers with those values. *)
Lemma new_ApplicationResponse_enriched e a i (job applicant : option doc) :
  (∀ j, job = Some j → str_or_null j "title" ∧ str_or_null j "company") →
  (∀ u, applicant = Some u → str_or_null u "name") →
  let data :=
    match job with
    | Some _ => <["company" := enrich job "company"]>
                  (<["job_title" := enrich job "title"]> (application_object e a i))
    | None => application_object e a i
    end in
  construct e ApplicationResponse
    match applicant with
    | Some _ => <["applicant_name" := enrich applicant "name"]> data
    | None => data
    end
  = Some (application_response e a i
            (enrich job "title") (enrich job "company") (enrich applicant "name")).
Proof.
  intros Hj Hu.
  destruct job as [j|]; destruct applicant as [u|]; cbn [enrich];
    try (destruct (Hj j eq_refl) as [[Ht | [t Ht]] [Hc | [c Hc]]]; rewrite Ht, Hc);
    try (destruct (Hu u eq_refl) as [Hn | [n Hn]]; rewrite Hn);
    cbv zeta; destruct a as [? [?|]]; by_vm.
Qed.

(** What [apply_for_job] does, when each field it reads of the documents
    it looks up holds a string or null. *)
Lemma apply_for_job_run e a i db :
  let job := lookup_id (jobs db) (ApplicationCreate.job_id a) in
  let applicant := lookup_id (users db) i in
  (∀ j, job = Some j → str_or_null j "title" ∧ str_or_null j "company") →
  (∀ u, applicant = Some u → str_or_null u "name") →
  already_applied (ApplicationCreate.job_id a) i db = false →
  apply_for_job regex_i a i e db =
    (Ok (application_response e a i
           (enrich job "title") (enrich job "company") (enrich applicant "name")),
     mk_store (users db) (jobs db)
       (applications db ++ [prepare_for_mongo (application_object e a i)])).
Proof.
  intros job applicant Hj Hu Hfresh.
  unfold apply_for_job. unfold already_applied in Hfresh.
  rewrite bind_eq, find_one_eq2. cbn [docs].
  rewrite found_head_filter2, Hfresh.
  rewrite bind_eq, new_eq, new_Application, bind_eq. unfold insert_one.
  rewrite bind_eq, find_one_eq1, bind_eq, find_one_eq1.
  cbn [docs set_docs jobs users].
  fold (lookup_id (jobs db) (ApplicationCreate.job_id a)).
  fold (lookup_id (users db) i). fold job applicant.
  rewrite bind_eq, add_job_details_stored;
    [|intros j E; destruct (Hj j E); split; by apply str_or_null_is_Some].
  rewrite bind_eq, add_applicant_details_stored;
    [|intros u E; by apply str_or_null_is_Some, Hu].
  rewrite new_eq.
  by rewrite (new_ApplicationResponse_enriched e a i job applicant Hj Hu).
Qed.

(** C10, as amended.  There is no check of the job or of the applicant:
    in every store, when each of [title] and [company] of the job that is
    looked up (if any) and [name] of the applicant that is looked up (if
    any) holds a string or null, a first application for a job id is
    answered with the response and exactly one application is appended to
    the stored ones, users and jobs staying as they are, whether the id is
    that of no stored job or of a stored job of any status.  [job_title]
    and [company] are omitted when no job is stored under the id and are
    the job's [title] and [company] when one is; [applicant_name] is
    omitted when no user is stored under the applicant id and is the
    user's [name], a string or null, when one is. *)
Theorem apply_for_job_checks_no_job e a i db :
  let job := lookup_id (jobs db) (ApplicationCreate.job_id a) in
  let applicant := lookup_id (users db) i in
  (∀ j, job = Some j → str_or_null j "title" ∧ str_or_null j "company") →
  (∀ u, applicant = Some u → str_or_null u "name") →
  already_applied (ApplicationCreate.job_id a) i db = false →
  ∃ response,
    apply_for_job regex_i a i e db
      = (Ok response,
         mk_store (users db) (jobs db)
           (applications db ++ [prepare_for_mongo (application_object e a i)])) ∧
    response !! "status" = Some (VStr "pending") ∧
    match job with
    | None => omitted response "job_title" ∧ omitted response "company"
    | Some j => response !! "job_title" = j !! "title" ∧
                response !! "company" = j !! "company"
    end ∧
    match applicant with
    | None => omitted response "applicant_name"
    | Some u => response !! "applicant_name" = u !! "name"
    end.
Proof.
  intros job applicant Hj Hu Hfresh.
  rewrite (apply_for_job_run e a i db Hj Hu Hfresh).
  eexists. split; [reflexivity|].
  destruct (application_response_fields e a i
              (enrich job "title") (enrich job "company") (enrich applicant "name"))
    as (R1 & R2 & R3 & R4 & _).
  fold job applicant. fold job in Hj. fold applicant in Hu.
  split; [exact R1|]. split.
  - destruct job as [j|].
    + destruct (Hj j eq_refl) as [Ht Hc].
      apply str_or_null_is_Some in Ht as [t Ht]. apply str_or_null_is_Some in Hc as [c Hc].
      rewrite R2, R3. cbn [enrich]. by rewrite Ht, Hc.
    + unfold omitted. by rewrite R2, R3.
  - destruct applicant as [u|].
    + pose proof (Hu u eq_refl) as Hn. apply str_or_null_is_Some in Hn as [n Hn].
      rewrite R4. cbn [enrich]. by rewrite Hn.
    + unfold omitted. by rewrite R4.
Qed.

End Apply.



(** The witness of C10: Ann, whose name a profile update set to null,
    applies for a job that is not stored. *)
Lemma apply_for_job_checks_no_job_witness :
  Demo.nameless = run Regex.engine Demo.trace_nameless empty_store ∧
  lookup_id (jobs Demo.nameless) "j-404" = None ∧
  lookup_id (users Demo.nameless) "u-1" ≫= (λ d, d !! "name") = Some VNull ∧
  ∃ response,
    apply_for_job Regex.engine DemoNames.apply_unknown "u-1"
      (Demo.clock 3 "a-1") Demo.nameless
      = (Ok response,
         mk_store (users Demo.nameless) (jobs Demo.nameless)
           (applications Demo.nameless ++
              [prepare_for_mongo
                 (application_object (Demo.clock 3 "a-1")
                    DemoNames.apply_unknown "u-1")])) ∧
    response !! "status" = Some (VStr "pending") ∧
    match lookup_id (jobs Demo.nameless) "j-404" with
    | None => omitted response "job_title" ∧ omitted response "company"
    | Some j => response !! "job_title" = j !! "title" ∧
                response !! "company" = j !! "company"
    end ∧
    match lookup_id (users Demo.nameless) "u-1" with
    | None => omitted response "applicant_name"
    | Some u => response !! "applicant_name" = u !! "name"
    end.
Proof.
  assert (lookup_id (jobs Demo.nameless) "j-404" = None) as Hjob by by_vm.
  assert (lookup_id (users Demo.nameless) "u-1" ≫= (λ d, d !! "name") = Some VNull)
    as Hname by by_vm.
  split; [reflexivity|]. split; [exact Hjob|]. split; [exact Hname|].
  apply (apply_for_job_checks_no_job Regex.engine
           (Demo.clock 3 "a-1") DemoNames.apply_unknown "u-1" Demo.nameless).
  - intros j Hj. change (ApplicationCreate.job_id DemoNames.apply_unknown)
      with "j-404" in Hj. rewrite Hjob in Hj. discriminate Hj.
  - intros u Hu. rewrite Hu in Hname. left. exact Hname.
  - by_vm.
Defined.

(** C10 as it is stated fails: after a profile update set Ann's name to a
    list, her first application for a job that is not stored has its
    record stored, but [ApplicationResponse] rejects the list it is given
    for [applicant_name] and the request ends in an uncaught error, not in
    a response. *)
Lemma apply_for_job_listed_name_counterexample :
  DemoNames.listed_name = run Regex.engine DemoNames.trace_listed_name empty_store ∧
  lookup_id (jobs DemoNames.listed_name) "j-404" = None ∧
  already_applied "j-404" "u-1" DemoNames.listed_name = false ∧
  lookup_id (users DemoNames.listed_name) "u-1" ≫= (λ d, d !! "name")
    = Some (VList ["Ann"; "Lee"]) ∧
  apply_for_job Regex.engine DemoNames.apply_unknown "u-1"
    (Demo.clock 3 "a-1") DemoNames.listed_name
    = (Uncaught,
       mk_store (users DemoNames.listed_name) []
         [prepare_for_mongo
            (application_object (Demo.clock 3 "a-1") DemoNames.apply_unknown "u-1")]).
Proof.
  split; [reflexivity|]. split_and!; by_vm.
Qed.

(** ** Dashboard statistics of an employer *)

Section Dashboard.

Variable regex_i : string → option (string → bool).

Lemma to_list_find c q e db :
  to_list regex_i (find c q) e db = select regex_i c q e db.
Proof.
  unfold to_list, find. cbn [c_skip c_limit c_sort c_collection c_query].
  change ((Bson.int64_max <? 0)%Z || (Bson.int64_max <? Z.abs 0)%Z) with false.
  cbv iota. rewrite bind_eq, select_eq.
  by destruct (compile_query regex_i q).
Qed.

Lemma for_each_getitem_id (l : list doc) e db :
  Forall (λ j : doc, is_Some (j !! "id")) l →
  for_each (λ job, getitem job "id") l e db = (Ok (job_ids l), db).
Proof.
  induction 1 as [|j l [v Hv] Hl IH]; [done|].
  cbn [for_each]. rewrite bind_eq, getitem_eq, Hv, bind_eq, IH.
  unfold job_ids. cbn [omap list_omap]. by rewrite Hv.
Qed.

Lemma job_ids_nil (l : list doc) :
  Forall (λ j : doc, is_Some (j !! "id")) l → job_ids l = [] → l = [].
Proof.
  destruct 1 as [|j l [v Hv] Hl]; [done|].
  unfold job_ids. cbn [omap list_omap]. by rewrite Hv.
Qed.

Lemma field_in_job_ids (a : doc) s (l : list doc) :
  a !! "job_id" = Some (VStr s) →
  Bson.field_in a "job_id" (job_ids l)
  = existsb (λ j : doc, bool_decide (is_Some (a !! "job_id") ∧ a !! "job_id" = j !! "id")) l.
Proof.
  intros Ha. unfold Bson.field_in, job_ids.
  induction l as [|j l IH]; [done|].
  cbn [omap list_omap existsb]. rewrite <- IH.
  destruct (j !! "id") as [v|] eqn:Hv; cbn [existsb].
  - f_equal. unfold Bson.field_eq. rewrite Ha.
    apply bool_decide_ext. split.
    + intros <-. split; [by eexists | done].
    + intros [_ [= ->]]. done.
  - rewrite bool_decide_eq_false_2; [done|]. rewrite Ha. by intros [_ ?].
Qed.

Lemma job_written_id d : job_written d → is_Some (d !! "id").
Proof.
  intros (e & j & i & ->). destruct (stored_job_fields e j i) as [H _].
  rewrite H. by eexists.
Qed.

Lemma application_written_job_id d :
  application_written d → ∃ s, d !! "job_id" = Some (VStr s).
Proof.
  intros (e & a & i & ->). destruct (stored_application_fields e a i) as (_ & H & _).
  by eexists.
Qed.

Lemma filter_filter_and {A} (p q : A → bool) (l : list A) :
  List.filter q (List.filter p l) = List.filter (λ x, p x && q x) l.
Proof.
  induction l as [|x l IH]; [done|]. cbn [List.filter].
  destruct (p x); cbn [List.filter andb]; [|exact IH].
  destruct (q x); by rewrite IH.
Qed.

Lemma filter_false {A} (l : list A) : List.filter (λ _, false) l = [].
Proof. induction l as [|x l IH]; [done|]. exact IH. Qed.

Lemma not_job_seeker : String.eqb "employer" "job_seeker" = false.
Proof. reflexivity. Qed.

(** C6. In every store the surface can reach, the dashboard of an
    employer counts the employer's jobs, the active ones among them, and
    the applications whose job id is the id of one of these jobs; with no
    job, the three counts are zero. *)
Theorem employer_dashboard_counts e db employer_id :
  reachable regex_i db →
  get_dashboard_stats regex_i employer_id "employer" e db
  = (Ok {[ "total_jobs" := Z.of_nat (List.length (employer_jobs employer_id db));
           "active_jobs" := Z.of_nat (List.length (active_employer_jobs employer_id db));
           "total_applications" :=
             Z.of_nat (List.length (employer_applications employer_id db)) ]}, db)
  ∧ (employer_jobs employer_id db = [] →
     get_dashboard_stats regex_i employer_id "employer" e db
     = (Ok {[ "total_jobs" := 0%Z; "active_jobs" := 0%Z;
              "total_applications" := 0%Z ]}, db)).
Proof.
  intros Hreach. destruct (reachable_written regex_i db Hreach) as [Hjobs Happs].
  assert (Forall (λ j : doc, is_Some (j !! "id")) (employer_jobs employer_id db)) as Hids.
  { apply Forall_forall. intros j Hj. apply job_written_id.
    apply elem_of_filter_bool in Hj as [Hj _].
    by apply (proj1 (Forall_forall _ _) Hjobs). }
  assert (List.length (active_employer_jobs employer_id db)
          = List.length (List.filter
              (λ d, Bson.field_eq d "employer_id" (VStr employer_id) &&
                    Bson.field_eq d "status" (VStr "active")) (jobs db))) as Hactive.
  { unfold active_employer_jobs, employer_jobs. by rewrite filter_filter_and. }
  assert (get_dashboard_stats regex_i employer_id "employer" e db
    = (Ok {[ "total_jobs" := Z.of_nat (List.length (employer_jobs employer_id db));
             "active_jobs" := Z.of_nat (List.length (active_employer_jobs employer_id db));
             "total_applications" :=
               Z.of_nat (List.length (employer_applications employer_id db)) ]}, db))
    as Hmain.
  { unfold get_dashboard_stats. rewrite not_job_seeker.
    rewrite bind_eq, count_documents_eq1, bind_eq, count_documents_eq2.
    rewrite bind_eq, to_list_find, select_eq1. cbn [docs].
    fold (employer_jobs employer_id db).
    rewrite bind_eq, (for_each_getitem_id _ _ _ Hids), bind_eq.
    rewrite <- Hactive.
    destruct (job_ids (employer_jobs employer_id db)) as [|v ids] eqn:Eids.
    - apply (job_ids_nil _ Hids) in Eids.
      unfold employer_applications, applied_to_employer. rewrite Eids. cbn [existsb].
      rewrite filter_false. reflexivity.
    - rewrite <- Eids. unfold count_documents.
      rewrite bind_eq, select_eq. cbn [compile_query compile mbind option_bind docs].
      assert (List.filter
                (λ d : doc, Bson.field_in d "job_id"
                              (job_ids (employer_jobs employer_id db)) && true)
                (applications db)
              = employer_applications employer_id db) as ->; [|reflexivity].
      unfold employer_applications.
      apply List.filter_ext_in. intros a Ha. rewrite andb_true_r.
      apply list_elem_of_In in Ha.
      destruct (application_written_job_id a
                  (proj1 (Forall_forall _ _) Happs a Ha)) as [s Hs].
      by apply field_in_job_ids with s. }
  split; [exact Hmain|].
  intros Hnone. rewrite Hmain. unfold active_employer_jobs, employer_applications,
    applied_to_employer. rewrite Hnone. cbn [List.filter List.length existsb].
  by rewrite filter_false.
Qed.

End Dashboard.

(** The witness of C6: Bob's dashboard after Ann applied. *)
Lemma employer_dashboard_counts_witness :
  get_dashboard_stats Regex.engine "u-2" "employer" (Demo.clock 9 "-") Demo.applied
  = (Ok {[ "total_jobs" := 1%Z; "active_jobs" := 1%Z; "total_applications" := 1%Z ]},
     Demo.applied).
Proof.
  destruct (employer_dashboard_counts Regex.engine (Demo.clock 9 "-") Demo.applied "u-2")
    as [H _].
  - exists Demo.trace_applied. reflexivity.
  - rewrite H. by_vm.
Defined.

(** ** Listing jobs *)

Lemma insert_desc_perm k x l : Bson.insert_desc k x l ≡ₚ x :: l.
Proof.
  induction l as [|y l IH]; cbn [Bson.insert_desc]; [done|].
  destruct (Bson.key_lt _ _); [|done]. rewrite IH. apply Permutation_swap.
Qed.

Lemma sort_desc_perm k l : Bson.sort_desc k l ≡ₚ l.
Proof.
  unfold Bson.sort_desc. induction l as [|x l IH]; cbn [foldr]; [done|].
  by rewrite insert_desc_perm, IH.
Qed.

Lemma elem_of_page s n (l : list doc) x : x ∈ page s n l → x ∈ l.
Proof.
  unfold page. destruct (n =? 0)%Z; [apply subseteq_drop|].
  destruct (n <? 0)%Z; intros H; by apply subseteq_take, subseteq_drop in H.
Qed.

Lemma mapM_elem {A B} (f : A → option B) l rs r :
  mapM f l = Some rs → r ∈ rs → ∃ x, x ∈ l ∧ f x = Some r.
Proof.
  intros H%mapM_Some_1. induction H as [|x y l rs Hxy H IH]; intros Hr.
  - by apply elem_of_nil in Hr.
  - apply elem_of_cons in Hr as [->|Hr].
    + exists x. split; [left | done].
    + destruct (IH Hr) as (x' & Hx' & Hf). exists x'. split; [by right | done].
Qed.

Lemma for_each_new_eq m l e db :
  for_each (new m) l e db
  = (match mapM (construct e m) l with Some rs => Ok rs | None => Uncaught end, db).
Proof.
  induction l as [|x l IH]; [done|].
  cbn [for_each]. rewrite bind_eq, new_eq.
  change (mapM (construct e m) (x :: l))
    with (y ← construct e m x; k ← mapM (construct e m) l; mret (y :: k)).
  destruct (construct e m x) as [y|]; [|done].
  rewrite bind_eq, IH. by destruct (mapM (construct e m) l).
Qed.

Lemma truthy_ne s : Str.truthy s = true ↔ s ≠ "".
Proof. destruct s; cbn; split; congruence. Qed.

Section Listing.

Variable regex_i : string → option (string → bool).

Lemma compile_query_elem q p c :
  compile_query regex_i q = Some p → c ∈ q →
  ∃ f, compile regex_i c = Some f ∧ ∀ d, p d = true → f d = true.
Proof.
  revert p. induction q as [|c' q IH]; intros p Hp Hc; [by apply elem_of_nil in Hc|].
  cbn [compile_query] in Hp.
  destruct (compile regex_i c') as [f|] eqn:Hf; [|done].
  destruct (compile_query regex_i q) as [g|] eqn:Hg; [|done].
  cbn in Hp. injection Hp as <-.
  apply elem_of_cons in Hc as [->|Hc].
  - exists f. split; [done|]. intros d Hd. by apply andb_true_iff in Hd as [? _].
  - destruct (IH g eq_refl Hc) as (h & Hh & Hgh). exists h. split; [done|].
    intros d Hd. apply andb_true_iff in Hd as [_ ?]. by apply Hgh.
Qed.

(** What [get_jobs] computes. *)
Lemma get_jobs_eq e db skip_ limit_ search location job_type :
  get_jobs regex_i skip_ limit_ search location job_type e db =
  if (skip_ <? 0)%Z then (Uncaught, db)
  else if (Bson.int64_max <? skip_)%Z || (Bson.int64_max <? Z.abs limit_)%Z
  then (Uncaught, db)
  else match compile_query regex_i (jobs_query search location job_type) with
       | None => (Uncaught, db)
       | Some p =>
           (match mapM (construct e JobResponse)
                    (parse_from_mongo <$>
                       page skip_ limit_
                         (Bson.sort_desc "posted_at" (List.filter p (jobs db)))) with
            | Some rs => Ok rs
            | None => Uncaught
            end, db)
       end.
Proof.
  unfold get_jobs, skip. rewrite bind_eq.
  destruct (skip_ <? 0)%Z; [done|].
  cbn [mret M_ret]. rewrite bind_eq. unfold to_list, sort_desc, limit, find.
  cbn [c_skip c_limit c_sort c_collection c_query].
  destruct (_ || _); [done|].
  rewrite bind_eq, select_eq.
  destruct (compile_query regex_i _) as [p|]; [|done].
  cbn [mret M_ret docs]. apply for_each_new_eq.
Qed.

(** C2, as amended.  Every job of a returned page has status active; and
    when a job type is given and is not the empty string, every job of the
    page has exactly that job type.  Listing changes nothing. *)
Theorem get_jobs_active_and_of_type e db skip_ limit_ search location job_type
    (listed : list doc) (db' : store) :
  get_jobs regex_i skip_ limit_ search location job_type e db = (Ok listed, db') →
  db' = db ∧
  ∀ r, r ∈ listed →
    r !! "status" = Some (VStr "active") ∧
    ∀ t, job_type = Some t → t ≠ "" → r !! "job_type" = Some (VStr t).
Proof.
  rewrite get_jobs_eq. intros H.
  destruct (skip_ <? 0)%Z; [done|]. destruct (_ || _); [done|].
  destruct (compile_query regex_i _) as [p|] eqn:Hp; [|done].
  destruct (mapM _ _) as [rs|] eqn:Hrs; [|done].
  injection H as -> ->. split; [done|]. intros r Hr.
  destruct (mapM_elem _ _ _ _ Hrs Hr) as (d' & Hd' & Hc).
  apply list_elem_of_fmap in Hd' as (d & -> & Hd).
  apply elem_of_page in Hd. rewrite sort_desc_perm in Hd.
  apply elem_of_filter_bool in Hd as [_ Hpd].
  split.
  - destruct (compile_query_elem _ p (QEq "status" (VStr "active")) Hp)
      as (f & Hf & Hpf); [unfold jobs_query; set_solver|].
    cbn in Hf. injection Hf as <-. specialize (Hpf d Hpd).
    destruct (construct_str _ _ _ _ "status" NoDup_JobResponse Hc) as (s & Hs & ->);
      [apply list_elem_of_In; cbn; tauto|].
    unfold parse_from_mongo in Hs. rewrite lookup_fmap in Hs.
    apply field_eq_true in Hpf as [Hd|[l Hd]]; rewrite Hd in Hs; cbn in Hs.
    + by injection Hs as <-.
    + discriminate Hs.
  - intros t -> Ht%truthy_ne.
    destruct (compile_query_elem _ p (QEq "job_type" (VStr t)) Hp)
      as (f & Hf & Hpf).
    { unfold jobs_query. rewrite Ht. set_solver. }
    cbn in Hf. injection Hf as <-. specialize (Hpf d Hpd).
    destruct (construct_str _ _ _ _ "job_type" NoDup_JobResponse Hc) as (s & Hs & ->);
      [apply list_elem_of_In; cbn; tauto|].
    unfold parse_from_mongo in Hs. rewrite lookup_fmap in Hs.
    apply field_eq_true in Hpf as [Hd|[l Hd]]; rewrite Hd in Hs; cbn [fmap option_fmap option_map] in Hs.
    + injection Hs as Hs. apply (parse_value_is_str (VStr t)) in Hs.
      by injection Hs as <-.
    + discriminate Hs.
Qed.

End Listing.

(** The witness of C2: the full-time jobs after Bob posted one. *)
Lemma get_jobs_active_and_of_type_witness :
  get_jobs Regex.engine 0 20 None None (Some "full-time") (Demo.clock 9 "-") Demo.posted
    = (Ok [DemoViews.welder_view], Demo.posted) ∧
  DemoViews.welder_view !! "status" = Some (VStr "active") ∧
  DemoViews.welder_view !! "job_type" = Some (VStr "full-time").
Proof.
  assert (get_jobs Regex.engine 0 20 None None (Some "full-time")
            (Demo.clock 9 "-") Demo.posted
          = (Ok [DemoViews.welder_view], Demo.posted)) as H by by_vm.
  split; [exact H|].
  destruct (get_jobs_active_and_of_type Regex.engine _ _ _ _ _ _ _ _ _ H) as [_ Hall].
  destruct (Hall DemoViews.welder_view) as [Hs Ht]; [by left|].
  split; [exact Hs|]. by apply Ht.
Defined.

(** C2 as it is stated fails for the empty job type: it is given, no
    filter is applied, and the page holds a full-time job. *)
Lemma get_jobs_empty_type_counterexample :
  get_jobs Regex.engine 0 20 None None (Some "") (Demo.clock 9 "-") Demo.posted
    = (Ok [DemoViews.welder_view], Demo.posted) ∧
  DemoViews.welder_view !! "job_type" = Some (VStr "full-time") ∧
  DemoViews.welder_view !! "job_type" ≠ Some (VStr "").
Proof.
  assert (DemoViews.welder_view !! "job_type" = Some (VStr "full-time")) as E by by_vm.
  split; [by_vm|]. split; [exact E|]. rewrite E. discriminate.
Qed.

(** ** The search of a listing *)

Module RegexFacts.

Lemma is_meta_dot c : Regex.is_meta c = false → Ascii.eqb c "." = false.
Proof.
  unfold Regex.is_meta, Regex.metachars. cbn [existsb]. intros H.
  repeat (apply orb_false_iff in H as [? H]). assumption.
Qed.

Lemma literal_supported p : Regex.literal p = true → Regex.supported p = true.
Proof.
  induction p as [|c p IH]; [done|]. cbn [Regex.literal Regex.supported].
  intros [Hc Hp]%andb_true_iff. rewrite Hc, (IH Hp). done.
Qed.

Lemma match_here_literal p s :
  Regex.literal p = true →
  Regex.match_here p s = Str.starts_with (Str.lower p) (Str.lower s).
Proof.
  revert s. induction p as [|c p IH]; intros s Hp; [by destruct s|].
  cbn [Regex.literal] in Hp. apply andb_true_iff in Hp as [Hc Hp].
  apply negb_true_iff, is_meta_dot in Hc.
  destruct s as [|b s]; [done|].
  cbn [Regex.match_here Str.lower Str.starts_with]. unfold Regex.match_char.
  rewrite Hc, (IH s Hp). by destruct (Ascii.eqb _ _).
Qed.

Lemma search_literal p s :
  Regex.literal p = true → Regex.search p s = Str.is_substring_ci p s.
Proof.
  intros Hp. unfold Str.is_substring_ci.
  induction s as [|b s IH].
  - cbn [Regex.search Str.lower Str.is_substring]. by rewrite match_here_literal.
  - cbn [Regex.search Str.lower Str.is_substring].
    by rewrite match_here_literal, IH.
Qed.

(** The engine used for evaluation is one that searches plain patterns
    as they are written. *)
Lemma engine_searches_plain_patterns : searches_plain_patterns Regex.engine.
Proof.
  intros p [Hp _]%andb_true_iff. exists (Regex.search p). split.
  - unfold Regex.engine. by rewrite (literal_supported p Hp).
  - intros s _. by apply search_literal.
Qed.

End RegexFacts.

Lemma string_eqb_decide (s t : string) : bool_decide (s = t) = String.eqb s t.
Proof.
  destruct (String.eqb_spec s t) as [->|Hne].
  - by apply bool_decide_eq_true.
  - by apply bool_decide_eq_false.
Qed.

Section Search.

Variable regex_i : string → option (string → bool).

Lemma compiles_nil : compiles regex_i [] (λ _, true).
Proof. by eexists. Qed.

Lemma compiles_cons c q f g P Q :
  compile regex_i c = Some f → (∀ d, f d = P d) → compiles regex_i q Q →
  (∀ d, g d = P d && Q d) → compiles regex_i (c :: q) g.
Proof.
  intros Hc Hf (p & Hp & Hq) Hg. eexists. cbn [compile_query].
  rewrite Hc, Hp. split; [reflexivity|]. intros d. cbn beta. by rewrite Hg, Hf, Hq.
Qed.

Lemma compiles_ext q P Q :
  compiles regex_i q P → (∀ d, P d = Q d) → compiles regex_i q Q.
Proof. intros (p & Hp & H) HPQ. exists p. split; [done|]. intros d. by rewrite H. Qed.

Lemma compile_search m s :
  regex_i s = Some m →
  compile regex_i (QOr [QRegex "title" s; QRegex "company" s; QRegex "description" s])
  = Some (λ d, Bson.field_regex m d "title"
               || (Bson.field_regex m d "company"
                   || (Bson.field_regex m d "description" || false))).
Proof. intros H. cbn [compile]. rewrite H. reflexivity. Qed.

Lemma field_regex_ext (m m' : string → bool) d k :
  (∀ s, m s = m' s) → Bson.field_regex m d k = Bson.field_regex m' d k.
Proof.
  intros H. unfold Bson.field_regex. destruct (d !! k) as [[| s | l | t]|]; try done.
  by apply existsb_ext.
Qed.

(** The query of a listing compiles, and to [listing_filter], when the
    engine accepts the search and the location. *)
Lemma jobs_query_compiles ms ml search location job_type :
  (∀ s, search = Some s → regex_i s = Some ms) →
  (∀ l, location = Some l → regex_i l = Some ml) →
  compiles regex_i (jobs_query search location job_type)
           (listing_filter ms ml search location job_type).
Proof.
  intros Hs Hl. unfold jobs_query, listing_filter.
  cbn [app]. eapply compiles_cons; [reflexivity | done | | done].
  assert (compiles regex_i
            match job_type with
            | Some t => if Str.truthy t then [QEq "job_type" (VStr t)] else []
            | None => []
            end
            (λ d, match job_type with
                  | Some t =>
                      if Str.truthy t then Bson.field_eq d "job_type" (VStr t) else true
                  | None => true
                  end)) as HT.
  { destruct job_type as [t|]; [|apply compiles_nil].
    destruct (Str.truthy t); [|apply compiles_nil].
    eapply compiles_cons; [reflexivity | done | apply compiles_nil |].
    intros d. by rewrite andb_true_r. }
  assert (compiles regex_i
            (match location with
             | Some l => if Str.truthy l then [QRegex "location" l] else []
             | None => []
             end ++
             match job_type with
             | Some t => if Str.truthy t then [QEq "job_type" (VStr t)] else []
             | None => []
             end)
            (λ d, match location with
                  | Some l =>
                      if Str.truthy l then Bson.field_regex ml d "location" else true
                  | None => true
                  end &&
                  match job_type with
                  | Some t =>
                      if Str.truthy t then Bson.field_eq d "job_type" (VStr t) else true
                  | None => true
                  end)) as HL.
  { destruct location as [l|]; [|by eapply compiles_ext; [exact HT|]].
    destruct (Str.truthy l); [|by eapply compiles_ext; [exact HT|]].
    cbn [app]. eapply compiles_cons; [| | exact HT | done].
    - cbn [compile]. rewrite (Hl l eq_refl). reflexivity.
    - done. }
  destruct search as [s|]; [|by eapply compiles_ext; [exact HL|]].
  destruct (Str.truthy s); [|by eapply compiles_ext; [exact HL|]].
  cbn [app].
  eapply compiles_cons; [apply (compile_search ms s (Hs s eq_refl)) | | exact HL | done].
  intros d. cbn [existsb]. done.
Qed.

(** The search the engine makes of a plain pattern. *)
Lemma plain_matcher o :
  searches_plain_patterns regex_i → plain_opt o = true →
  ∃ m, ∀ s, o = Some s →
    regex_i s = Some m ∧ ∀ x, ascii_text x = true → m x = Str.is_substring_ci s x.
Proof.
  intros Heng Ho. destruct o as [s|].
  - destruct (Heng s Ho) as (m & Hm & Hms). exists m. by intros ? [= <-].
  - exists (λ _, true). by intros ? [=].
Qed.

(** C5, as amended.  For an engine that searches a plain pattern (ASCII
    characters other than NUL, none of them special in a regular
    expression) in ASCII text as it is written, ignoring the case of the
    letters, and a search and a location that are plain patterns: the
    query of a listing is accepted, and its filter matches a job whose
    title, company, description and location are ASCII text without NUL
    exactly when the job is active, the search occurs, ignoring case, in
    its title, its company or its description, the location occurs,
    ignoring case, in its location, and its job type is the one asked
    for. *)
Theorem jobs_query_matches_substrings search location job_type :
  searches_plain_patterns regex_i →
  plain_opt search = true → plain_opt location = true →
  ∃ p, compile_query regex_i (jobs_query search location job_type) = Some p ∧
    ∀ job title company description loc t,
      job !! "title" = Some (VStr title) →
      job !! "company" = Some (VStr company) →
      job !! "description" = Some (VStr description) →
      job !! "location" = Some (VStr loc) →
      job !! "job_type" = Some (VStr t) →
      ascii_text title = true → ascii_text company = true →
      ascii_text description = true → ascii_text loc = true →
      p job = Bson.field_eq job "status" (VStr "active")
              && (search_matches search title company description
                  && (location_matches location loc && job_type_matches job_type t)).
Proof.
  intros Heng Hs Hl.
  destruct (plain_matcher search Heng Hs) as (ms & Hms).
  destruct (plain_matcher location Heng Hl) as (ml & Hml).
  destruct (jobs_query_compiles ms ml search location job_type) as (p & Hp & Hpd).
  { intros s E. by destruct (Hms s E). }
  { intros l E. by destruct (Hml l E). }
  exists p. split; [exact Hp|].
  intros job title company description loc t Ht Hc Hd Hloc Hty At Ac Ad Al.
  rewrite Hpd. unfold listing_filter, search_matches, location_matches, job_type_matches.
  f_equal. f_equal; [|f_equal].
  - destruct search as [s|]; [|done]. destruct (Str.truthy s); [|done].
    destruct (Hms s eq_refl) as [_ Hm].
    cbn [existsb]. unfold Bson.field_regex. rewrite Ht, Hc, Hd.
    rewrite (Hm _ At), (Hm _ Ac), (Hm _ Ad).
    by rewrite orb_false_r, orb_assoc.
  - destruct location as [l|]; [|done]. destruct (Str.truthy l); [|done].
    destruct (Hml l eq_refl) as [_ Hm].
    unfold Bson.field_regex. by rewrite Hloc, (Hm _ Al).
  - destruct job_type as [t'|]; [|done]. destruct (Str.truthy t'); [|done].
    rewrite (field_eq_str _ _ _ _ Hty). apply string_eqb_decide.
Qed.

End Search.

(** The witness of C5: searching [weld] in [PAR]. *)
Lemma jobs_query_matches_substrings_witness :
  ∃ p, compile_query Regex.engine (jobs_query (Some "weld") (Some "PAR") None) = Some p ∧
    ∀ job title company description loc t,
      job !! "title" = Some (VStr title) →
      job !! "company" = Some (VStr company) →
      job !! "description" = Some (VStr description) →
      job !! "location" = Some (VStr loc) →
      job !! "job_type" = Some (VStr t) →
      ascii_text title = true → ascii_text company = true →
      ascii_text description = true → ascii_text loc = true →
      p job = Bson.field_eq job "status" (VStr "active")
              && (search_matches (Some "weld") title company description
                  && (location_matches (Some "PAR") loc && job_type_matches None t)).
Proof.
  apply (jobs_query_matches_substrings Regex.engine (Some "weld") (Some "PAR") None).
  - exact RegexFacts.engine_searches_plain_patterns.
  - reflexivity.
  - reflexivity.
Defined.

(** C5 as it is stated fails for a search with a special character: the
    job titled [abc] is listed for the search [a.c], which occurs in none
    of its title, company and description. *)
Lemma get_jobs_regex_counterexample :
  get_jobs Regex.engine 0 20 (Some "a.c") None None (Demo.clock 9 "-") DemoViews.abc_posted
    = (Ok [DemoViews.abc_view], DemoViews.abc_posted) ∧
  DemoViews.abc_view !! "title" = Some (VStr "abc") ∧
  DemoViews.abc_view !! "company" = Some (VStr "Acme") ∧
  DemoViews.abc_view !! "description" = Some (VStr "Spells letters") ∧
  search_matches (Some "a.c") "abc" "Acme" "Spells letters" = false.
Proof. split_and!; by_vm. Qed.

(** ** Reading back what was written *)

(** Reading a stored document back turns every string that holds a [T]
    and reads as a timestamp into a [datetime], whatever field it is in. *)
Lemma parse_value_dated :
  parse_value (VStr "2024-01-01T00:00:00") = VDate (mk_datetime 2024 1 1 0 0 0 0 None).
Proof. by_vm. Qed.

(** A string without [T] is read back as it is. *)
Lemma parse_from_mongo_no_T (d : doc) k s :
  d !! k = Some (VStr s) → Str.contains_char "T" s = false →
  parse_from_mongo d !! k = Some (VStr s).
Proof.
  intros Hd Hs. unfold parse_from_mongo. rewrite lookup_fmap, Hd. cbn.
  by rewrite Hs.
Qed.

(** The welder job is read back as it was created. *)
Lemma create_then_get_welder :
  create_job Demo.welder "u-2" (Demo.clock 2 "j-1")
    (run Regex.engine [(Demo.clock 0 "u-1", Register Demo.ann);
                       (Demo.clock 1 "u-2", Register Demo.bob)] empty_store)
    = (Ok DemoViews.welder_view, Demo.posted) ∧
  get_job Regex.engine "j-1" (Demo.clock 9 "-") Demo.posted
    = (Ok DemoViews.welder_view, Demo.posted).
Proof. split; by_vm. Qed.

(** C4 fails on the code.  A job whose title reads as a timestamp is
    created, and the response has the title as it was sent; fetching the
    job by the id of the response ends in an exception nobody catches,
    since the title read back is a [datetime] and [JobResponse] wants a
    string. *)
Theorem create_then_get_dated_title :
  JobCreate.title Demo.dated_job = "2024-01-01T00:00:00" ∧
  create_job Demo.dated_job "u-2" DemoDated.job_env empty_store
    = (Ok DemoDated.job_view, DemoDated.job_posted) ∧
  DemoDated.job_view !! "id" = Some (VStr "j-1") ∧
  DemoDated.job_view !! "title" = Some (VStr "2024-01-01T00:00:00") ∧
  (lookup_id (jobs DemoDated.job_posted) "j-1" ≫= λ d, parse_from_mongo d !! "title")
    = Some (VDate (mk_datetime 2024 1 1 0 0 0 0 None)) ∧
  get_job Regex.engine "j-1" (Demo.clock 9 "-") DemoDated.job_posted
    = (Uncaught, DemoDated.job_posted).
Proof. split_and!; by_vm. Qed.

(** ** Login *)

Section LoginFacts.

Variable regex_i : string → option (string → bool).

(** Login answers 401 exactly when no stored user carries the email and
    the password. *)
Lemma login_user_unauthorized e l db :
  login_user regex_i l e db = (HTTPException 401 "Invalid credentials", db)
  ↔ credentials_match (UserLogin.email l) (UserLogin.password l) db = false.
Proof.
  unfold login_user, credentials_match.
  rewrite bind_eq, find_one_eq2. cbn [docs]. rewrite bind_eq.
  rewrite (or_raise_eq2 "email" (UserLogin.email l) "password" (UserLogin.password l)).
  pose proof (head_filter
    (λ d, Bson.field_eq d "email" (VStr (UserLogin.email l)) &&
          Bson.field_eq d "password" (VStr (UserLogin.password l))) (users db)) as H.
  destruct (head _) as [u|].
  - destruct H as [_ H]. rewrite H, new_eq.
    split; [|done]. by destruct (construct _ _ _).
  - by rewrite H.
Qed.

End LoginFacts.

(** Ann logs in and gets the id her registration returned. *)
Lemma login_after_register_ann :
  register_user Regex.engine Demo.ann (Demo.clock 0 "u-1") empty_store
    = (Ok Demo.ann_view,
       run Regex.engine [(Demo.clock 0 "u-1", Register Demo.ann)] empty_store) ∧
  login_user Regex.engine (UserLogin.mk "ann@example.com" "s3cret")
             (Demo.clock 9 "-") Demo.posted
    = (Ok Demo.ann_view, Demo.posted) ∧
  login_user Regex.engine (UserLogin.mk "ann@example.com" "wrong")
             (Demo.clock 9 "-") Demo.posted
    = (HTTPException 401 "Invalid credentials", Demo.posted).
Proof. split_and!; by_vm. Qed.

(** C7 fails on the code.  A user whose name reads as a timestamp
    registers; a stored user then carries the email and the password, and
    the login with them ends in an exception nobody catches, neither in
    the public view nor in status 401. *)
Theorem login_dated_name :
  UserCreate.name Demo.dated_user = "2024-01-01T00:00:00" ∧
  register_user Regex.engine Demo.dated_user DemoDated.user_env empty_store
    = (Ok DemoDated.user_view, DemoDated.user_registered) ∧
  DemoDated.user_view !! "id" = Some (VStr "u-9") ∧
  credentials_match "eve@example.com" "pa55" DemoDated.user_registered = true ∧
  (lookup_id (users DemoDated.user_registered) "u-9" ≫= λ d, parse_from_mongo d !! "name")
    = Some (VDate (mk_datetime 2024 1 1 0 0 0 0 None)) ∧
  login_user Regex.engine (UserLogin.mk "eve@example.com" "pa55")
             (Demo.clock 9 "-") DemoDated.user_registered
    = (Uncaught, DemoDated.user_registered).
Proof. split_and!; by_vm. Qed.

(** ** When reading back is the identity *)

(** A string that holds no [T] is read back as it is stored. *)
Lemma reads_back_parse s : reads_back s → parse_value (VStr s) = VStr s.
Proof. apply parse_value_no_T. Qed.

Lemma prepare_list_to_map (l : list (string * value)) :
  prepare_for_mongo (list_to_map l) = list_to_map (prod_map id prepare_value <$> l).
Proof. unfold prepare_for_mongo. by rewrite list_to_map_fmap. Qed.

Lemma parse_list_to_map (l : list (string * value)) :
  parse_from_mongo (list_to_map l) = list_to_map (prod_map id parse_value <$> l).
Proof. unfold parse_from_mongo. by rewrite list_to_map_fmap. Qed.

(** A stored job is read back as the object that was stored. *)
Lemma read_back_job e j employer_id :
  utc_clock e → job_reads_back (uuid4 e) employer_id j →
  parse_from_mongo (prepare_for_mongo (job_object e j employer_id))
  = job_object e j employer_id.
Proof.
  intros [Hv Ho] (H1 & H2 & H3 & H4 & H5 & H6 & H7 & H8).
  unfold job_object. rewrite prepare_list_to_map.
  cbn [fmap list_fmap prod_map id fst snd prepare_value].
  assert (prepare_value (opt_str (JobCreate.salary_range j))
          = opt_str (JobCreate.salary_range j)) as -> by by destruct (JobCreate.salary_range j).
  rewrite parse_list_to_map. cbn [fmap list_fmap prod_map id fst snd].
  rewrite !reads_back_parse by assumption.
  rewrite (IsoFacts.parse_value_isoformat _ Hv Ho).
  assert (parse_value (opt_str (JobCreate.salary_range j))
          = opt_str (JobCreate.salary_range j)) as ->.
  { destruct (JobCreate.salary_range j); [exact (reads_back_parse _ H7) | done]. }
  reflexivity.
Qed.

(** A stored user is read back as the object that was stored. *)
Lemma read_back_user e u :
  utc_clock e → user_reads_back (uuid4 e) u →
  parse_from_mongo (prepare_for_mongo (user_object e u)) = user_object e u.
Proof.
  intros [Hv Ho] (H1 & H2 & H3 & H4 & H5).
  unfold user_object. rewrite prepare_list_to_map.
  cbn [fmap list_fmap prod_map id fst snd prepare_value].
  rewrite parse_list_to_map. cbn [fmap list_fmap prod_map id fst snd].
  rewrite !reads_back_parse by assumption.
  rewrite (IsoFacts.parse_value_isoformat _ Hv Ho).
  reflexivity.
Qed.

Lemma filter_app_fresh (p : doc → bool) (l : list doc) d :
  existsb p l = false → p d = true → List.filter p (l ++ [d]) = [d].
Proof.
  intros Hl Hd. rewrite List.filter_app. cbn [List.filter]. rewrite Hd.
  replace (List.filter p l) with (@nil doc); [done|].
  clear Hd. induction l as [|x l IH]; [done|].
  cbn in Hl. apply orb_false_iff in Hl as [Hx Hl]. cbn [List.filter].
  rewrite Hx. by apply IH.
Qed.

Section RoundTrip.

Variable regex_i : string → option (string → bool).

(** X10.  When the clock is a valid UTC time, the generated id is that of no
    stored job and none of the generated id, the employer id and the
    strings of the posting (title, company, location, job type, salary
    range, description) holds the letter [T], the job fetched by the id of
    the creation response is that response: every submitted field comes
    back unchanged. *)
Lemma get_job_after_create_job e e' j employer_id db :
  utc_clock e → job_reads_back (uuid4 e) employer_id j →
  existsb (λ d, Bson.field_eq d "id" (VStr (uuid4 e))) (jobs db) = false →
  let created := create_job j employer_id e db in
  created.1 = Ok (delete "expires_at" (job_object e j employer_id)) ∧
  get_job regex_i (uuid4 e) e' created.2
    = (Ok (delete "expires_at" (job_object e j employer_id)), created.2).
Proof.
  intros Hclock Hback Hfresh created.
  assert (created = (Ok (delete "expires_at" (job_object e j employer_id)),
                     set_docs Jobs (jobs db ++
                       [prepare_for_mongo (job_object e j employer_id)]) db)) as ->.
  { unfold created, create_job. rewrite bind_eq, new_eq, new_Job, bind_eq.
    unfold insert_one. by rewrite new_eq, new_JobResponse. }
  split; [done|]. cbn [fst snd].
  unfold get_job. rewrite bind_eq, find_one_eq1. cbn [docs set_docs jobs].
  rewrite filter_app_fresh; [|exact Hfresh|].
  - cbn [head]. rewrite bind_eq.
    unfold or_raise.
    rewrite (field_eq_truthy _ "id" (uuid4 e)).
    + cbn [mret M_ret]. rewrite (read_back_job e j employer_id Hclock Hback).
      rewrite new_eq. (* the environment of the fetch plays no part *)
      replace (construct e' JobResponse (job_object e j employer_id))
        with (construct e JobResponse (job_object e j employer_id)).
      * by rewrite new_JobResponse.
      * destruct j as [? ? ? ? [?|] ? ? ?]; by_vm.
    + destruct (stored_job_fields e j employer_id) as [H _].
      rewrite (field_eq_str _ _ _ _ H). by apply bool_decide_eq_true.
  - destruct (stored_job_fields e j employer_id) as [H _].
    rewrite (field_eq_str _ _ _ _ H). by apply bool_decide_eq_true.
Qed.

(** X11.  When the clock is a valid UTC time, the email is new and none of
    the generated id and the strings of the registration (email, password,
    name, user type) holds the letter [T], the login with the registered
    email and password returns the public view the registration returned,
    with the same id. *)
Lemma login_after_register e e' u db :
  utc_clock e → user_reads_back (uuid4 e) u →
  email_taken (UserCreate.email u) db = false →
  let registered := register_user regex_i u e db in
  registered.1 = Ok (delete "resume" (delete "password" (user_object e u))) ∧
  login_user regex_i (UserLogin.mk (UserCreate.email u) (UserCreate.password u))
             e' registered.2
    = (Ok (delete "resume" (delete "password" (user_object e u))), registered.2).
Proof.
  intros Hclock Hback Hnew registered.
  pose proof (register_user_eq regex_i e u db) as Hreg. fold registered in Hreg.
  rewrite Hnew in Hreg. rewrite Hreg. split; [done|]. cbn [fst snd].
  unfold login_user. rewrite bind_eq, find_one_eq2.
  cbn [docs set_docs users UserLogin.email UserLogin.password].
  destruct (stored_user_fields e u) as (_ & _ & He & Hp).
  rewrite filter_app_fresh.
  - cbn [head]. rewrite bind_eq. unfold or_raise.
    rewrite (field_eq_truthy _ "email" (UserCreate.email u)).
    + cbn [mret M_ret]. rewrite (read_back_user e u Hclock Hback), new_eq.
      replace (construct e' UserResponse (user_object e u))
        with (construct e UserResponse (user_object e u)) by by_vm.
      by rewrite new_UserResponse.
    + rewrite (field_eq_str _ _ _ _ He). by apply bool_decide_eq_true.
  - unfold email_taken in Hnew. clear -Hnew.
    induction (users db) as [|x l IH]; [done|]. cbn in *.
    apply orb_false_iff in Hnew as [-> Hl]. cbn. by apply IH.
  - rewrite (field_eq_str _ _ _ _ He), (field_eq_str _ _ _ _ Hp).
    by rewrite !bool_decide_eq_true_2.
Qed.

End RoundTrip.

(** ** The serialisation helpers *)

Lemma append_cons a s t : String a s +:+ t = String a (s +:+ t).
Proof. reflexivity. Qed.

Lemma append_assoc s t u : (s +:+ t) +:+ u = s +:+ (t +:+ u).
Proof. induction s as [|a s IH]; [done|]. by rewrite !append_cons, IH. Qed.

Lemma append_empty_r s : s +:+ "" = s.
Proof. induction s as [|a s IH]; [done|]. by rewrite append_cons, IH. Qed.

Lemma replace_char_append c b s t :
  Str.replace_char c b (s +:+ t) = Str.replace_char c b s +:+ Str.replace_char c b t.
Proof.
  induction s as [|a s IH]; [done|]. rewrite append_cons. cbn [Str.replace_char].
  destruct (Ascii.eqb c a); rewrite IH; [by rewrite append_assoc|done].
Qed.

Lemma isoformat_naive_no_Z d :
  utcoffset d = None → Str.contains_char "Z" (Iso.isoformat d) = false.
Proof.
  intros Ho. unfold Iso.isoformat. rewrite Ho.
  change (Iso.format_offset None) with "".
  rewrite !IsoFacts.contains_char_append, !(IsoFacts.contains_char_pad "Z")
    by apply IsoFacts.digit_not_Z.
  destruct (microsecond d =? 0)%Z; [reflexivity|].
  rewrite !IsoFacts.contains_char_append, !(IsoFacts.contains_char_pad "Z")
    by apply IsoFacts.digit_not_Z.
  reflexivity.
Qed.

Lemma isoformat_in_utc d :
  utcoffset d = None → Iso.isoformat d +:+ "+00:00" = Iso.isoformat (in_utc d).
Proof.
  intros Ho. unfold Iso.isoformat, in_utc. rewrite Ho.
  cbn [year month day hour minute second microsecond utcoffset].
  change (Iso.format_offset None) with "".
  change (Iso.format_offset (Some 0%Z)) with "+00:00".
  rewrite append_empty_r. by rewrite !append_assoc.
Qed.

Lemma valid_in_utc d : utcoffset d = None → Iso.valid (in_utc d) = Iso.valid d.
Proof.
  intros Ho. unfold Iso.valid, in_utc. rewrite Ho.
  cbn [year month day hour minute second microsecond utcoffset].
  by rewrite !andb_true_r.
Qed.

(** X1.  A document whose times are valid times in UTC and none of whose
    strings holds the letter [T] is read back from the store as it was
    before [prepare_for_mongo]. *)
Theorem parse_after_prepare (d : doc) :
  map_Forall (λ _ v, value_reads_back v) d →
  parse_from_mongo (prepare_for_mongo d) = d.
Proof.
  intros Hd. apply map_eq. intros k.
  unfold parse_from_mongo, prepare_for_mongo. rewrite !lookup_fmap.
  destruct (d !! k) as [v|] eqn:Hk; [|done]. cbn [fmap option_fmap option_map].
  f_equal. specialize (Hd k v Hk). cbn beta in Hd.
  destruct v as [|s|l|t]; [done|exact (reads_back_parse s Hd)|done|].
  destruct Hd as [Hv Ho]. by apply IsoFacts.parse_value_isoformat.
Qed.

Lemma parse_after_prepare_witness :
  parse_from_mongo
    (prepare_for_mongo {[ "posted_at" := VDate (utc 2024 5 17 9 2 0 0);
                          "title" := VStr "Welder" ]})
  = {[ "posted_at" := VDate (utc 2024 5 17 9 2 0 0); "title" := VStr "Welder" ]}.
Proof.
  apply parse_after_prepare.
  apply map_Forall_insert_2; [split; reflexivity|].
  apply map_Forall_insert_2; [|apply map_Forall_empty].
  unfold value_reads_back, reads_back. by_vm.
Defined.

(** X2.  A timestamp written with the suffix [Z] is read from the store as
    the time in UTC: the [Z] is taken for [+00:00]. *)
Theorem parse_value_zulu d :
  Iso.valid d = true → utcoffset d = None →
  parse_value (VStr (Iso.isoformat d +:+ "Z")) = VDate (in_utc d).
Proof.
  intros Hv Ho. unfold parse_value.
  rewrite IsoFacts.contains_char_append, IsoFacts.isoformat_has_T. cbn [orb].
  rewrite replace_char_append.
  rewrite (IsoFacts.replace_char_id _ _ _ (isoformat_naive_no_Z d Ho)).
  change (Str.replace_char "Z" "+00:00" "Z") with "+00:00".
  rewrite (isoformat_in_utc d Ho).
  rewrite IsoFacts.fromisoformat_isoformat; [done| |done].
  by rewrite valid_in_utc.
Qed.

Lemma parse_value_zulu_witness :
  parse_value (VStr "2024-05-17T09:30:00Z") = VDate (utc 2024 5 17 9 30 0 0).
Proof.
  exact (parse_value_zulu (mk_datetime 2024 5 17 9 30 0 0 None) eq_refl eq_refl).
Defined.

(** ** Reading and updating a user *)

(** A field of a response that is a required string is the stored one. *)
Lemma view_of_stored e (m : model) (u r : doc) k :
  NoDup (fields m) → construct e m (parse_from_mongo u) = Some r →
  Field k Str_ Required ∈ m →
  ∃ s, u !! k = Some (VStr s) ∧ r !! k = Some (VStr s).
Proof.
  intros Hm Hr Hk. destruct (construct_str e m _ r k Hm Hr Hk) as (s & Hs & Hrs).
  exists s. split; [|exact Hrs].
  unfold parse_from_mongo in Hs. rewrite lookup_fmap in Hs.
  destruct (u !! k) as [v|]; [|done]. cbn in Hs. injection Hs as Hs.
  by rewrite (parse_value_is_str v s Hs).
Qed.

(** Building a model from keyword arguments of which one is replaced. *)
Lemma construct_insert_other e (m : model) kw k v :
  k ∉ fields m → construct e m (<[k := v]> kw) = construct e m kw.
Proof.
  induction m as [|f m IH]; [done|]. intros Hk.
  apply not_elem_of_cons in Hk as [Hf Hk]. cbn [construct].
  unfold field_value. rewrite lookup_insert_ne by done. by rewrite IH.
Qed.

Lemma construct_insert e (m : model) kw r k v v' :
  NoDup (fields m) → construct e m kw = Some r → k ∈ fields m →
  (∀ f, f ∈ m → name f = k → validate (type_ f) v = Some v') →
  construct e m (<[k := v]> kw) = Some (<[k := v']> r).
Proof.
  revert r. induction m as [|f m IH]; intros r Hm Hr Hk Hv.
  - by apply elem_of_nil in Hk.
  - apply NoDup_cons in Hm as [Hf Hm]. cbn [construct] in Hr |- *.
    destruct (field_value e f kw) as [x|] eqn:Hx; [|done]. cbn in Hr.
    destruct (construct e m kw) as [r'|] eqn:Hr'; [|done]. cbn in Hr.
    injection Hr as <-.
    destruct (decide (name f = k)) as [E|E].
    + unfold field_value. rewrite E, lookup_insert_eq.
      rewrite (Hv f) by (done || apply list_elem_of_here). cbn.
      rewrite construct_insert_other, Hr' by (by rewrite <- E). cbn.
      by rewrite insert_insert_eq.
    + assert (field_value e f (<[k := v]> kw) = Some x) as ->.
      { unfold field_value in *. by rewrite lookup_insert_ne. }
      cbn. rewrite (IH r'); [ |done|done| |].
      * cbn. by rewrite insert_insert_ne.
      * apply elem_of_cons in Hk as [Hk|Hk]; [by subst|done].
      * intros g Hg. apply Hv. by apply list_elem_of_further.
Qed.

(** The response models read no clock and draw no id. *)
Lemma construct_UserResponse_env e e' kw :
  construct e UserResponse kw = construct e' UserResponse kw.
Proof. reflexivity. Qed.

Lemma construct_JobResponse_env e e' kw :
  construct e JobResponse kw = construct e' JobResponse kw.
Proof. reflexivity. Qed.

Lemma construct_ApplicationResponse_env e e' kw :
  construct e ApplicationResponse kw = construct e' ApplicationResponse kw.
Proof. reflexivity. Qed.

Lemma update_first_ext (p q : doc → bool) f l :
  (∀ d, p d = q d) → Bson.update_first p f l = Bson.update_first q f l.
Proof.
  intros H. induction l as [|d l IH]; [done|]. cbn. by rewrite H, IH.
Qed.

(** The first match of a list, with what stands before and after it. *)
Lemma head_filter_split {A} (p : A → bool) (l : list A) x :
  head (List.filter p l) = Some x →
  ∃ before after, l = before ++ x :: after ∧
    Forall (λ y, p y = false) before ∧ p x = true.
Proof.
  induction l as [|y l IH]; [done|]. cbn [List.filter].
  destruct (p y) eqn:Hy.
  - intros [= <-]. exists [], l. by repeat split.
  - intros H. destruct (IH H) as (b & a & -> & Hb & Hx).
    exists (y :: b), a. repeat split; [by constructor|done].
Qed.

Lemma update_first_split (p : doc → bool) f before x after :
  Forall (λ y, p y = false) before → p x = true →
  Bson.update_first p f (before ++ x :: after) = before ++ f x :: after.
Proof.
  intros Hb Hx. induction Hb as [|y b Hy Hb IH]; cbn.
  - by rewrite Hx.
  - by rewrite Hy, IH.
Qed.

Lemma head_filter_app_first {A} (p : A → bool) before x after :
  Forall (λ y, p y = false) before → p x = true →
  head (List.filter p (before ++ x :: after)) = Some x.
Proof.
  intros Hb Hx. induction Hb as [|y b Hy Hb IH]; cbn.
  - by rewrite Hx.
  - by rewrite Hy.
Qed.

Section UserFacts.

Variable regex_i : string → option (string → bool).

Lemma get_user_eq i e db :
  get_user regex_i i e db =
  match lookup_id (users db) i with
  | None => (HTTPException 404 "User not found", db)
  | Some u =>
      (match construct e UserResponse (parse_from_mongo u) with
       | Some r => Ok r
       | None => Uncaught
       end, db)
  end.
Proof.
  unfold get_user, lookup_id. rewrite bind_eq, find_one_eq1. cbn [docs].
  rewrite bind_eq, or_raise_eq.
  destruct (head _) as [u|]; [|done]. by rewrite new_eq.
Qed.

Lemma update_user_profile_eq i p e db :
  update_user_profile regex_i i p e db =
  match lookup_id (users db) i with
  | None => (HTTPException 404 "User not found", db)
  | Some _ =>
      (Ok profile_updated,
       set_docs Users
         (Bson.update_first (λ d, Bson.field_eq d "id" (VStr i)) (λ d, p ∪ d) (users db))
         db)
  end.
Proof.
  unfold update_user_profile, lookup_id. rewrite bind_eq, find_one_eq1. cbn [docs].
  rewrite bind_eq, or_raise_eq.
  destruct (head _) as [u|]; [|done].
  rewrite bind_eq. unfold update_one_set.
  cbn [compile_query compile mbind option_bind docs].
  rewrite (update_first_ext _ (λ d, Bson.field_eq d "id" (VStr i)))
    by (intros d; apply andb_true_r).
  reflexivity.
Qed.

Lemma in_UserResponse k t dflt :
  In (Field k t dflt) UserResponse → Field k t dflt ∈ UserResponse.
Proof. apply list_elem_of_In. Qed.

(** X3.  [get_user] never writes; it answers 404 exactly when no stored user
    has the id; and a view it returns carries the id asked for and the
    email, name and user type of the first stored user with that id. *)
Theorem get_user_found_or_404 i e db :
  (get_user regex_i i e db).2 = db ∧
  (get_user regex_i i e db = (HTTPException 404 "User not found", db)
   ↔ lookup_id (users db) i = None) ∧
  (∀ view, (get_user regex_i i e db).1 = Ok view →
     view !! "id" = Some (VStr i) ∧
     ∃ u, lookup_id (users db) i = Some u ∧
          view !! "email" = u !! "email" ∧ view !! "name" = u !! "name" ∧
          view !! "user_type" = u !! "user_type").
Proof.
  rewrite get_user_eq.
  destruct (lookup_id (users db) i) as [u|] eqn:Hu.
  - split; [done|]. split.
    { split; [|done]. by destruct (construct _ _ _). }
    intros view Hview. cbn [fst] in Hview.
    destruct (construct e UserResponse (parse_from_mongo u)) as [r|] eqn:Hr; [|done].
    injection Hview as ->.
    assert (∀ k, In (Field k Str_ Required) UserResponse → view !! k = u !! k
                 ∧ ∃ s, u !! k = Some (VStr s)) as Hstr.
    { intros k Hk.
      destruct (view_of_stored e UserResponse u view k NoDup_UserResponse Hr
                  (in_UserResponse _ _ _ Hk)) as (s & Hs & Hv).
      split; [by rewrite Hs, Hv|by exists s]. }
    split.
    + destruct (Hstr "id") as [Hid [s Hs]]; [cbn; tauto|].
      rewrite Hid, Hs. f_equal. f_equal.
      unfold lookup_id in Hu.
      pose proof (head_filter (λ d, Bson.field_eq d "id" (VStr i)) (users db)) as H.
      rewrite Hu in H. destruct H as [H _].
      rewrite (field_eq_str _ _ _ _ Hs) in H. by apply bool_decide_eq_true in H.
    + exists u. split; [done|].
      split_and!; apply Hstr; cbn; tauto.
  - split; [done|]. split; [done|]. intros view Hview. discriminate Hview.
Qed.

(** X5.  For a profile update whose body is not empty and names plain
    top-level fields only (each key is not empty, holds no dot and no NUL,
    does not start with [$] and is not [_id]) with values of a JSON body:
    it answers 404 and writes nothing when no stored user has the id.
    Otherwise it changes one document only, the first stored user with
    that id: this user takes every field of the body and keeps its other
    fields; the other users, the jobs and the applications stay as they
    are. *)
Theorem update_user_profile_first_match i p e db :
  plain_update p →
  match lookup_id (users db) i with
  | None =>
      update_user_profile regex_i i p e db = (HTTPException 404 "User not found", db)
  | Some u =>
      ∃ before after,
        users db = before ++ u :: after ∧
        Forall (λ d, Bson.field_eq d "id" (VStr i) = false) before ∧
        update_user_profile regex_i i p e db
          = (Ok profile_updated,
             mk_store (before ++ (p ∪ u) :: after) (jobs db) (applications db)) ∧
        ∀ k, (p ∪ u) !! k = match p !! k with Some v => Some v | None => u !! k end
  end.
Proof.
  intros _. rewrite update_user_profile_eq.
  destruct (lookup_id (users db) i) as [u|] eqn:Hu; [|done].
  destruct (head_filter_split _ _ _ Hu) as (before & after & Hl & Hb & Hx).
  exists before, after. split; [done|]. split; [done|]. split.
  - rewrite Hl, (update_first_split _ _ _ _ _ Hb Hx). reflexivity.
  - intros k. rewrite lookup_union. by destruct (p !! k), (u !! k).
Qed.

Lemma field_eq_insert_ne (u : doc) k v k' w :
  k ≠ k' → Bson.field_eq (<[k := v]> u) k' w = Bson.field_eq u k' w.
Proof. intros H. unfold Bson.field_eq. by rewrite lookup_insert_ne. Qed.

(** The users after the update of one field of the first user with an id. *)
Lemma update_one_field i k v e db u :
  lookup_id (users db) i = Some u → k ≠ "id" →
  ∃ before after,
    (update_user_profile regex_i i {[ k := v ]} e db).2
      = mk_store (before ++ <[k := v]> u :: after) (jobs db) (applications db) ∧
    lookup_id (before ++ <[k := v]> u :: after) i = Some (<[k := v]> u).
Proof.
  intros Hu Hk. rewrite update_user_profile_eq, Hu.
  destruct (head_filter_split _ _ _ Hu) as (before & after & Hl & Hb & Hx).
  exists before, after. cbn [snd].
  rewrite Hl, (update_first_split _ _ _ _ _ Hb Hx), <- insert_union_singleton_l.
  split; [reflexivity|].
  apply head_filter_app_first; [done|]. by rewrite field_eq_insert_ne.
Qed.

Lemma parse_plain_value v : plain_value v = true → parse_value v = v.
Proof.
  destruct v as [|s|l|t]; [done| |done|done].
  intros H. apply parse_value_no_T. by apply negb_true_iff in H.
Qed.

(** X6.  Let the first stored user with an id be stored plainly (its
    [created_at] is the ISO text of a valid time in UTC and its other
    fields hold null, a list, or a string without the letter [T]), and let
    [get_user] show a view of it.  After a profile update that sets one
    field, whose name is a plain top-level key other than [id] and
    [created_at], to a value that is null, a list, or a string without the
    letter [T]: if the view has no such field (as for the resume or the
    password), [get_user] shows the view as it was; if the view has the
    field and the value is one its type accepts, [get_user] shows the view
    as it was with the new value in that field. *)
Theorem get_user_after_update i k v e e1 e2 db u view :
  lookup_id (users db) i = Some u → plainly_stored u →
  (get_user regex_i i e db).1 = Ok view →
  k ≠ "id" → k ≠ "created_at" → top_level_name k = true → plain_value v = true →
  let db' := (update_user_profile regex_i i {[ k := v ]} e1 db).2 in
  (k ∉ fields UserResponse → get_user regex_i i e2 db' = (Ok view, db')) ∧
  (∀ f, f ∈ UserResponse → name f = k → validate (type_ f) v = Some v →
        get_user regex_i i e2 db' = (Ok (<[k := v]> view), db')).
Proof.
  intros Hu _ Hview Hk _ _ Hv%parse_plain_value db'.
  rewrite get_user_eq, Hu in Hview.
  cbn [fst] in Hview.
  destruct (construct e UserResponse (parse_from_mongo u)) as [r|] eqn:Hr; [|done].
  injection Hview as ->.
  destruct (update_one_field i k v e1 db u Hu Hk) as (before & after & Hdb' & Hlook).
  fold db' in Hdb'. rewrite get_user_eq, Hdb'. cbn [users]. rewrite Hlook.
  unfold parse_from_mongo. rewrite fmap_insert, Hv. fold (parse_from_mongo u).
  split.
  - intros Hnot. rewrite construct_insert_other by done.
    by rewrite (construct_UserResponse_env e2 e), Hr.
  - intros f Hf Hname Hval.
    rewrite (construct_insert e2 UserResponse _ view k v v NoDup_UserResponse).
    + done.
    + by rewrite (construct_UserResponse_env e2 e).
    + rewrite <- Hname. unfold fields. by apply list_elem_of_fmap_2.
    + intros g Hg Hgk.
      assert (g = f) as ->; [|done].
      clear -Hf Hg Hgk Hname. rewrite <- Hname in Hgk.
      apply list_elem_of_In in Hf, Hg. cbn in Hf, Hg.
      repeat (destruct Hf as [<-|Hf]; [
        repeat (destruct Hg as [<-|Hg]; [done || discriminate Hgk|]); done |]).
      done.
Qed.

(** X7.  A profile update is taken for any field: one that sets the password
    is enough for a login with the stored email and the new password to
    pass the check of the credentials. *)
Theorem profile_update_sets_password i s e e' db u em :
  lookup_id (users db) i = Some u → u !! "email" = Some (VStr em) →
  let db' := (update_user_profile regex_i i {[ "password" := VStr s ]} e db).2 in
  credentials_match em s db' = true ∧
  login_user regex_i (UserLogin.mk em s) e' db'
    ≠ (HTTPException 401 "Invalid credentials", db').
Proof.
  intros Hu Hem db'.
  assert (credentials_match em s db' = true) as Hc.
  { destruct (update_one_field i "password" (VStr s) e db u Hu) as (b & a & Hdb' & _);
      [done|].
    unfold credentials_match. fold db' in Hdb'. rewrite Hdb'. cbn [users].
    rewrite existsb_app. apply orb_true_iff. right. cbn [existsb].
    apply orb_true_iff. left.
    rewrite field_eq_insert_ne by done.
    rewrite (field_eq_str _ _ _ _ Hem).
    rewrite (field_eq_str _ _ _ s); [|by rewrite lookup_insert_eq].
    by rewrite !bool_decide_eq_true_2. }
  split; [exact Hc|]. intros H.
  apply login_user_unauthorized in H. cbn in H. congruence.
Qed.

End UserFacts.

Lemma update_user_profile_first_match_witness :
  ∃ u before after,
    lookup_id (users Demo.posted) "u-1" = Some u ∧
    users Demo.posted = before ++ u :: after ∧
    update_user_profile Regex.engine "u-1" {[ "bio" := VStr "I weld." ]}
                        (Demo.clock 4 "-") Demo.posted
    = (Ok profile_updated,
       mk_store (before ++ ({[ "bio" := VStr "I weld." ]} ∪ u) :: after)
                (jobs Demo.posted) (applications Demo.posted)).
Proof.
  assert (plain_update {[ "bio" := VStr "I weld." ]}) as Hp.
  { split; [apply map_non_empty_singleton|].
    apply map_Forall_singleton. split; reflexivity. }
  pose proof (update_user_profile_first_match Regex.engine "u-1" _ (Demo.clock 4 "-")
                Demo.posted Hp) as H.
  assert (lookup_id (users Demo.posted) "u-1"
          = Some (prepare_for_mongo (user_object (Demo.clock 0 "u-1") Demo.ann))) as Hu
    by by_vm.
  rewrite Hu in H. destruct H as (b & a & H1 & _ & H2 & _).
  exists (prepare_for_mongo (user_object (Demo.clock 0 "u-1") Demo.ann)), b, a.
  split; [exact Hu|]. split; [exact H1|exact H2].
Defined.

Lemma get_user_after_update_witness :
  plainly_stored (prepare_for_mongo (user_object (Demo.clock 0 "u-1") Demo.ann)) ∧
  get_user Regex.engine "u-1" (Demo.clock 9 "-")
    (update_user_profile Regex.engine "u-1" {[ "bio" := VStr "I weld." ]}
                         (Demo.clock 4 "-") Demo.posted).2
  = (Ok (<["bio" := VStr "I weld."]> Demo.ann_view),
     (update_user_profile Regex.engine "u-1" {[ "bio" := VStr "I weld." ]}
                          (Demo.clock 4 "-") Demo.posted).2).
Proof.
  assert (lookup_id (users Demo.posted) "u-1"
          = Some (prepare_for_mongo (user_object (Demo.clock 0 "u-1") Demo.ann))) as Hu
    by by_vm.
  assert (plainly_stored (prepare_for_mongo (user_object (Demo.clock 0 "u-1") Demo.ann)))
    as Hplain.
  { split; [exists (utc 2024 5 17 9 0 0 0); split_and!; by_vm | by_vm]. }
  assert ((get_user Regex.engine "u-1" (Demo.clock 3 "-") Demo.posted).1
          = Ok Demo.ann_view) as H by by_vm.
  split; [exact Hplain|].
  destruct (get_user_after_update Regex.engine "u-1" "bio" (VStr "I weld.")
              (Demo.clock 3 "-") (Demo.clock 4 "-") (Demo.clock 9 "-") Demo.posted
              _ Demo.ann_view Hu Hplain H) as [_ Hf];
    [discriminate|discriminate|reflexivity|reflexivity|].
  apply (Hf (Field "bio" OptionalStr (Default VNull))); [|reflexivity|reflexivity].
  apply list_elem_of_In. cbn. tauto.
Defined.

Lemma profile_update_sets_password_witness :
  credentials_match "ann@example.com" "n3w"
    (update_user_profile Regex.engine "u-1" {[ "password" := VStr "n3w" ]}
                         (Demo.clock 4 "-") Demo.posted).2 = true.
Proof.
  assert (lookup_id (users Demo.posted) "u-1"
          = Some (prepare_for_mongo (user_object (Demo.clock 0 "u-1") Demo.ann))) as Hu
    by by_vm.
  assert (prepare_for_mongo (user_object (Demo.clock 0 "u-1") Demo.ann) !! "email"
          = Some (VStr "ann@example.com")) as He by by_vm.
  exact (proj1 (profile_update_sets_password Regex.engine "u-1" "n3w" (Demo.clock 4 "-")
                  (Demo.clock 9 "-") Demo.posted _ _ Hu He)).
Defined.

Section RegisterThenGet.

Variable regex_i : string → option (string → bool).

(** X4.  When the clock is a valid time in UTC, the email and the generated id
    are new and none of the generated id and the strings of the
    registration (email, password, name, user type) holds the letter [T],
    [get_user] with the id of the registration returns the view that the
    registration returned. *)
Theorem get_user_after_register e e' u db :
  utc_clock e → user_reads_back (uuid4 e) u →
  email_taken (UserCreate.email u) db = false →
  lookup_id (users db) (uuid4 e) = None →
  (register_user regex_i u e db).1
    = Ok (delete "resume" (delete "password" (user_object e u))) ∧
  get_user regex_i (uuid4 e) e' (register_user regex_i u e db).2
    = (Ok (delete "resume" (delete "password" (user_object e u))),
       (register_user regex_i u e db).2).
Proof.
  intros Hclock Hback Hnew Hfresh.
  rewrite (register_user_eq regex_i e u db), Hnew. split; [done|]. cbn [fst snd].
  rewrite get_user_eq. cbn [set_docs users].
  destruct (stored_user_fields e u) as (Hid & _).
  assert (lookup_id (users db ++ [prepare_for_mongo (user_object e u)]) (uuid4 e)
          = Some (prepare_for_mongo (user_object e u))) as ->.
  { unfold lookup_id. rewrite filter_app_fresh; [done| |].
    - unfold lookup_id in Hfresh.
      pose proof (head_filter (λ d, Bson.field_eq d "id" (VStr (uuid4 e))) (users db)) as H.
      by rewrite Hfresh in H.
    - rewrite (field_eq_str _ _ _ _ Hid). by apply bool_decide_eq_true. }
  rewrite (read_back_user e u Hclock Hback).
  rewrite (construct_UserResponse_env e' e). by rewrite new_UserResponse.
Qed.

End RegisterThenGet.

Lemma get_user_after_register_witness :
  get_user Regex.engine "u-1" (Demo.clock 9 "-")
    (register_user Regex.engine Demo.ann (Demo.clock 0 "u-1") empty_store).2
  = (Ok (delete "resume" (delete "password" (user_object (Demo.clock 0 "u-1") Demo.ann))),
     (register_user Regex.engine Demo.ann (Demo.clock 0 "u-1") empty_store).2).
Proof.
  refine (proj2 (get_user_after_register Regex.engine (Demo.clock 0 "u-1")
                   (Demo.clock 9 "-") Demo.ann empty_store _ _ eq_refl eq_refl)).
  - split; reflexivity.
  - unfold user_reads_back, reads_back. split_and!; by_vm.
Defined.

(** ** What the handlers write and what they raise *)

Lemma read_only_fmap {A B} (g : A → B) (m : M A) : read_only m → read_only (g <$> m).
Proof.
  intros Hm e db. rewrite fmap_eq. specialize (Hm e db).
  by destruct (m e db) as [[a| |] db'].
Qed.

Lemma read_only_raise {A} c d : read_only (@raise A c d).
Proof. done. Qed.

Lemma read_only_uncaught {A} : read_only (@uncaught A).
Proof. done. Qed.

Lemma read_only_or_raise x c d : read_only (or_raise x c d).
Proof. intros e db. unfold or_raise. destruct x as [u|]; [|done]. by destruct (dict_truthy u). Qed.

Lemma read_only_for_each {A B} (f : A → M B) l :
  (∀ x, read_only (f x)) → read_only (for_each f l).
Proof.
  intros Hf. induction l as [|x l IH]; [apply read_only_ret|]. cbn [for_each].
  apply read_only_bind; [apply Hf|]. intros y.
  apply read_only_bind; [apply IH|]. intros ys. apply read_only_ret.
Qed.

Lemma only_raises_mono {A} (S T : Z → string → Prop) (m : M A) :
  only_raises S m → (∀ c d, S c d → T c d) → only_raises T m.
Proof. intros Hm H e db c d Hr. by apply H, (Hm e db). Qed.

Lemma only_raises_bind {A B} S (m : M A) (f : A → M B) :
  only_raises S m → (∀ a, only_raises S (f a)) → only_raises S (m ≫= f).
Proof.
  intros Hm Hf e db c d. rewrite bind_eq. specialize (Hm e db).
  destruct (m e db) as [[a| |] db']; cbn [fst] in *.
  - apply Hf.
  - intros [= <- <-]. by apply Hm.
  - done.
Qed.

Lemma only_raises_fmap {A B} S (g : A → B) (m : M A) :
  only_raises S m → only_raises S (g <$> m).
Proof.
  intros Hm e db c d. rewrite fmap_eq. specialize (Hm e db).
  destruct (m e db) as [[a| |] db']; cbn [fst] in *; [done| |done].
  intros [= <- <-]. by apply Hm.
Qed.

Lemma only_raises_ret {A} S (a : A) : only_raises S (mret a).
Proof. intros e db c d H. discriminate H. Qed.

Lemma only_raises_uncaught {A} S : only_raises S (@uncaught A).
Proof. intros e db c d H. discriminate H. Qed.

Lemma only_raises_raise {A} (S : Z → string → Prop) c d : S c d → only_raises S (@raise A c d).
Proof. intros H e db c' d' [= <- <-]. exact H. Qed.

Lemma only_raises_new S m kw : only_raises S (new m kw).
Proof. intros e db c d. rewrite new_eq. by destruct (construct e m kw). Qed.

Lemma only_raises_getitem S u k : only_raises S (getitem u k).
Proof. intros e db c d. rewrite getitem_eq. by destruct (u !! k). Qed.

Lemma only_raises_or_raise (S : Z → string → Prop) x c d :
  S c d → only_raises S (or_raise x c d).
Proof.
  intros H. unfold or_raise. destruct x as [u|]; [|by apply only_raises_raise].
  destruct (dict_truthy u); [apply only_raises_ret|by apply only_raises_raise].
Qed.

Lemma only_raises_for_each {A B} S (f : A → M B) l :
  (∀ x, only_raises S (f x)) → only_raises S (for_each f l).
Proof.
  intros Hf. induction l as [|x l IH]; [apply only_raises_ret|]. cbn [for_each].
  apply only_raises_bind; [apply Hf|]. intros y.
  apply only_raises_bind; [apply IH|]. intros ys. apply only_raises_ret.
Qed.

Lemma only_raises_insert_one S c u : only_raises S (insert_one c u).
Proof. intros e db c' d H. discriminate H. Qed.

Lemma only_raises_add_job_details S job data : only_raises S (add_job_details job data).
Proof.
  unfold add_job_details. destruct job as [j|]; [|apply only_raises_ret].
  destruct (dict_truthy j); [|apply only_raises_ret].
  apply only_raises_bind; [apply only_raises_getitem|]. intros t.
  apply only_raises_bind; [apply only_raises_getitem|]. intros c. apply only_raises_ret.
Qed.

Lemma only_raises_add_applicant_details S applicant data :
  only_raises S (add_applicant_details applicant data).
Proof.
  unfold add_applicant_details. destruct applicant as [u|]; [|apply only_raises_ret].
  destruct (dict_truthy u); [|apply only_raises_ret].
  apply only_raises_bind; [apply only_raises_getitem|]. intros n. apply only_raises_ret.
Qed.

Lemma only_raises_skip S n cur : only_raises S (skip n cur).
Proof.
  unfold skip. destruct (n <? 0)%Z; [apply only_raises_uncaught|apply only_raises_ret].
Qed.

Lemma read_only_skip n cur : read_only (skip n cur).
Proof. unfold skip. by destruct (n <? 0)%Z. Qed.

Section Effects.

Variable regex_i : string → option (string → bool).

Lemma read_only_select c q : read_only (select regex_i c q).
Proof. intros e db. rewrite select_eq. by destruct (compile_query regex_i q). Qed.

Lemma read_only_count_documents c q : read_only (count_documents regex_i c q).
Proof.
  unfold count_documents. apply read_only_bind; [apply read_only_select|].
  intros l. apply read_only_ret.
Qed.

Lemma read_only_to_list cur : read_only (to_list regex_i cur).
Proof.
  unfold to_list. destruct (_ || _); [apply read_only_uncaught|].
  apply read_only_bind; [apply read_only_select|]. intros l. apply read_only_ret.
Qed.

Lemma only_raises_select S c q : only_raises S (select regex_i c q).
Proof. intros e db c' d. rewrite select_eq. by destruct (compile_query regex_i q). Qed.

Lemma only_raises_find_one S c q : only_raises S (find_one regex_i c q).
Proof.
  unfold find_one. apply only_raises_bind; [apply only_raises_select|].
  intros l. apply only_raises_ret.
Qed.

Lemma only_raises_count_documents S c q : only_raises S (count_documents regex_i c q).
Proof.
  unfold count_documents. apply only_raises_bind; [apply only_raises_select|].
  intros l. apply only_raises_ret.
Qed.

Lemma only_raises_to_list S cur : only_raises S (to_list regex_i cur).
Proof.
  unfold to_list. destruct (_ || _); [apply only_raises_uncaught|].
  apply only_raises_bind; [apply only_raises_select|]. intros l. apply only_raises_ret.
Qed.

Lemma only_raises_update_one_set S c q p : only_raises S (update_one_set regex_i c q p).
Proof.
  intros e db c' d. unfold update_one_set. by destruct (compile_query regex_i q).
Qed.

Ltac quiet :=
  repeat first
    [ apply read_only_ret | apply read_only_new | apply read_only_getitem
    | apply read_only_raise | apply read_only_uncaught | apply read_only_or_raise
    | apply read_only_skip | apply read_only_select | apply read_only_find_one
    | apply read_only_count_documents | apply read_only_to_list
    | apply read_only_add_job_details | apply read_only_add_applicant_details
    | apply read_only_fmap
    | apply read_only_for_each; intros ?
    | apply read_only_bind; [|intros ?] ].

Ltac tame :=
  repeat first
    [ apply only_raises_ret | apply only_raises_new | apply only_raises_getitem
    | apply only_raises_uncaught | apply only_raises_skip | apply only_raises_select
    | apply only_raises_find_one | apply only_raises_count_documents
    | apply only_raises_to_list | apply only_raises_insert_one
    | apply only_raises_update_one_set
    | apply only_raises_add_job_details | apply only_raises_add_applicant_details
    | apply only_raises_fmap
    | apply only_raises_or_raise; reflexivity
    | apply only_raises_raise; reflexivity
    | apply only_raises_for_each; intros ?
    | apply only_raises_bind; [|intros ?] ].

Lemma read_only_login_user l : read_only (login_user regex_i l).
Proof. unfold login_user. quiet. Qed.

Lemma read_only_get_user i : read_only (get_user regex_i i).
Proof. unfold get_user. quiet. Qed.

Lemma read_only_get_jobs s l q loc t : read_only (get_jobs regex_i s l q loc t).
Proof. unfold get_jobs. quiet. Qed.

Lemma read_only_get_job i : read_only (get_job regex_i i).
Proof. unfold get_job. quiet. Qed.

Lemma read_only_get_employer_jobs i : read_only (get_employer_jobs regex_i i).
Proof. unfold get_employer_jobs. quiet. Qed.

Lemma read_only_get_user_applications i : read_only (get_user_applications regex_i i).
Proof. unfold get_user_applications. quiet. Qed.

Lemma read_only_get_job_applications i : read_only (get_job_applications regex_i i).
Proof. unfold get_job_applications. quiet. Qed.

Lemma read_only_get_dashboard_stats i t : read_only (get_dashboard_stats regex_i i t).
Proof.
  unfold get_dashboard_stats. destruct (String.eqb t "job_seeker"); quiet.
  destruct a2; quiet.
Qed.

Lemma create_job_eq j employer_id e db :
  create_job j employer_id e db
  = (Ok (delete "expires_at" (job_object e j employer_id)),
     set_docs Jobs (jobs db ++ [prepare_for_mongo (job_object e j employer_id)]) db).
Proof.
  unfold create_job. rewrite bind_eq, new_eq, new_Job, bind_eq.
  unfold insert_one. by rewrite new_eq, new_JobResponse.
Qed.

(** The store after a request. *)
Lemma handle_store r e db : (handle regex_i r e db).2 = written r e db.
Proof.
  destruct r; cbn [handle written]; rewrite fmap_eq.
  - rewrite register_user_eq. by destruct (email_taken _ _).
  - pose proof (read_only_login_user login_data e db) as H.
    by destruct (login_user _ _ _ _) as [[?| |] ?].
  - pose proof (read_only_get_user user_id e db) as H.
    by destruct (get_user _ _ _ _) as [[?| |] ?].
  - rewrite update_user_profile_eq. by destruct (lookup_id _ _).
  - by rewrite create_job_eq.
  - pose proof (read_only_get_jobs skip_ limit_ search location job_type e db) as H.
    by destruct (get_jobs _ _ _ _ _ _ _ _) as [[?| |] ?].
  - pose proof (read_only_get_job job_id e db) as H.
    by destruct (get_job _ _ _ _) as [[?| |] ?].
  - pose proof (read_only_get_employer_jobs employer_id e db) as H.
    by destruct (get_employer_jobs _ _ _ _) as [[?| |] ?].
  - pose proof (apply_for_job_store regex_i e application_data applicant_id db) as H.
    by destruct (apply_for_job _ _ _ _ _) as [[?| |] ?].
  - pose proof (read_only_get_user_applications user_id e db) as H.
    by destruct (get_user_applications _ _ _ _) as [[?| |] ?].
  - pose proof (read_only_get_job_applications job_id e db) as H.
    by destruct (get_job_applications _ _ _ _) as [[?| |] ?].
  - pose proof (read_only_get_dashboard_stats user_id user_type e db) as H.
    by destruct (get_dashboard_stats _ _ _ _ _) as [[?| |] ?].
Qed.

End Effects.

Section SurfaceFacts.

Variable regex_i : string → option (string → bool).

Lemma only_raises_handle r :
  only_raises (λ c d, error_of r = Some (c, d)) (handle regex_i r).
Proof.
  destruct r; cbn [handle]; apply only_raises_fmap.
  - unfold register_user. apply only_raises_bind; [apply only_raises_find_one|].
    intros x. destruct (found x); [by apply only_raises_raise|].
    apply only_raises_bind; [apply only_raises_new|]. intros o.
    apply only_raises_bind; [apply only_raises_insert_one|]. intros _.
    apply only_raises_new.
  - unfold login_user. apply only_raises_bind; [apply only_raises_find_one|].
    intros x. apply only_raises_bind; [by apply only_raises_or_raise|]. intros u.
    apply only_raises_new.
  - unfold get_user. apply only_raises_bind; [apply only_raises_find_one|].
    intros x. apply only_raises_bind; [by apply only_raises_or_raise|]. intros u.
    apply only_raises_new.
  - unfold update_user_profile. apply only_raises_bind; [apply only_raises_find_one|].
    intros x. apply only_raises_bind; [by apply only_raises_or_raise|]. intros u.
    apply only_raises_bind; [apply only_raises_update_one_set|]. intros _.
    apply only_raises_ret.
  - intros e db c d. by rewrite create_job_eq.
  - unfold get_jobs. apply only_raises_bind; [apply only_raises_skip|]. intros cur.
    apply only_raises_bind; [apply only_raises_to_list|]. intros l.
    apply only_raises_for_each. intros x. apply only_raises_new.
  - unfold get_job. apply only_raises_bind; [apply only_raises_find_one|].
    intros x. apply only_raises_bind; [by apply only_raises_or_raise|]. intros u.
    apply only_raises_new.
  - unfold get_employer_jobs. apply only_raises_bind; [apply only_raises_to_list|].
    intros l. apply only_raises_for_each. intros x. apply only_raises_new.
  - unfold apply_for_job. apply only_raises_bind; [apply only_raises_find_one|].
    intros x. destruct (found x); [by apply only_raises_raise|].
    apply only_raises_bind; [apply only_raises_new|]. intros o.
    apply only_raises_bind; [apply only_raises_insert_one|]. intros _.
    apply only_raises_bind; [apply only_raises_find_one|]. intros job.
    apply only_raises_bind; [apply only_raises_find_one|]. intros applicant.
    apply only_raises_bind; [apply only_raises_add_job_details|]. intros d1.
    apply only_raises_bind; [apply only_raises_add_applicant_details|]. intros d2.
    apply only_raises_new.
  - unfold get_user_applications. apply only_raises_bind; [apply only_raises_to_list|].
    intros l. apply only_raises_for_each. intros x.
    apply only_raises_bind; [apply only_raises_getitem|]. intros v.
    apply only_raises_bind; [apply only_raises_find_one|]. intros job.
    apply only_raises_bind; [apply only_raises_add_job_details|]. intros d1.
    apply only_raises_new.
  - unfold get_job_applications. apply only_raises_bind; [apply only_raises_to_list|].
    intros l. apply only_raises_for_each. intros x.
    apply only_raises_bind; [apply only_raises_getitem|]. intros v.
    apply only_raises_bind; [apply only_raises_find_one|]. intros applicant.
    apply only_raises_bind; [apply only_raises_find_one|]. intros job.
    apply only_raises_bind; [apply only_raises_add_applicant_details|]. intros d1.
    apply only_raises_bind; [apply only_raises_add_job_details|]. intros d2.
    apply only_raises_new.
  - unfold get_dashboard_stats. destruct (String.eqb user_type "job_seeker").
    + apply only_raises_bind; [apply only_raises_count_documents|]. intros n1.
      apply only_raises_bind; [apply only_raises_count_documents|]. intros n2.
      apply only_raises_bind; [apply only_raises_count_documents|]. intros n3.
      apply only_raises_ret.
    + apply only_raises_bind; [apply only_raises_count_documents|]. intros n1.
      apply only_raises_bind; [apply only_raises_count_documents|]. intros n2.
      apply only_raises_bind; [apply only_raises_to_list|]. intros l.
      apply only_raises_bind; [apply only_raises_for_each; intros x;
                               apply only_raises_getitem|]. intros ids.
      apply only_raises_bind; [|intros n3; apply only_raises_ret].
      destruct ids; [apply only_raises_ret|apply only_raises_count_documents].
Qed.

(** X13.  The handlers of login, of the three fetches by id or filter, of the
    three listings and of the dashboard write nothing, whatever they end
    in. *)
Theorem read_requests_leave_store r e db :
  reads_only r = true → (handle regex_i r e db).2 = db.
Proof. intros Hr. rewrite handle_store. by destruct r. Qed.

(** X14.  A request that ends in an [HTTPException] has written nothing, and
    the exception is the one of its handler: 400 for a taken email or a
    second application, 401 for a failed login, 404 for an unknown user or
    job. *)
Theorem http_error_leaves_store r e db c d :
  (handle regex_i r e db).1 = HTTPException c d →
  (handle regex_i r e db).2 = db ∧ error_of r = Some (c, d).
Proof.
  intros H. split; [|by apply (only_raises_handle r e db)].
  rewrite handle_store. destruct r; cbn [written]; try reflexivity;
    cbn [handle] in H; rewrite fmap_eq in H.
  - rewrite register_user_eq in H. by destruct (email_taken _ _).
  - rewrite update_user_profile_eq in H. by destruct (lookup_id _ _).
  - by rewrite create_job_eq in H.
  - destruct (already_applied _ _ _) eqn:Ha; [done|]. exfalso.
    revert H. unfold apply_for_job. rewrite bind_eq, find_one_eq2. cbn [docs].
    rewrite found_head_filter2. unfold already_applied in Ha. rewrite Ha.
    match goal with
    | |- context [(?m e db)] =>
        set (rest := m); assert (only_raises (λ _ _, False) rest) as Hm
    end.
    { apply only_raises_bind; [apply only_raises_new|]. intros o.
      apply only_raises_bind; [apply only_raises_insert_one|]. intros _.
      apply only_raises_bind; [apply only_raises_find_one|]. intros job.
      apply only_raises_bind; [apply only_raises_find_one|]. intros applicant.
      apply only_raises_bind; [apply only_raises_add_job_details|]. intros d1.
      apply only_raises_bind; [apply only_raises_add_applicant_details|]. intros d2.
      apply only_raises_new. }
    specialize (Hm e db).
    destruct (rest e db) as [[?| |] ?]; [done| |done].
    intros _. by apply (Hm status_code detail).
Qed.

Lemma job_written_active j :
  job_written j →
  j !! "status" = Some (VStr "active") ∧ j !! "expires_at" = Some VNull.
Proof.
  intros (e & c & i & ->). split.
  - apply (stored_job_fields e c i).
  - destruct c as [? ? ? ? [?|] ? ? ?]; by_vm.
Qed.

(** X12.  Jobs are only ever appended, one by each [create_job] and none by any
    other request; no request changes or removes a stored job, so every
    job of a store that the surface built is active and has no expiry. *)
Theorem jobs_append_only_and_active :
  (∀ trace,
     Forall (λ j : doc, j !! "status" = Some (VStr "active") ∧
                        j !! "expires_at" = Some VNull)
            (jobs (run regex_i trace empty_store))) ∧
  (∀ r e db,
     jobs (handle regex_i r e db).2 =
     match r with
     | CreateJob j employer_id =>
         jobs db ++ [prepare_for_mongo (job_object e j employer_id)]
     | _ => jobs db
     end).
Proof.
  split.
  - intros trace.
    destruct (reachable_written regex_i (run regex_i trace empty_store)) as [H _];
      [by exists trace|].
    eapply Forall_impl; [exact H|]. apply job_written_active.
  - intros r e db. rewrite handle_store. destruct r; cbn [written]; try reflexivity.
    + by destruct (email_taken _ _).
    + by destruct (lookup_id _ _).
    + by destruct (already_applied _ _ _).
Qed.

Lemma stored_job_posted_at e j employer_id :
  prepare_for_mongo (job_object e j employer_id) !! "posted_at"
  = Some (VStr (Iso.isoformat (now e))).
Proof.
  assert (job_object e j employer_id !! "posted_at" = Some (VDate (now e))) as H by by_vm.
  unfold prepare_for_mongo. by rewrite lookup_fmap, H.
Qed.

(** X8.  [create_job] cannot fail and checks nothing: for every posting and
    every employer id, that of a stored user or not, it appends one job
    with the generated id, the time of the clock as text, the employer id
    as given and the status active, and returns that job with its expiry
    left out. *)
Theorem create_job_always_stores j employer_id e db :
  let stored := prepare_for_mongo (job_object e j employer_id) in
  let response := delete "expires_at" (job_object e j employer_id) in
  create_job j employer_id e db
    = (Ok response, mk_store (users db) (jobs db ++ [stored]) (applications db)) ∧
  (stored !! "id" = Some (VStr (uuid4 e)) ∧
   stored !! "employer_id" = Some (VStr employer_id) ∧
   stored !! "status" = Some (VStr "active") ∧
   stored !! "posted_at" = Some (VStr (Iso.isoformat (now e)))) ∧
  (response !! "id" = Some (VStr (uuid4 e)) ∧
   response !! "employer_id" = Some (VStr employer_id) ∧
   response !! "status" = Some (VStr "active") ∧
   response !! "posted_at" = Some (VDate (now e)) ∧
   response !! "expires_at" = None ∧
   response !! "title" = Some (VStr (JobCreate.title j)) ∧
   response !! "salary_range" = Some (opt_str (JobCreate.salary_range j)) ∧
   response !! "requirements" = Some (VList (JobCreate.requirements j))).
Proof.
  intros stored response. split; [apply create_job_eq|].
  unfold stored, response. split.
  - destruct (stored_job_fields e j employer_id) as (H1 & _ & _ & H2 & H3).
    split_and!; [exact H1|exact H2|exact H3|apply stored_job_posted_at].
  - destruct j as [? ? ? ? [?|] ? ? ?]; split_and!; by_vm.
Qed.

End SurfaceFacts.

Lemma read_requests_leave_store_witness :
  (handle Regex.engine (GetJobs 0 20 (Some "weld") None None) (Demo.clock 9 "-")
          Demo.posted).2 = Demo.posted.
Proof. apply read_requests_leave_store. reflexivity. Defined.

Lemma http_error_leaves_store_witness :
  (handle Regex.engine (GetJob "j-404") (Demo.clock 9 "-") Demo.posted).2 = Demo.posted ∧
  error_of (GetJob "j-404") = Some (404%Z, "Job not found").
Proof.
  apply http_error_leaves_store. by_vm.
Defined.

(** ** Fetching a job, and applying twice *)

Lemma lookup_id_field l id u s :
  lookup_id l id = Some u → u !! "id" = Some (VStr s) → s = id.
Proof.
  intros Hu Hs. unfold lookup_id in Hu.
  pose proof (head_filter (λ d, Bson.field_eq d "id" (VStr id)) l) as H.
  rewrite Hu in H. destruct H as [H _].
  rewrite (field_eq_str _ _ _ _ Hs) in H. by apply bool_decide_eq_true in H.
Qed.

Lemma run_invariant regex_i (P : store → Prop) :
  (∀ r e db, P db → P (handle regex_i r e db).2) →
  ∀ trace db, P db → P (run regex_i trace db).
Proof.
  intros Hstep trace. induction trace as [|[e r] trace IH]; intros db Hdb; [done|].
  cbn [run]. by apply IH, Hstep.
Qed.

Lemma application_key_match (d : doc) job_id applicant_id :
  application_key d = (Some (VStr job_id), Some (VStr applicant_id)) →
  Bson.field_eq d "job_id" (VStr job_id) && Bson.field_eq d "applicant_id" (VStr applicant_id)
  = true.
Proof.
  unfold application_key. intros [= Hj Ha].
  rewrite (field_eq_str _ _ _ _ Hj), (field_eq_str _ _ _ _ Ha).
  by rewrite !bool_decide_eq_true_2.
Qed.

Lemma existsb_false_elem {A} (p : A → bool) l x :
  existsb p l = false → x ∈ l → p x = false.
Proof.
  intros H Hx. induction Hx as [x l|x y l Hx IH]; cbn in H;
    apply orb_false_iff in H as [H1 H2]; [done|by apply IH].
Qed.

Section JobFacts.

Variable regex_i : string → option (string → bool).

Lemma get_job_eq i e db :
  get_job regex_i i e db =
  match lookup_id (jobs db) i with
  | None => (HTTPException 404 "Job not found", db)
  | Some j =>
      (match construct e JobResponse (parse_from_mongo j) with
       | Some r => Ok r
       | None => Uncaught
       end, db)
  end.
Proof.
  unfold get_job, lookup_id. rewrite bind_eq, find_one_eq1. cbn [docs].
  rewrite bind_eq, or_raise_eq.
  destruct (head _) as [u|]; [|done]. by rewrite new_eq.
Qed.

(** X9.  [get_job] never writes; it answers 404 exactly when no stored job has
    the id, whatever the status of the job; and a job it returns carries
    the id asked for and the title, company, location, job type,
    description, employer id and status of the first stored job with that
    id. *)
Theorem get_job_found_or_404 i e db :
  (get_job regex_i i e db).2 = db ∧
  (get_job regex_i i e db = (HTTPException 404 "Job not found", db)
   ↔ lookup_id (jobs db) i = None) ∧
  (∀ view, (get_job regex_i i e db).1 = Ok view →
     view !! "id" = Some (VStr i) ∧
     ∃ j, lookup_id (jobs db) i = Some j ∧
          ∀ k, k ∈ ["title"; "company"; "location"; "job_type"; "description";
                    "employer_id"; "status"] →
               view !! k = j !! k ∧ ∃ s, j !! k = Some (VStr s)).
Proof.
  rewrite get_job_eq.
  destruct (lookup_id (jobs db) i) as [j|] eqn:Hj.
  - split; [done|]. split.
    { split; [|done]. by destruct (construct _ _ _). }
    intros view Hview. cbn [fst] in Hview.
    destruct (construct e JobResponse (parse_from_mongo j)) as [r|] eqn:Hr; [|done].
    injection Hview as ->.
    assert (∀ k, In (Field k Str_ Required) JobResponse → view !! k = j !! k
                 ∧ ∃ s, j !! k = Some (VStr s)) as Hstr.
    { intros k Hk.
      destruct (view_of_stored e JobResponse j view k NoDup_JobResponse Hr) as (s & Hs & Hv).
      { by apply list_elem_of_In. }
      split; [by rewrite Hs, Hv|by exists s]. }
    split.
    + destruct (Hstr "id") as [Hid [s Hs]]; [cbn; tauto|].
      rewrite Hid, Hs. by rewrite (lookup_id_field _ _ _ _ Hj Hs).
    + exists j. split; [done|]. intros k Hk. apply Hstr.
      apply list_elem_of_In in Hk. cbn in Hk |- *.
      repeat (destruct Hk as [<-|Hk]; [tauto|]). done.
  - split; [done|]. split; [done|]. intros view Hview. discriminate Hview.
Qed.

(** X15.  When requests are served one after another, each handler running
    to its end before the next one starts, no two stored applications are
    for the same job by the same applicant. *)
Theorem no_duplicate_applications db :
  reachable regex_i db → NoDup (application_key <$> applications db).
Proof.
  intros [trace <-].
  apply (run_invariant regex_i (λ db, NoDup (application_key <$> applications db)));
    [|constructor].
  intros r e db Hdb. rewrite handle_store.
  destruct r; cbn [written]; try exact Hdb.
  - by destruct (email_taken _ _).
  - by destruct (lookup_id _ _).
  - destruct (already_applied _ _ _) eqn:Ha; [exact Hdb|].
    cbn [set_docs applications]. rewrite fmap_app. apply NoDup_app.
    split; [exact Hdb|]. split; [|apply NoDup_singleton].
    intros key Hkey Hnew. apply list_elem_of_fmap in Hkey as (d & -> & Hd).
    apply list_elem_of_singleton in Hnew.
    destruct (stored_application_fields e application_data applicant_id)
      as (_ & Hj & Hi & _).
    unfold application_key at 2 in Hnew. rewrite Hj, Hi in Hnew.
    apply application_key_match in Hnew.
    unfold already_applied in Ha.
    by rewrite (existsb_false_elem _ _ _ Ha Hd) in Hnew.
Qed.

Lemma apply_for_job_conflict a i e db :
  already_applied (ApplicationCreate.job_id a) i db = true →
  apply_for_job regex_i a i e db = (HTTPException 400 "Already applied for this job", db).
Proof.
  intros Ha. unfold apply_for_job, already_applied in *.
  rewrite bind_eq, find_one_eq2. cbn [docs]. by rewrite found_head_filter2, Ha.
Qed.

(** A stored application stays stored, whatever is served. *)
Lemma already_applied_handle job_id i r e db :
  already_applied job_id i db = true →
  already_applied job_id i (handle regex_i r e db).2 = true.
Proof.
  intros Ha. rewrite handle_store.
  destruct r; cbn [written]; try exact Ha.
  - by destruct (email_taken _ _).
  - by destruct (lookup_id _ _).
  - destruct (already_applied (ApplicationCreate.job_id application_data) _ _);
      [exact Ha|].
    unfold already_applied in *. cbn [set_docs applications].
    rewrite existsb_app, Ha. done.
Qed.

Lemma already_applied_after a i e db :
  already_applied (ApplicationCreate.job_id a) i (apply_for_job regex_i a i e db).2 = true.
Proof.
  rewrite apply_for_job_store.
  destruct (already_applied (ApplicationCreate.job_id a) i db) eqn:Ha; [exact Ha|].
  unfold already_applied. cbn [set_docs applications].
  rewrite existsb_app. apply orb_true_iff. right. cbn [existsb].
  destruct (stored_application_fields e a i) as (_ & Hj & Hi & _).
  rewrite (field_eq_str _ _ _ _ Hj), (field_eq_str _ _ _ _ Hi).
  by rewrite !bool_decide_eq_true_2.
Qed.

(** X16.  Once [apply_for_job] has run for a job and an applicant, whether it
    stored the application or found one, and whatever it answered, an
    application for that job by that applicant is refused with 400 and
    writes nothing, after any sequence of requests served one after
    another in between. *)
Theorem second_application_refused a cover_letter i e e' db trace :
  let db' := run regex_i trace (apply_for_job regex_i a i e db).2 in
  apply_for_job regex_i (ApplicationCreate.mk (ApplicationCreate.job_id a) cover_letter)
                i e' db'
  = (HTTPException 400 "Already applied for this job", db').
Proof.
  intros db'. apply apply_for_job_conflict. cbn [ApplicationCreate.job_id].
  unfold db'.
  apply (run_invariant regex_i
           (λ db, already_applied (ApplicationCreate.job_id a) i db = true)).
  - intros r e0 db0. apply already_applied_handle.
  - apply already_applied_after.
Qed.

Lemma existsb_update_first (q p : doc → bool) f l :
  (∀ d, q (f d) = q d) → existsb q (Bson.update_first p f l) = existsb q l.
Proof.
  intros H. induction l as [|d l IH]; [done|]. cbn [Bson.update_first].
  destruct (p d); cbn [existsb]; [by rewrite H | by rewrite IH].
Qed.

(** A stored email stays stored under a request that keeps the emails. *)
Lemma email_taken_handle email r e db :
  keeps_emails r → email_taken email db = true →
  email_taken email (handle regex_i r e db).2 = true.
Proof.
  intros Hr Ht. rewrite handle_store.
  destruct r; cbn [written]; try exact Ht.
  - destruct (email_taken (UserCreate.email user_data) db); [exact Ht|].
    unfold email_taken in *. cbn [set_docs users]. by rewrite existsb_app, Ht.
  - destruct (lookup_id _ _); [|exact Ht].
    destruct Hr as [_ Hp]. unfold email_taken in *. cbn [set_docs users].
    rewrite existsb_update_first; [exact Ht|].
    intros d. unfold Bson.field_eq. by rewrite lookup_union, Hp, (left_id_L None _).
  - destruct (already_applied _ _ _); exact Ht.
Qed.

Lemma email_taken_after u e db :
  email_taken (UserCreate.email u) (register_user regex_i u e db).2 = true.
Proof.
  rewrite register_user_eq.
  destruct (email_taken (UserCreate.email u) db) eqn:Ha; [exact Ha|].
  unfold email_taken. cbn [snd set_docs users].
  rewrite existsb_app. apply orb_true_iff. right. cbn [existsb].
  destruct (stored_user_fields e u) as (_ & _ & He & _).
  rewrite (field_eq_str _ _ _ _ He). by rewrite bool_decide_eq_true_2.
Qed.

(** X17.  Once [register_user] has run for an email, whether it stored the user
    or found the email taken, a registration with that email is refused
    with 400 and writes nothing, after any sequence of requests served one
    after another in between in which every profile update names plain
    top-level fields only and does not set [email]. *)
Theorem second_registration_refused u password name user_type e e' db trace :
  Forall (λ er : env * request, keeps_emails er.2) trace →
  let db' := run regex_i trace (register_user regex_i u e db).2 in
  register_user regex_i (UserCreate.mk (UserCreate.email u) password name user_type) e' db'
  = (HTTPException 400 "Email already registered", db').
Proof.
  intros Htrace db'.
  assert (email_taken (UserCreate.email u) db' = true) as Ht.
  { unfold db'. generalize (email_taken_after u e db).
    generalize ((register_user regex_i u e db).2). clear db'.
    induction Htrace as [|[e0 r] trace Hr _ IH]; intros db0 H0; [exact H0|].
    cbn [run]. apply IH. by apply email_taken_handle. }
  rewrite register_user_eq. cbn [UserCreate.email]. by rewrite Ht.
Qed.

End JobFacts.

Lemma no_duplicate_applications_witness :
  NoDup (application_key <$> applications Demo.applied).
Proof.
  apply (no_duplicate_applications Regex.engine). by exists Demo.trace_applied.
Defined.

Lemma second_registration_refused_witness :
  let db' := run Regex.engine trace_between
                 (register_user Regex.engine Demo.ann (Demo.clock 0 "u-1") empty_store).2 in
  List.length (jobs db') = 1%nat ∧
  register_user Regex.engine (UserCreate.mk "ann@example.com" "0ther" "Ann Roe" "employer")
                (Demo.clock 5 "u-5") db'
  = (HTTPException 400 "Email already registered", db').
Proof.
  intros db'. split; [by_vm|].
  apply (second_registration_refused Regex.engine Demo.ann "0ther" "Ann Roe" "employer"
           (Demo.clock 0 "u-1") (Demo.clock 5 "u-5") empty_store trace_between).
  apply Forall_cons. split; [exact I|].
  apply Forall_cons. split; [|apply Forall_nil_2].
  split; [split|].
  - apply map_non_empty_singleton.
  - apply map_Forall_singleton. split; reflexivity.
  - by apply lookup_singleton_ne.
Defined.

(** ** The dashboards, and the size of a page *)

Lemma filter_and_true {A} (p q : A → bool) (l : list A) :
  Forall (λ x, q x = true) l → List.filter (λ x, p x && q x) l = List.filter p l.
Proof.
  intros H. apply List.filter_ext_in. intros x Hx.
  apply list_elem_of_In in Hx. rewrite (proj1 (Forall_forall _ _) H x Hx).
  apply andb_true_r.
Qed.

Lemma filter_and_false {A} (p q : A → bool) (l : list A) :
  Forall (λ x, q x = false) l → List.filter (λ x, p x && q x) l = [].
Proof.
  intros H. rewrite <- (filter_false l). apply List.filter_ext_in. intros x Hx.
  apply list_elem_of_In in Hx. rewrite (proj1 (Forall_forall _ _) H x Hx).
  apply andb_false_r.
Qed.

Lemma length_page s n (l : list doc) :
  (0 ≤ n)%Z →
  List.length (page s n l)
  = if (n =? 0)%Z then (List.length l - Z.to_nat s)%nat
    else Nat.min (Z.to_nat n) (List.length l - Z.to_nat s)%nat.
Proof.
  intros Hn. unfold page. destruct (n =? 0)%Z.
  - by rewrite length_drop.
  - destruct (Z.ltb_spec n 0) as [|_]; [lia|].
    by rewrite length_take, length_drop.
Qed.

Section Dashboards.

Variable regex_i : string → option (string → bool).

Lemma job_seeker_stats_eq user_id e db :
  get_dashboard_stats regex_i user_id "job_seeker" e db
  = (Ok {[ "total_applications" := Z.of_nat (List.length (user_applications user_id db));
           "pending" :=
             Z.of_nat (List.length
               (List.filter (λ a, Bson.field_eq a "applicant_id" (VStr user_id) &&
                                  Bson.field_eq a "status" (VStr "pending"))
                            (applications db)));
           "shortlisted" :=
             Z.of_nat (List.length
               (List.filter (λ a, Bson.field_eq a "applicant_id" (VStr user_id) &&
                                  Bson.field_eq a "status" (VStr "shortlisted"))
                            (applications db))) ]}, db).
Proof.
  unfold get_dashboard_stats.
  change (String.eqb "job_seeker" "job_seeker") with true. cbv iota.
  rewrite bind_eq, count_documents_eq1, bind_eq, count_documents_eq2.
  by rewrite bind_eq, count_documents_eq2.
Qed.

(** X19.  The dashboard of a job seeker counts the applications of the user;
    as no request changes the status of an application, in a store that
    the surface built all of them are pending and none is shortlisted.
    Nothing is written. *)
Theorem job_seeker_dashboard_counts user_id e db :
  reachable regex_i db →
  get_dashboard_stats regex_i user_id "job_seeker" e db
  = (Ok {[ "total_applications" := Z.of_nat (List.length (user_applications user_id db));
           "pending" := Z.of_nat (List.length (user_applications user_id db));
           "shortlisted" := 0%Z ]}, db).
Proof.
  intros Hreach. destruct (reachable_written regex_i db Hreach) as [_ Happs].
  rewrite job_seeker_stats_eq.
  rewrite filter_and_true, filter_and_false; [done| |].
  - eapply Forall_impl; [exact Happs|]. intros a Ha.
    destruct (application_written_pending a Ha) as [Hs _].
    by rewrite (field_eq_str _ _ _ _ Hs).
  - eapply Forall_impl; [exact Happs|]. intros a Ha.
    destruct (application_written_pending a Ha) as [Hs _].
    by rewrite (field_eq_str _ _ _ _ Hs).
Qed.

Lemma employer_stats_eq user_id user_type e db :
  String.eqb user_type "job_seeker" = false →
  reachable regex_i db →
  get_dashboard_stats regex_i user_id user_type e db
  = (Ok {[ "total_jobs" := Z.of_nat (List.length (employer_jobs user_id db));
           "active_jobs" := Z.of_nat (List.length (active_employer_jobs user_id db));
           "total_applications" :=
             Z.of_nat (List.length (employer_applications user_id db)) ]}, db).
Proof.
  intros Hne Hreach. destruct (reachable_written regex_i db Hreach) as [Hjobs Happs].
  assert (Forall (λ j : doc, is_Some (j !! "id")) (employer_jobs user_id db)) as Hids.
  { apply Forall_forall. intros j Hj. apply job_written_id.
    apply elem_of_filter_bool in Hj as [Hj _].
    by apply (proj1 (Forall_forall _ _) Hjobs). }
  assert (List.length (active_employer_jobs user_id db)
          = List.length (List.filter
              (λ d, Bson.field_eq d "employer_id" (VStr user_id) &&
                    Bson.field_eq d "status" (VStr "active")) (jobs db))) as Hactive.
  { unfold active_employer_jobs, employer_jobs. by rewrite filter_filter_and. }
  unfold get_dashboard_stats. rewrite Hne.
  rewrite bind_eq, count_documents_eq1, bind_eq, count_documents_eq2.
  rewrite bind_eq, to_list_find, select_eq1. cbn [docs].
  fold (employer_jobs user_id db).
  rewrite bind_eq, (for_each_getitem_id _ _ _ Hids), bind_eq.
  rewrite <- Hactive.
  destruct (job_ids (employer_jobs user_id db)) as [|v ids] eqn:Eids.
  - apply (job_ids_nil _ Hids) in Eids.
    unfold employer_applications, applied_to_employer. rewrite Eids. cbn [existsb].
    rewrite filter_false. reflexivity.
  - rewrite <- Eids. unfold count_documents.
    rewrite bind_eq, select_eq. cbn [compile_query compile mbind option_bind docs].
    assert (List.filter
              (λ d : doc, Bson.field_in d "job_id"
                            (job_ids (employer_jobs user_id db)) && true)
              (applications db)
            = employer_applications user_id db) as ->; [|reflexivity].
    unfold employer_applications.
    apply List.filter_ext_in. intros a Ha. rewrite andb_true_r.
    apply list_elem_of_In in Ha.
    destruct (application_written_job_id a
                (proj1 (Forall_forall _ _) Happs a Ha)) as [s Hs].
    by apply field_in_job_ids with s.
Qed.

(** X20.  Every user type other than [job_seeker], known or not, gets the
    dashboard of an employer; and as no request closes a job, in a store
    that the surface built the count of active jobs is the count of all
    jobs of the employer. *)
Theorem dashboard_of_any_other_type user_id user_type e db :
  user_type ≠ "job_seeker" →
  reachable regex_i db →
  get_dashboard_stats regex_i user_id user_type e db
  = (Ok {[ "total_jobs" := Z.of_nat (List.length (employer_jobs user_id db));
           "active_jobs" := Z.of_nat (List.length (employer_jobs user_id db));
           "total_applications" :=
             Z.of_nat (List.length (employer_applications user_id db)) ]}, db).
Proof.
  intros Hne Hreach.
  rewrite employer_stats_eq; [|by apply String.eqb_neq|done].
  assert (active_employer_jobs user_id db = employer_jobs user_id db) as ->; [|done].
  unfold active_employer_jobs.
  destruct (reachable_written regex_i db Hreach) as [Hjobs _].
  rewrite <- (List.filter_ext_in (λ _, true)).
  - clear. induction (employer_jobs user_id db) as [|x l IH]; [done|].
    cbn. by rewrite IH.
  - intros j Hj. apply list_elem_of_In, elem_of_filter_bool in Hj as [Hj _].
    destruct (job_written_active j (proj1 (Forall_forall _ _) Hjobs j Hj)) as [Hs _].
    by rewrite (field_eq_str _ _ _ _ Hs).
Qed.

(** X21.  The size of a page of [get_jobs].  A negative skip, or a skip or a
    limit beyond 64 bits, ends in an exception that nobody catches, with
    nothing written.  Otherwise, for a limit that is not negative, the
    page holds the matching jobs that are left after the skip, at most as
    many as the limit; the limit 0 is no limit at all. *)
Theorem get_jobs_page_size e db skip_ limit_ search location job_type :
  ((skip_ < 0 ∨ Bson.int64_max < skip_ ∨ Bson.int64_max < Z.abs limit_)%Z →
   get_jobs regex_i skip_ limit_ search location job_type e db = (Uncaught, db)) ∧
  (∀ listed,
     (0 ≤ limit_)%Z →
     (get_jobs regex_i skip_ limit_ search location job_type e db).1 = Ok listed →
     ∃ p, compile_query regex_i (jobs_query search location job_type) = Some p ∧
       let left := (List.length (List.filter p (jobs db)) - Z.to_nat skip_)%nat in
       List.length listed
       = if (limit_ =? 0)%Z then left else Nat.min (Z.to_nat limit_) left).
Proof.
  rewrite get_jobs_eq. split.
  - intros H. destruct (Z.ltb_spec skip_ 0) as [|Hs]; [done|].
    destruct (Z.ltb_spec Bson.int64_max skip_) as [|Hs']; [done|].
    destruct (Z.ltb_spec Bson.int64_max (Z.abs limit_)) as [|Hl]; [done|]. lia.
  - intros listed Hlimit H. destruct (skip_ <? 0)%Z; [done|]. destruct (_ || _); [done|].
    destruct (compile_query regex_i _) as [p|]; [|done]. exists p. split; [done|].
    cbn [fst] in H. destruct (mapM _ _) as [rs|] eqn:Hrs; [|done].
    injection H as ->. apply length_mapM in Hrs.
    rewrite <- Hrs, length_fmap, (length_page _ _ _ Hlimit).
    by rewrite (Permutation_length (sort_desc_perm "posted_at" _)).
Qed.

End Dashboards.

Lemma job_seeker_dashboard_counts_witness :
  get_dashboard_stats Regex.engine "u-1" "job_seeker" (Demo.clock 9 "-") Demo.applied
  = (Ok {[ "total_applications" := 1%Z; "pending" := 1%Z; "shortlisted" := 0%Z ]},
     Demo.applied).
Proof.
  rewrite (job_seeker_dashboard_counts Regex.engine "u-1" (Demo.clock 9 "-") Demo.applied).
  - by_vm.
  - by exists Demo.trace_applied.
Defined.

Lemma dashboard_of_any_other_type_witness :
  get_dashboard_stats Regex.engine "u-2" "recruiter" (Demo.clock 9 "-") Demo.applied
  = (Ok {[ "total_jobs" := 1%Z; "active_jobs" := 1%Z; "total_applications" := 1%Z ]},
     Demo.applied).
Proof.
  rewrite (dashboard_of_any_other_type Regex.engine "u-2" "recruiter" (Demo.clock 9 "-")
             Demo.applied).
  - by_vm.
  - discriminate.
  - by exists Demo.trace_applied.
Defined.

(** Of the two jobs Bob posted, a page of limit 1 lists one, and so does
    the page after a skip of 1 without limit. *)
Lemma get_jobs_page_size_witness :
  List.length (jobs two_jobs) = 2%nat ∧
  (∃ listed,
     (get_jobs Regex.engine 0 1 None None None (Demo.clock 9 "-") two_jobs).1 = Ok listed ∧
     List.length listed = 1%nat) ∧
  (∃ listed,
     (get_jobs Regex.engine 1 0 None None None (Demo.clock 9 "-") two_jobs).1 = Ok listed ∧
     List.length listed = 1%nat) ∧
  get_jobs Regex.engine (-1) 1 None None None (Demo.clock 9 "-") two_jobs
    = (Uncaught, two_jobs).
Proof.
  split; [by_vm|].
  assert (∀ p,
            compile_query Regex.engine (jobs_query None None None) = Some p →
            List.length (List.filter p (jobs two_jobs)) = 2%nat) as Hall.
  { intros p Hp.
    assert (compile_query Regex.engine (jobs_query None None None)
            = Some (λ d, Bson.field_eq d "status" (VStr "active") && true)) as E
      by reflexivity.
    rewrite E in Hp. injection Hp as <-. by_vm. }
  split_and!.
  - assert (∃ listed,
      (get_jobs Regex.engine 0 1 None None None (Demo.clock 9 "-") two_jobs).1 = Ok listed)
      as [listed E].
    { let r := eval vm_compute in
        (get_jobs Regex.engine 0 1 None None None (Demo.clock 9 "-") two_jobs).1 in
      lazymatch r with Ok ?l => exists l; by_vm end. }
    exists listed. split; [exact E|].
    destruct (proj2 (get_jobs_page_size Regex.engine (Demo.clock 9 "-") two_jobs
                       0 1 None None None) listed) as (p & Hp & Hlen); [done|exact E|].
    cbv zeta in Hlen. by rewrite (Hall p Hp) in Hlen.
  - assert (∃ listed,
      (get_jobs Regex.engine 1 0 None None None (Demo.clock 9 "-") two_jobs).1 = Ok listed)
      as [listed E].
    { let r := eval vm_compute in
        (get_jobs Regex.engine 1 0 None None None (Demo.clock 9 "-") two_jobs).1 in
      lazymatch r with Ok ?l => exists l; by_vm end. }
    exists listed. split; [exact E|].
    destruct (proj2 (get_jobs_page_size Regex.engine (Demo.clock 9 "-") two_jobs
                       1 0 None None None) listed) as (p & Hp & Hlen); [done|exact E|].
    cbv zeta in Hlen. by rewrite (Hall p Hp) in Hlen.
  - apply (proj1 (get_jobs_page_size Regex.engine (Demo.clock 9 "-") two_jobs
                    (-1) 1 None None None)). left. done.
Defined.

(** ** The listings of an employer's jobs and of applications *)

(** A loop whose body only reads: each result is that of the body run on
    the store as it was. *)
Lemma for_each_ok {A B} (f : A → M B) l e db rs :
  (∀ x, read_only (f x)) → (for_each f l e db).1 = Ok rs →
  Forall2 (λ x r, (f x e db).1 = Ok r) l rs.
Proof.
  intros Hf. revert rs. induction l as [|x l IH]; intros rs; cbn [for_each].
  - intros [= <-]. constructor.
  - rewrite bind_eq. pose proof (Hf x e db) as Hx.
    destruct (f x e db) as [[y| |] db1] eqn:Ex; cbn [snd] in Hx; subst; [|done|done].
    rewrite bind_eq.
    destruct (for_each f l e db) as [[ys| |] db2] eqn:El; [|done|done].
    intros [= <-]. constructor; [by rewrite Ex|]. by apply IH.
Qed.

Lemma Forall2_perm_elem {A B} (R : A → B → Prop) (P : A → Prop) l l' rs :
  Forall2 R l rs → l ≡ₚ l' → Forall P l' → Forall2 (λ x r, P x ∧ R x r) l rs.
Proof.
  intros H Hp HP. rewrite <- Hp in HP. clear Hp.
  induction H as [|x r l rs Hxr H IH]; [constructor|].
  apply Forall_cons in HP as [Hx HP]. constructor; [done|by apply IH].
Qed.

(** What the fields of a stored document become in a response. *)
Lemma response_str e (m : model) (kw r : doc) k :
  NoDup (fields m) → construct e m kw = Some r → In (Field k Str_ Required) m →
  ∃ s, kw !! k = Some (VStr s) ∧ r !! k = Some (VStr s).
Proof. intros Hm Hr Hk. apply (construct_str e m kw r k Hm Hr). by apply list_elem_of_In. Qed.

Lemma response_optional e (m : model) (kw r : doc) k :
  NoDup (fields m) → construct e m kw = Some r →
  In (Field k OptionalStr (Default VNull)) m →
  r !! k = Some (match kw !! k with Some v => v | None => VNull end).
Proof.
  intros Hm Hr Hk. apply list_elem_of_In in Hk.
  destruct (construct_lookup e m kw r Hm Hr _ Hk) as [Hv Hsome].
  cbn [name] in Hv, Hsome. rewrite <- Hv in Hsome |- *. revert Hsome.
  unfold field_value. cbn [name type_ default_].
  destruct (kw !! k) as [v|]; [|done].
  destruct v; cbn; (done || by intros []).
Qed.

Section Listings.

Variable regex_i : string → option (string → bool).

Lemma to_list_sorted c k f v e db :
  to_list regex_i (sort_desc k (find c [QEq f v])) e db
  = (Ok (Bson.sort_desc k (List.filter (λ d, Bson.field_eq d f v) (docs c db))), db).
Proof.
  unfold to_list, sort_desc, find. cbn [c_skip c_limit c_sort c_collection c_query].
  change ((Bson.int64_max <? 0)%Z || (Bson.int64_max <? Z.abs 0)%Z) with false.
  cbv iota. by rewrite bind_eq, select_eq1.
Qed.

Lemma get_employer_jobs_eq employer_id e db :
  get_employer_jobs regex_i employer_id e db
  = (match mapM (construct e JobResponse)
             (parse_from_mongo <$>
                Bson.sort_desc "posted_at" (employer_jobs employer_id db)) with
     | Some rs => Ok rs
     | None => Uncaught
     end, db).
Proof.
  unfold get_employer_jobs. rewrite bind_eq, to_list_sorted. cbn [docs].
  apply for_each_new_eq.
Qed.

(** X22.  The listing of an employer's jobs writes nothing, and a listing
    that is returned has one entry for every stored job of the employer,
    whatever its status, each with the id, the employer id and the status
    of that job. *)
Theorem get_employer_jobs_lists_all employer_id e db :
  (get_employer_jobs regex_i employer_id e db).2 = db ∧
  (∀ listed, (get_employer_jobs regex_i employer_id e db).1 = Ok listed →
     ∃ stored, stored ≡ₚ employer_jobs employer_id db ∧
       Forall2 (λ j r : doc,
                  construct e JobResponse (parse_from_mongo j) = Some r ∧
                  r !! "employer_id" = Some (VStr employer_id) ∧
                  r !! "id" = j !! "id" ∧ r !! "status" = j !! "status")
               stored listed).
Proof.
  rewrite get_employer_jobs_eq. split; [done|]. cbn [fst].
  intros listed H.
  destruct (mapM _ _) as [rs|] eqn:Hrs; [|done]. injection H as ->.
  exists (Bson.sort_desc "posted_at" (employer_jobs employer_id db)).
  split; [apply sort_desc_perm|].
  apply mapM_Some, Forall2_fmap_l in Hrs.
  eapply Forall2_impl.
  { apply (Forall2_perm_elem _
             (λ j, Bson.field_eq j "employer_id" (VStr employer_id) = true)
             _ _ _ Hrs (sort_desc_perm "posted_at" _)).
    apply Forall_forall. intros j Hj. by apply elem_of_filter_bool in Hj as [_ Hj]. }
  intros j r [Hj Hr]. cbn in Hr. split; [exact Hr|].
  destruct (view_of_stored e JobResponse j r "employer_id" NoDup_JobResponse Hr)
    as (s & Hs & Hv); [apply list_elem_of_In; cbn; tauto|].
  destruct (view_of_stored e JobResponse j r "id" NoDup_JobResponse Hr)
    as (s1 & Hs1 & Hv1); [apply list_elem_of_In; cbn; tauto|].
  destruct (view_of_stored e JobResponse j r "status" NoDup_JobResponse Hr)
    as (s2 & Hs2 & Hv2); [apply list_elem_of_In; cbn; tauto|].
  rewrite (field_eq_str _ _ _ _ Hs) in Hj. apply bool_decide_eq_true in Hj.
  split_and!; congruence.
Qed.

Lemma add_job_details_ok job data data' e db :
  (∀ j, job = Some j → dict_truthy j = true) →
  (add_job_details job data e db).1 = Ok data' →
  data' = match job with
          | Some _ => <["company" := enrich job "company"]>
                        (<["job_title" := enrich job "title"]> data)
          | None => data
          end.
Proof.
  intros Ht. unfold add_job_details. destruct job as [j|]; [|by intros [= <-]].
  rewrite (Ht j eq_refl), bind_eq, getitem_eq. cbn [enrich].
  destruct (j !! "title") as [t|]; [|done].
  rewrite bind_eq, getitem_eq. destruct (j !! "company") as [c|]; [|done].
  by intros [= <-].
Qed.

Lemma add_applicant_details_ok applicant data data' e db :
  (∀ u, applicant = Some u → dict_truthy u = true) →
  (add_applicant_details applicant data e db).1 = Ok data' →
  data' = match applicant with
          | Some _ => <["applicant_name" := enrich applicant "name"]> data
          | None => data
          end.
Proof.
  intros Ht. unfold add_applicant_details. destruct applicant as [u|]; [|by intros [= <-]].
  rewrite (Ht u eq_refl), bind_eq, getitem_eq. cbn [enrich].
  destruct (u !! "name") as [n|]; [|done].
  by intros [= <-].
Qed.

Lemma application_written_keys d :
  application_written d →
  d !! "status" = Some (VStr "pending") ∧
  d !! "job_title" = None ∧ d !! "company" = None ∧ d !! "applicant_name" = None.
Proof.
  intros (e & a & i & ->).
  split; [apply (stored_application_fields e a i)|].
  unfold prepare_for_mongo. rewrite !lookup_fmap.
  assert (application_object e a i !! "job_title" = None) as -> by by_vm.
  assert (application_object e a i !! "company" = None) as -> by by_vm.
  assert (application_object e a i !! "applicant_name" = None) as -> by by_vm.
  done.
Qed.

Lemma parse_lookup_str (d : doc) k s :
  parse_from_mongo d !! k = Some (VStr s) → d !! k = Some (VStr s).
Proof.
  unfold parse_from_mongo. rewrite lookup_fmap.
  destruct (d !! k) as [v|]; [|done]. cbn. intros [= H].
  by rewrite (parse_value_is_str v s H).
Qed.

Lemma parse_lookup_none (d : doc) k :
  d !! k = None → parse_from_mongo d !! k = None.
Proof. intros H. unfold parse_from_mongo. by rewrite lookup_fmap, H. Qed.

Lemma head_filter_truthy l k s j :
  head (List.filter (λ d, Bson.field_eq d k (VStr s)) l) = Some j → dict_truthy j = true.
Proof.
  intros H. pose proof (head_filter (λ d, Bson.field_eq d k (VStr s)) l) as Hh.
  rewrite H in Hh. destruct Hh as [Hj _]. by apply field_eq_truthy in Hj.
Qed.

(** X23.  The listing of the applications of a user, in a store that the
    surface built: one entry for every stored application of the user,
    each with the id and the job id of that application, the user as the
    applicant and the status pending; the title and the company are those
    of the first stored job with the job id, or null when there is none;
    the name of the applicant is never filled in. *)
Theorem get_user_applications_lists_own user_id e db listed :
  reachable regex_i db →
  (get_user_applications regex_i user_id e db).1 = Ok listed →
  ∃ stored, stored ≡ₚ user_applications user_id db ∧
    Forall2 (λ a r : doc,
               r !! "id" = a !! "id" ∧
               r !! "applicant_id" = Some (VStr user_id) ∧
               r !! "status" = Some (VStr "pending") ∧
               r !! "applicant_name" = Some VNull ∧
               ∃ job_id, a !! "job_id" = Some (VStr job_id) ∧
                 r !! "job_id" = Some (VStr job_id) ∧
                 r !! "job_title" = Some (enrich (lookup_id (jobs db) job_id) "title") ∧
                 r !! "company" = Some (enrich (lookup_id (jobs db) job_id) "company"))
            stored listed.
Proof.
  intros Hreach. destruct (reachable_written regex_i db Hreach) as [_ Happs].
  unfold get_user_applications. rewrite bind_eq, to_list_sorted. cbn [docs].
  fold (user_applications user_id db). intros H.
  apply for_each_ok in H.
  2:{ intros app. apply read_only_bind; [apply read_only_getitem|]. intros v.
      apply read_only_bind; [apply read_only_find_one|]. intros job.
      apply read_only_bind; [apply read_only_add_job_details|]. intros data.
      apply read_only_new. }
  apply Forall2_fmap_l in H.
  exists (Bson.sort_desc "applied_at" (user_applications user_id db)).
  split; [apply sort_desc_perm|].
  eapply Forall2_impl.
  { apply (Forall2_perm_elem _
             (λ a, application_written a ∧
                   Bson.field_eq a "applicant_id" (VStr user_id) = true)
             _ _ _ H (sort_desc_perm "applied_at" _)).
    apply Forall_forall. intros a Ha. apply elem_of_filter_bool in Ha as [Ha Hu].
    split; [|done]. by apply (proj1 (Forall_forall _ _) Happs). }
  clear H. intros a r [[Hw Hu] Hr]. unfold compose in Hr.
  destruct (application_written_keys a Hw) as (Hstatus & Htitle & Hcompany & Hname).
  rewrite bind_eq, getitem_eq in Hr.
  destruct (parse_from_mongo a !! "job_id") as [v|] eqn:Hv; [|done].
  rewrite bind_eq, find_one_eq1 in Hr. cbn [docs] in Hr. rewrite bind_eq in Hr.
  destruct (add_job_details _ _ e db) as [[data| |] db1] eqn:Hdata; [|done|done].
  pose proof (read_only_add_job_details
    (head (List.filter (λ d, Bson.field_eq d "id" v) (jobs db)))
    (parse_from_mongo a) e db) as Hro.
  rewrite Hdata in Hro. cbn [snd] in Hro. subst db1.
  rewrite new_eq in Hr. cbn [fst] in Hr.
  destruct (construct e ApplicationResponse data) as [r'|] eqn:Hc; [|done].
  injection Hr as ->.
  (* the fields of the response that must be strings *)
  assert (∀ k, k ≠ "company" → k ≠ "job_title" →
            data !! k = parse_from_mongo a !! k) as Hsame.
  { intros k H1 H2. revert Hdata. unfold add_job_details.
    destruct (head _) as [j|]; [|by intros [= <-]].
    destruct (dict_truthy j); [|by intros [= <-]].
    rewrite bind_eq, getitem_eq. destruct (j !! "title"); [|done].
    rewrite bind_eq, getitem_eq. destruct (j !! "company"); [|done].
    intros [= <-]. by rewrite !lookup_insert_ne. }
  assert (∀ k, In (Field k Str_ Required) ApplicationResponse →
            ∃ s, a !! k = Some (VStr s) ∧ r !! k = Some (VStr s)) as Hstr.
  { intros k Hk.
    destruct (response_str e _ _ _ k NoDup_ApplicationResponse Hc Hk) as (s & Hs & Hrs).
    exists s. split; [|done]. apply parse_lookup_str. rewrite <- Hsame; [done| |];
      intros ->; cbn in Hk; intuition discriminate. }
  destruct (Hstr "id") as (s0 & Ha0 & Hr0); [cbn; tauto|].
  destruct (Hstr "applicant_id") as (s1 & Ha1 & Hr1); [cbn; tauto|].
  destruct (Hstr "status") as (s2 & Ha2 & Hr2); [cbn; tauto|].
  destruct (Hstr "job_id") as (s3 & Ha3 & Hr3); [cbn; tauto|].
  rewrite (field_eq_str _ _ _ _ Ha1) in Hu. apply bool_decide_eq_true in Hu. subst s1.
  split; [congruence|]. split; [done|]. split; [congruence|]. split.
  { rewrite (response_optional e _ _ _ "applicant_name" NoDup_ApplicationResponse Hc)
      by (cbn; tauto).
    rewrite Hsame by done. by rewrite (parse_lookup_none _ _ Hname). }
  exists s3. split; [done|]. split; [done|].
  assert (v = VStr s3) as ->.
  { destruct (response_str e _ _ _ "job_id" NoDup_ApplicationResponse Hc)
      as (s & Hs & Hrs); [cbn; tauto|].
    rewrite Hsame, Hv in Hs by done. congruence. }
  fold (lookup_id (jobs db) s3) in Hdata.
  assert (data = match lookup_id (jobs db) s3 with
                 | Some _ => <["company" := enrich (lookup_id (jobs db) s3) "company"]>
                               (<["job_title" := enrich (lookup_id (jobs db) s3) "title"]>
                                  (parse_from_mongo a))
                 | None => parse_from_mongo a
                 end) as Hd.
  { apply (add_job_details_ok _ _ _ e db); [|by rewrite Hdata].
    intros j Hj. by apply lookup_id_truthy in Hj. }
  rewrite (response_optional e _ _ _ "job_title" NoDup_ApplicationResponse Hc)
    by (cbn; tauto).
  rewrite (response_optional e _ _ _ "company" NoDup_ApplicationResponse Hc)
    by (cbn; tauto).
  rewrite Hd. destruct (lookup_id (jobs db) s3) as [j|].
  - rewrite lookup_insert_ne, !lookup_insert_eq by done. done.
  - by rewrite (parse_lookup_none _ _ Htitle), (parse_lookup_none _ _ Hcompany).
Qed.

Lemma add_job_details_other job data data' e db k :
  (add_job_details job data e db).1 = Ok data' →
  k ≠ "company" → k ≠ "job_title" → data' !! k = data !! k.
Proof.
  intros H H1 H2. revert H. unfold add_job_details.
  destruct job as [j|]; [|by intros [= <-]].
  destruct (dict_truthy j); [|by intros [= <-]].
  rewrite bind_eq, getitem_eq. destruct (j !! "title"); [|done].
  rewrite bind_eq, getitem_eq. destruct (j !! "company"); [|done].
  intros [= <-]. by rewrite !lookup_insert_ne.
Qed.

Lemma add_applicant_details_other applicant data data' e db k :
  (add_applicant_details applicant data e db).1 = Ok data' →
  k ≠ "applicant_name" → data' !! k = data !! k.
Proof.
  intros H H1. revert H. unfold add_applicant_details.
  destruct applicant as [u|]; [|by intros [= <-]].
  destruct (dict_truthy u); [|by intros [= <-]].
  rewrite bind_eq, getitem_eq. destruct (u !! "name"); [|done].
  intros [= <-]. by rewrite lookup_insert_ne.
Qed.

(** X24.  The listing of the applications for a job, in a store that the
    surface built: one entry for every stored application for the job,
    each with the id and the applicant of that application and the status
    pending; the title and the company are those of the first stored job
    with the id, or null when the job is not stored; the name is that of
    the first stored user with the id of the applicant, or null when there
    is none. *)
Theorem get_job_applications_lists_all job_id e db listed :
  reachable regex_i db →
  (get_job_applications regex_i job_id e db).1 = Ok listed →
  ∃ stored, stored ≡ₚ job_applications job_id db ∧
    Forall2 (λ a r : doc,
               r !! "id" = a !! "id" ∧
               r !! "job_id" = Some (VStr job_id) ∧
               r !! "status" = Some (VStr "pending") ∧
               r !! "job_title" = Some (enrich (lookup_id (jobs db) job_id) "title") ∧
               r !! "company" = Some (enrich (lookup_id (jobs db) job_id) "company") ∧
               ∃ applicant_id, a !! "applicant_id" = Some (VStr applicant_id) ∧
                 r !! "applicant_id" = Some (VStr applicant_id) ∧
                 r !! "applicant_name"
                   = Some (enrich (lookup_id (users db) applicant_id) "name"))
            stored listed.
Proof.
  intros Hreach. destruct (reachable_written regex_i db Hreach) as [_ Happs].
  unfold get_job_applications. rewrite bind_eq, to_list_sorted. cbn [docs].
  fold (job_applications job_id db). intros H.
  apply for_each_ok in H.
  2:{ intros app. apply read_only_bind; [apply read_only_getitem|]. intros v.
      apply read_only_bind; [apply read_only_find_one|]. intros applicant.
      apply read_only_bind; [apply read_only_find_one|]. intros job.
      apply read_only_bind; [apply read_only_add_applicant_details|]. intros d1.
      apply read_only_bind; [apply read_only_add_job_details|]. intros d2.
      apply read_only_new. }
  apply Forall2_fmap_l in H.
  exists (Bson.sort_desc "applied_at" (job_applications job_id db)).
  split; [apply sort_desc_perm|].
  eapply Forall2_impl.
  { apply (Forall2_perm_elem _
             (λ a, application_written a ∧
                   Bson.field_eq a "job_id" (VStr job_id) = true)
             _ _ _ H (sort_desc_perm "applied_at" _)).
    apply Forall_forall. intros a Ha. apply elem_of_filter_bool in Ha as [Ha Hu].
    split; [|done]. by apply (proj1 (Forall_forall _ _) Happs). }
  clear H. intros a r [[Hw Hu] Hr]. unfold compose in Hr.
  destruct (application_written_keys a Hw) as (Hstatus & Htitle & Hcompany & Hname).
  rewrite bind_eq, getitem_eq in Hr.
  destruct (parse_from_mongo a !! "applicant_id") as [v|] eqn:Hv; [|done].
  rewrite bind_eq, find_one_eq1 in Hr. cbn [docs] in Hr.
  rewrite bind_eq, find_one_eq1 in Hr. cbn [docs] in Hr.
  fold (lookup_id (jobs db) job_id) in Hr. rewrite bind_eq in Hr.
  destruct (add_applicant_details _ _ e db) as [[d1| |] db1] eqn:Hd1; [|done|done].
  pose proof (read_only_add_applicant_details
    (head (List.filter (λ d, Bson.field_eq d "id" v) (users db)))
    (parse_from_mongo a) e db) as Hro.
  rewrite Hd1 in Hro. cbn [snd] in Hro. subst db1.
  rewrite bind_eq in Hr.
  destruct (add_job_details _ _ e db) as [[d2| |] db2] eqn:Hd2; [|done|done].
  pose proof (read_only_add_job_details (lookup_id (jobs db) job_id) d1 e db) as Hro.
  rewrite Hd2 in Hro. cbn [snd] in Hro. subst db2.
  rewrite new_eq in Hr. cbn [fst] in Hr.
  destruct (construct e ApplicationResponse d2) as [r'|] eqn:Hc; [|done].
  injection Hr as ->.
  assert (∀ k, k ≠ "company" → k ≠ "job_title" → k ≠ "applicant_name" →
            d2 !! k = parse_from_mongo a !! k) as Hsame.
  { intros k H1 H2 H3.
    rewrite (add_job_details_other _ _ _ e db k) by (by rewrite ?Hd2).
    by rewrite (add_applicant_details_other _ _ _ e db k) by (by rewrite ?Hd1). }
  assert (∀ k, In (Field k Str_ Required) ApplicationResponse →
            ∃ s, a !! k = Some (VStr s) ∧ r !! k = Some (VStr s)) as Hstr.
  { intros k Hk.
    destruct (response_str e _ _ _ k NoDup_ApplicationResponse Hc Hk) as (s & Hs & Hrs).
    exists s. split; [|done]. apply parse_lookup_str. rewrite <- Hsame; [done| | |];
      intros ->; cbn in Hk; intuition discriminate. }
  destruct (Hstr "id") as (s0 & Ha0 & Hr0); [cbn; tauto|].
  destruct (Hstr "applicant_id") as (s1 & Ha1 & Hr1); [cbn; tauto|].
  destruct (Hstr "status") as (s2 & Ha2 & Hr2); [cbn; tauto|].
  destruct (Hstr "job_id") as (s3 & Ha3 & Hr3); [cbn; tauto|].
  rewrite (field_eq_str _ _ _ _ Ha3) in Hu. apply bool_decide_eq_true in Hu. subst s3.
  assert (v = VStr s1) as ->.
  { destruct (response_str e _ _ _ "applicant_id" NoDup_ApplicationResponse Hc)
      as (s & Hs & Hrs); [cbn; tauto|].
    rewrite Hsame, Hv in Hs by done. congruence. }
  fold (lookup_id (users db) s1) in Hd1.
  assert (d1 = match lookup_id (users db) s1 with
               | Some _ => <["applicant_name" := enrich (lookup_id (users db) s1) "name"]>
                             (parse_from_mongo a)
               | None => parse_from_mongo a
               end) as Hd1'.
  { apply (add_applicant_details_ok _ _ _ e db); [|by rewrite Hd1].
    intros u Hu. by apply lookup_id_truthy in Hu. }
  assert (d2 = match lookup_id (jobs db) job_id with
               | Some _ => <["company" := enrich (lookup_id (jobs db) job_id) "company"]>
                             (<["job_title" := enrich (lookup_id (jobs db) job_id) "title"]>
                                d1)
               | None => d1
               end) as Hd2'.
  { apply (add_job_details_ok _ _ _ e db); [|by rewrite Hd2].
    intros j Hj. by apply lookup_id_truthy in Hj. }
  split; [congruence|]. split; [done|]. split; [congruence|].
  rewrite (response_optional e _ _ _ "job_title" NoDup_ApplicationResponse Hc)
    by (cbn; tauto).
  rewrite (response_optional e _ _ _ "company" NoDup_ApplicationResponse Hc)
    by (cbn; tauto).
  split; [|split].
  - rewrite Hd2'. destruct (lookup_id (jobs db) job_id) as [j|].
    + by rewrite lookup_insert_ne, lookup_insert_eq.
    + rewrite (add_applicant_details_other _ _ _ e db "job_title") by (by rewrite ?Hd1).
      by rewrite (parse_lookup_none _ _ Htitle).
  - rewrite Hd2'. destruct (lookup_id (jobs db) job_id) as [j|].
    + by rewrite lookup_insert_eq.
    + rewrite (add_applicant_details_other _ _ _ e db "company") by (by rewrite ?Hd1).
      by rewrite (parse_lookup_none _ _ Hcompany).
  - exists s1. split; [done|]. split; [done|].
    rewrite (response_optional e _ _ _ "applicant_name" NoDup_ApplicationResponse Hc)
      by (cbn; tauto).
    rewrite (add_job_details_other _ _ _ e db "applicant_name") by (by rewrite ?Hd2).
    rewrite Hd1'. destruct (lookup_id (users db) s1) as [u|].
    + by rewrite lookup_insert_eq.
    + by rewrite (parse_lookup_none _ _ Hname).
Qed.

End Listings.

Lemma get_user_applications_lists_own_witness :
  ∃ stored, stored ≡ₚ user_applications "u-1" Demo.applied ∧
    Forall2 (λ a r : doc,
               r !! "id" = a !! "id" ∧
               r !! "applicant_id" = Some (VStr "u-1") ∧
               r !! "status" = Some (VStr "pending") ∧
               r !! "applicant_name" = Some VNull ∧
               ∃ job_id, a !! "job_id" = Some (VStr job_id) ∧
                 r !! "job_id" = Some (VStr job_id) ∧
                 r !! "job_title"
                   = Some (enrich (lookup_id (jobs Demo.applied) job_id) "title") ∧
                 r !! "company"
                   = Some (enrich (lookup_id (jobs Demo.applied) job_id) "company"))
            stored
            [application_response (Demo.clock 3 "a-1") Demo.apply_welder "u-1"
               (VStr "Welder") (VStr "Acme") VNull].
Proof.
  apply (get_user_applications_lists_own Regex.engine "u-1" (Demo.clock 9 "-")).
  - by exists Demo.trace_applied.
  - by_vm.
Defined.

Lemma get_job_applications_lists_all_witness :
  ∃ stored, stored ≡ₚ job_applications "j-1" Demo.applied ∧
    Forall2 (λ a r : doc,
               r !! "id" = a !! "id" ∧
               r !! "job_id" = Some (VStr "j-1") ∧
               r !! "status" = Some (VStr "pending") ∧
               r !! "job_title"
                 = Some (enrich (lookup_id (jobs Demo.applied) "j-1") "title") ∧
               r !! "company"
                 = Some (enrich (lookup_id (jobs Demo.applied) "j-1") "company") ∧
               ∃ applicant_id, a !! "applicant_id" = Some (VStr applicant_id) ∧
                 r !! "applicant_id" = Some (VStr applicant_id) ∧
                 r !! "applicant_name"
                   = Some (enrich (lookup_id (users Demo.applied) applicant_id) "name"))
            stored
            [application_response (Demo.clock 3 "a-1") Demo.apply_welder "u-1"
               (VStr "Welder") (VStr "Acme") (VStr "Ann Lee")].
Proof.
  apply (get_job_applications_lists_all Regex.engine "j-1" (Demo.clock 9 "-")).
  - by exists Demo.trace_applied.
  - by_vm.
Defined.

(** ** Distinct emails, and the allowed origins *)

Section Emails.

Variable regex_i : string → option (string → bool).

(** X18.  A request other than a profile update that is served from its
    start to its end with no other request in between keeps the emails of
    the stored users distinct; a profile update can set any email. *)
Theorem emails_stay_distinct r e db :
  updates_profile r = false →
  NoDup (emails db) → NoDup (emails (handle regex_i r e db).2).
Proof.
  intros Hr Hdb. rewrite handle_store.
  destruct r; cbn [written]; try exact Hdb; try discriminate Hr.
  - destruct (email_taken _ _) eqn:Ht; [exact Hdb|].
    unfold emails. cbn [set_docs users]. rewrite fmap_app. apply NoDup_app.
    split; [exact Hdb|]. split; [|apply NoDup_singleton].
    intros key Hkey Hnew. apply list_elem_of_fmap in Hkey as (d & -> & Hd).
    apply list_elem_of_singleton in Hnew.
    destruct (stored_user_fields e user_data) as (_ & _ & He & _).
    rewrite He in Hnew. unfold email_taken in Ht.
    pose proof (existsb_false_elem _ _ _ Ht Hd) as Hf. cbn beta in Hf.
    rewrite (field_eq_str _ _ _ _ Hnew) in Hf. by rewrite bool_decide_eq_true_2 in Hf.
  - by destruct (already_applied _ _ _).
Qed.

End Emails.

Lemma emails_stay_distinct_witness :
  NoDup (emails (handle Regex.engine (Register Demo.bob) (Demo.clock 1 "u-2")
                   (register_user Regex.engine Demo.ann (Demo.clock 0 "u-1")
                      empty_store).2).2).
Proof.
  apply emails_stay_distinct; [reflexivity|].
  apply (emails_stay_distinct Regex.engine (Register Demo.ann) (Demo.clock 0 "u-1")
           empty_store); [reflexivity|constructor].
Defined.

Lemma split_char_cons sep s : ∃ x rest, split_char sep s = x :: rest.
Proof.
  destruct s as [|c s]; [by eexists _, _|]. cbn [split_char].
  destruct (Ascii.eqb c sep); [by eexists _, _|].
  destruct (split_char sep s); by eexists _, _.
Qed.

Lemma join_cons sep x y rest :
  join sep (x :: y :: rest) = x +:+ sep +:+ join sep (y :: rest).
Proof. reflexivity. Qed.

Lemma join_split_char sep s : join (String sep "") (split_char sep s) = s.
Proof.
  induction s as [|c s IH]; [done|]. cbn [split_char].
  destruct (split_char_cons sep s) as (x & rest & Hs). rewrite Hs in IH |- *.
  destruct (Ascii.eqb_spec c sep) as [->|Hc].
  - rewrite join_cons, IH. reflexivity.
  - rewrite <- IH. destruct rest as [|y rest]; [done|].
    by rewrite !join_cons.
Qed.

Lemma split_char_no_sep sep s :
  Forall (λ x, Str.contains_char sep x = false) (split_char sep s).
Proof.
  induction s as [|c s IH]; [by repeat constructor|]. cbn [split_char].
  destruct (Ascii.eqb sep c) eqn:Hc.
  - apply Ascii.eqb_eq in Hc as <-. rewrite Ascii.eqb_refl. by constructor.
  - rewrite Ascii.eqb_sym, Hc.
    destruct (split_char sep s) as [|x rest]; [by repeat constructor; cbn; rewrite Hc|].
    apply Forall_cons in IH as [Hx Hrest]. constructor; [|done].
    cbn [Str.contains_char]. by rewrite Hc.
Qed.

(** X28.  The allowed origins are the pieces of [CORS_ORIGINS] between its
    commas, kept as they are written, spaces included: joined by commas
    they give the variable back.  There is always at least one origin:
    when the variable is not set it is the wildcard, and when it is set to
    the empty text it is the empty origin. *)
Theorem allow_origins_split (environ : gmap string string) :
  join "," (allow_origins environ)
    = match environ !! "CORS_ORIGINS" with Some v => v | None => "*" end ∧
  Forall (λ o, Str.contains_char "," o = false) (allow_origins environ) ∧
  allow_origins environ ≠ [] ∧
  (environ !! "CORS_ORIGINS" = None → allow_origins environ = ["*"]) ∧
  (environ !! "CORS_ORIGINS" = Some "" → allow_origins environ = [""]).
Proof.
  unfold allow_origins. split_and!.
  - apply join_split_char.
  - apply split_char_no_sep.
  - by destruct (split_char_cons ","
                  match environ !! "CORS_ORIGINS" with Some v => v | None => "*" end)
      as (x & rest & ->).
  - by intros ->.
  - by intros ->.
Qed.

(** ** Reading back what was created, on concrete requests *)

Lemma get_job_after_create_job_witness :
  get_job Regex.engine "j-1" (Demo.clock 9 "-")
    (create_job Demo.welder "u-2" (Demo.clock 2 "j-1") empty_store).2
  = (Ok (delete "expires_at" (job_object (Demo.clock 2 "j-1") Demo.welder "u-2")),
     (create_job Demo.welder "u-2" (Demo.clock 2 "j-1") empty_store).2).
Proof.
  assert (utc_clock (Demo.clock 2 "j-1")) as Hclock by (split; reflexivity).
  assert (job_reads_back "j-1" "u-2" Demo.welder) as Hback.
  { unfold job_reads_back. change (reads_back_opt (JobCreate.salary_range Demo.welder))
      with (reads_back "40k"). unfold reads_back. split_and!; by_vm. }
  pose proof (get_job_after_create_job Regex.engine (Demo.clock 2 "j-1") (Demo.clock 9 "-")
                Demo.welder "u-2" empty_store Hclock Hback eq_refl) as H.
  cbv zeta in H. exact (proj2 H).
Defined.

Lemma login_after_register_witness :
  login_user Regex.engine (UserLogin.mk "ann@example.com" "s3cret") (Demo.clock 9 "-")
    (register_user Regex.engine Demo.ann (Demo.clock 0 "u-1") empty_store).2
  = (Ok (delete "resume" (delete "password" (user_object (Demo.clock 0 "u-1") Demo.ann))),
     (register_user Regex.engine Demo.ann (Demo.clock 0 "u-1") empty_store).2).
Proof.
  assert (utc_clock (Demo.clock 0 "u-1")) as Hclock by (split; reflexivity).
  assert (user_reads_back "u-1" Demo.ann) as Hback.
  { unfold user_reads_back, reads_back. split_and!; by_vm. }
  pose proof (login_after_register Regex.engine (Demo.clock 0 "u-1") (Demo.clock 9 "-")
                Demo.ann empty_store Hclock Hback eq_refl) as H.
  cbv zeta in H. exact (proj2 H).
Defined.

(** ** Timestamps as text are ordered as the times *)

Module StampFacts.
Local Open Scope Z_scope.

Lemma then_by_assoc c1 c2 c3 : then_by (then_by c1 c2) c3 = then_by c1 (then_by c2 c3).
Proof. by destruct c1. Qed.

Lemma then_by_eq_l c : then_by Eq c = c.
Proof. done. Qed.

(** Two digits, the first weighing [B]. *)
Lemma then_by_compare a1 a2 b1 b2 B :
  0 ≤ b1 < B → 0 ≤ b2 < B →
  then_by (a1 ?= a2) (b1 ?= b2) = (a1 * B + b1 ?= a2 * B + b2).
Proof.
  intros H1 H2. unfold then_by.
  destruct (Z.compare_spec a1 a2) as [->|H|H]; symmetry.
  - destruct (Z.compare_spec b1 b2) as [->|H|H].
    + apply Z.compare_refl.
    + apply Z.compare_lt_iff. lia.
    + apply Z.compare_gt_iff. lia.
  - apply Z.compare_lt_iff. nia.
  - apply Z.compare_gt_iff. nia.
Qed.

Lemma compare_cons c1 c2 s1 s2 :
  String.compare (String c1 s1) (String c2 s2)
  = then_by (Ascii.compare c1 c2) (String.compare s1 s2).
Proof. cbn [String.compare]. by destruct (Ascii.compare c1 c2). Qed.

Lemma compare_refl s : String.compare s s = Eq.
Proof.
  induction s as [|c s IH]; [done|]. rewrite compare_cons, IH.
  unfold Ascii.compare. by rewrite N.compare_refl.
Qed.

(** Texts that begin with pieces of the same length are compared piece
    by piece. *)
Lemma compare_append a a' s s' :
  String.length a = String.length a' →
  String.compare (a +:+ s) (a' +:+ s')
  = then_by (String.compare a a') (String.compare s s').
Proof.
  revert a'. induction a as [|c a IH]; intros [|c' a'] Hl; try done.
  rewrite !append_cons, !compare_cons, then_by_assoc. f_equal.
  apply IH. by injection Hl.
Qed.

Lemma compare_append_same a s s' :
  String.compare (a +:+ s) (a +:+ s') = String.compare s s'.
Proof. by rewrite compare_append, compare_refl. Qed.

Lemma length_append a b :
  String.length (a +:+ b) = (String.length a + String.length b)%nat.
Proof. induction a as [|c a IH]; [done|]. rewrite append_cons. cbn. by rewrite IH. Qed.

Lemma length_pad k n : String.length (Iso.pad k n) = k.
Proof.
  revert n. induction k as [|k IH]; intros n; [done|]. cbn [Iso.pad].
  rewrite length_append, IH. cbn. lia.
Qed.

Lemma compare_digit n m :
  Ascii.compare (Iso.digit_char n) (Iso.digit_char m) = (n mod 10 ?= m mod 10).
Proof.
  unfold Iso.digit_char.
  destruct (IsoFacts.digit_cases n) as [E|[E|[E|[E|[E|[E|[E|[E|[E|E]]]]]]]]]; rewrite E;
  destruct (IsoFacts.digit_cases m) as [F|[F|[F|[F|[F|[F|[F|[F|[F|F]]]]]]]]]; rewrite F;
  reflexivity.
Qed.

(** Numbers of the same width are ordered as their texts. *)
Lemma compare_pad k n m :
  0 ≤ n < 10 ^ Z.of_nat k → 0 ≤ m < 10 ^ Z.of_nat k →
  String.compare (Iso.pad k n) (Iso.pad k m) = (n ?= m).
Proof.
  revert n m. induction k as [|k IH]; intros n m Hn Hm.
  - cbn in Hn, Hm. assert (n = 0) as -> by lia. assert (m = 0) as -> by lia. done.
  - cbn [Iso.pad]. rewrite compare_append by by rewrite !length_pad.
    rewrite compare_cons, compare_digit. cbn [String.compare].
    assert (10 ^ Z.of_nat (S k) = 10 * 10 ^ Z.of_nat k) as Hp.
    { rewrite Nat2Z.inj_succ, Z.pow_succ_r; lia. }
    rewrite Hp in Hn, Hm.
    rewrite IH by (split; [apply Z.div_pos; lia|apply Z.div_lt_upper_bound; lia]).
    assert (then_by (n mod 10 ?= m mod 10) Eq = (n mod 10 ?= m mod 10)) as ->.
    { by destruct (n mod 10 ?= m mod 10). }
    rewrite (then_by_compare _ _ _ _ 10) by (apply Z.mod_pos_bound; lia).
    f_equal; rewrite Z.mul_comm; symmetry; apply Z.div_mod; lia.
Qed.

Lemma then_by_eq_r c : then_by c Eq = c.
Proof. by destruct c. Qed.

(** The fraction of the second and the offset: no fraction is written for
    a whole second, and the sign of the offset comes before the point. *)
Lemma compare_fraction us1 us2 :
  0 ≤ us1 < 1000000 → 0 ≤ us2 < 1000000 →
  String.compare
    ((if us1 =? 0 then "" else "." +:+ Iso.pad 6 us1) +:+ "+00:00")
    ((if us2 =? 0 then "" else "." +:+ Iso.pad 6 us2) +:+ "+00:00")
  = (us1 ?= us2).
Proof.
  intros H1 H2.
  destruct (Z.eqb_spec us1 0) as [->|N1]; destruct (Z.eqb_spec us2 0) as [->|N2].
  - apply compare_refl.
  - change ("" +:+ "+00:00") with (String "+" "00:00").
    change ("." +:+ Iso.pad 6 us2) with (String "." (Iso.pad 6 us2)).
    rewrite append_cons, compare_cons. change (Ascii.compare "+" ".") with Lt.
    symmetry. apply Z.compare_lt_iff. lia.
  - change ("" +:+ "+00:00") with (String "+" "00:00").
    change ("." +:+ Iso.pad 6 us1) with (String "." (Iso.pad 6 us1)).
    rewrite append_cons, compare_cons. change (Ascii.compare "." "+") with Gt.
    symmetry. apply Z.compare_gt_iff. lia.
  - rewrite !append_assoc, compare_append_same.
    rewrite compare_append by by rewrite !length_pad.
    rewrite compare_refl, then_by_eq_r. by apply (compare_pad 6).
Qed.

(** The texts [isoformat] writes for two valid times in UTC are ordered
    as the times. *)
Lemma compare_isoformat d1 d2 :
  Iso.valid d1 = true → utcoffset d1 = Some 0 →
  Iso.valid d2 = true → utcoffset d2 = Some 0 →
  String.compare (Iso.isoformat d1) (Iso.isoformat d2) = (stamp d1 ?= stamp d2).
Proof.
  destruct d1 as [y1 mo1 dd1 h1 mi1 s1 us1 o1], d2 as [y2 mo2 dd2 h2 mi2 s2 us2 o2].
  intros V1 O1 V2 O2. cbn in O1, O2. subst o1 o2.
  apply IsoFacts.valid_bounds in V1, V2.
  unfold Iso.isoformat, stamp.
  cbn [year month day hour minute second microsecond utcoffset].
  change (Iso.format_offset (Some 0)) with "+00:00".
  rewrite compare_append by by rewrite !length_pad. rewrite compare_append_same.
  rewrite compare_append by by rewrite !length_pad. rewrite compare_append_same.
  rewrite compare_append by by rewrite !length_pad. rewrite compare_append_same.
  rewrite compare_append by by rewrite !length_pad. rewrite compare_append_same.
  rewrite compare_append by by rewrite !length_pad. rewrite compare_append_same.
  rewrite compare_append by by rewrite !length_pad.
  rewrite compare_fraction by lia.
  rewrite (compare_pad 4) by (change (10 ^ Z.of_nat 4) with 10000; lia).
  rewrite !(compare_pad 2) by (change (10 ^ Z.of_nat 2) with 100; lia).
  rewrite <- !then_by_assoc.
  rewrite (then_by_compare _ _ _ _ 100) by lia.
  rewrite (then_by_compare _ _ _ _ 100) by lia.
  rewrite (then_by_compare _ _ _ _ 100) by lia.
  rewrite (then_by_compare _ _ _ _ 100) by lia.
  rewrite (then_by_compare _ _ _ _ 100) by lia.
  by rewrite (then_by_compare _ _ _ _ 1000000) by lia.
Qed.

Lemma ltb_isoformat d1 d2 :
  Iso.valid d1 = true → utcoffset d1 = Some 0 →
  Iso.valid d2 = true → utcoffset d2 = Some 0 →
  String.ltb (Iso.isoformat d1) (Iso.isoformat d2) = (stamp d1 <? stamp d2).
Proof.
  intros. unfold String.ltb, Z.ltb. by rewrite compare_isoformat.
Qed.

End StampFacts.

(** ** The listings are ordered, the newest entry first *)

Lemma ordered_lookup {A} (R : A → A → Prop) l i j x y :
  ordered R l → (i < j)%nat → l !! i = Some x → l !! j = Some y → R x y.
Proof.
  revert i j. induction l as [|z l IH]; intros i j Ho Hij Hi Hj; [done|].
  destruct Ho as [Hz Ho]. destruct j as [|j]; [lia|]. cbn in Hj.
  destruct i as [|i]; cbn in Hi.
  - injection Hi as ->. apply (proj1 (Forall_forall _ _) Hz).
    by apply list_elem_of_lookup_2 in Hj.
  - apply (IH i j); [done|lia|done|done].
Qed.

Lemma ordered_Forall2 {A B} (R : A → A → Prop) (R' : B → B → Prop) (Q : A → B → Prop) l l' :
  ordered R l → Forall2 Q l l' →
  (∀ a b a' b', R a b → Q a a' → Q b b' → R' a' b') → ordered R' l'.
Proof.
  intros Ho H Himp. induction H as [|x y l l' Hxy H IH]; [done|].
  destruct Ho as [Hx Ho]. split; [|by apply IH].
  clear IH Ho. induction H as [|a b l l' Hab H IH]; [constructor|].
  apply Forall_cons in Hx as [Ha Hx]. constructor; [by eapply Himp|by apply IH].
Qed.

Lemma ordered_drop {A} (R : A → A → Prop) n l : ordered R l → ordered R (drop n l).
Proof.
  revert n. induction l as [|x l IH]; intros [|n] Ho; try done.
  cbn. apply IH, Ho.
Qed.

Lemma ordered_take {A} (R : A → A → Prop) n l : ordered R l → ordered R (take n l).
Proof.
  revert n. induction l as [|x l IH]; intros [|n] Ho; try done.
  destruct Ho as [Hx Ho]. cbn. split; [by apply Forall_take|by apply IH].
Qed.

Lemma ordered_page (R : doc → doc → Prop) s n l : ordered R l → ordered R (page s n l).
Proof.
  intros Ho. unfold page. destruct (n =? 0)%Z; [by apply ordered_drop|].
  destruct (n <? 0)%Z; by apply ordered_take, ordered_drop.
Qed.

(** The insertion sort of the store, for documents whose keys are ordered
    as a number [w] of theirs. *)
Lemma insert_desc_ordered k (w : doc → Z) (P : doc → Prop) x l :
  (∀ a b, P a → P b →
     Bson.key_lt (Bson.sort_key a k) (Bson.sort_key b k) = (w a <? w b)%Z) →
  P x → Forall P l →
  ordered (λ a b, (w b ≤ w a)%Z) l →
  ordered (λ a b, (w b ≤ w a)%Z) (Bson.insert_desc k x l).
Proof.
  intros Hkey Hx. induction l as [|y l IH]; intros HP Ho; [by split|].
  apply Forall_cons in HP as [Hy HP]. destruct Ho as [Hyl Ho].
  cbn [Bson.insert_desc]. rewrite (Hkey x y Hx Hy).
  destruct (Z.ltb_spec (w x) (w y)) as [Hlt|Hge].
  - split; [|by apply IH].
    rewrite (insert_desc_perm k x l). constructor; [lia|done].
  - split; [|by split]. constructor; [done|].
    eapply Forall_impl; [exact Hyl|]. cbn. intros b Hb. lia.
Qed.

Lemma sort_desc_ordered k (w : doc → Z) (P : doc → Prop) l :
  (∀ a b, P a → P b →
     Bson.key_lt (Bson.sort_key a k) (Bson.sort_key b k) = (w a <? w b)%Z) →
  Forall P l → ordered (λ a b, (w b ≤ w a)%Z) (Bson.sort_desc k l).
Proof.
  intros Hkey HP. induction HP as [|x l Hx HP IH]; [done|].
  cbn [Bson.sort_desc foldr]. apply (insert_desc_ordered k w P); [done|done| |exact IH].
  fold (Bson.sort_desc k l). by rewrite (sort_desc_perm k l).
Qed.

(** A document that carries in the field [k] the text of a valid time in
    UTC. *)
Lemma stored_stamp_isoformat k (d : doc) t :
  Iso.valid t = true → utcoffset t = Some 0%Z →
  d !! k = Some (VStr (Iso.isoformat t)) → stored_stamp k d = stamp t.
Proof.
  intros Hv Ho Hd. unfold stored_stamp.
  by rewrite Hd, (IsoFacts.fromisoformat_isoformat t Hv Ho).
Qed.

Lemma key_lt_stamps k (a b : doc) :
  (∃ t, Iso.valid t = true ∧ utcoffset t = Some 0%Z ∧
        a !! k = Some (VStr (Iso.isoformat t))) →
  (∃ t, Iso.valid t = true ∧ utcoffset t = Some 0%Z ∧
        b !! k = Some (VStr (Iso.isoformat t))) →
  Bson.key_lt (Bson.sort_key a k) (Bson.sort_key b k)
  = (stored_stamp k a <? stored_stamp k b)%Z.
Proof.
  intros (ta & Va & Oa & Ha) (tb & Vb & Ob & Hb).
  rewrite (stored_stamp_isoformat k a ta Va Oa Ha).
  rewrite (stored_stamp_isoformat k b tb Vb Ob Hb).
  unfold Bson.sort_key. rewrite Ha, Hb. unfold Bson.key_lt.
  change (2 <? 2)%Z with false. change (2 =? 2)%Z with true.
  change (0 <? 0)%Z with false. cbn [orb andb].
  rewrite andb_false_r, orb_false_r.
  by apply StampFacts.ltb_isoformat.
Qed.

Lemma response_datetime e (m : model) (kw r : doc) k t :
  NoDup (fields m) → construct e m kw = Some r → In (Field k Datetime Required) m →
  kw !! k = Some (VDate t) → r !! k = Some (VDate t).
Proof.
  intros Hm Hr Hk Hkw. apply list_elem_of_In in Hk.
  destruct (construct_lookup e m kw r Hm Hr _ Hk) as [Hv _].
  cbn [name] in Hv. rewrite <- Hv. unfold field_value. cbn [name type_ default_].
  by rewrite Hkw.
Qed.

Lemma parse_lookup_isoformat (d : doc) k t :
  Iso.valid t = true → utcoffset t = Some 0%Z →
  d !! k = Some (VStr (Iso.isoformat t)) → parse_from_mongo d !! k = Some (VDate t).
Proof.
  intros Hv Ho Hd. unfold parse_from_mongo.
  by rewrite lookup_fmap, Hd, <- (IsoFacts.parse_value_isoformat t Hv Ho).
Qed.

Lemma job_written_at_posted d :
  job_written_at d →
  ∃ t, Iso.valid t = true ∧ utcoffset t = Some 0%Z ∧
       d !! "posted_at" = Some (VStr (Iso.isoformat t)).
Proof.
  intros (e & j & i & [Hv Ho] & ->). exists (now e).
  split; [done|]. split; [done|]. apply stored_job_posted_at.
Qed.

Lemma application_written_at_applied d :
  application_written_at d →
  ∃ t, Iso.valid t = true ∧ utcoffset t = Some 0%Z ∧
       d !! "applied_at" = Some (VStr (Iso.isoformat t)).
Proof.
  intros (e & a & i & [Hv Ho] & ->). exists (now e).
  split; [done|]. split; [done|].
  assert (application_object e a i !! "applied_at" = Some (VDate (now e))) as H by by_vm.
  unfold prepare_for_mongo. by rewrite lookup_fmap, H.
Qed.

Lemma Forall_sort_desc (P : doc → Prop) k l :
  Forall P (Bson.sort_desc k l) ↔ Forall P l.
Proof. by rewrite (sort_desc_perm k l). Qed.

Section Order.

Variable regex_i : string → option (string → bool).

Lemma reachable_utc_written db :
  reachable_utc regex_i db →
  Forall job_written_at (jobs db) ∧ Forall application_written_at (applications db).
Proof.
  intros (trace & Htrace & <-).
  assert (∀ db, Forall job_written_at (jobs db) ∧
                Forall application_written_at (applications db) →
                Forall job_written_at (jobs (run regex_i trace db)) ∧
                Forall application_written_at (applications (run regex_i trace db))) as H.
  { induction Htrace as [|[e r] trace He Htrace IH]; intros db Hdb; [done|].
    cbn [run]. apply IH. rewrite handle_store. destruct Hdb as [Hj Ha].
    destruct r; cbn [written]; try (by split).
    - by destruct (email_taken _ _).
    - by destruct (lookup_id _ _).
    - cbn [set_docs jobs applications]. split; [|done].
      apply Forall_app. split; [done|]. constructor; [|done].
      by exists e, job_data, employer_id.
    - destruct (already_applied _ _ _); [by split|].
      cbn [set_docs jobs applications]. split; [done|].
      apply Forall_app. split; [done|]. constructor; [|done].
      by exists e, application_data, applicant_id. }
  apply H. by split.
Qed.

(** The stored jobs in the order of the listing, with the responses built
    from them. *)
Lemma jobs_newest_first e (stored listed : list doc) :
  Forall job_written_at stored →
  mapM (construct e JobResponse) (parse_from_mongo <$> stored) = Some listed →
  ordered (λ a b, (stored_stamp "posted_at" b ≤ stored_stamp "posted_at" a)%Z) stored →
  newest_first "posted_at" listed.
Proof.
  intros Hw Hl Ho. apply mapM_Some, Forall2_fmap_l in Hl.
  assert (Forall2 (λ j r : doc, ∃ t, stored_stamp "posted_at" j = stamp t ∧
                                     r !! "posted_at" = Some (VDate t)) stored listed) as H.
  { eapply Forall2_impl.
    { apply (Forall2_perm_elem _ job_written_at _ stored _ Hl); [reflexivity|exact Hw]. }
    intros j r [Hj Hr]. unfold compose in Hr.
    destruct (job_written_at_posted j Hj) as (t & Hv & Hoff & Ht).
    exists t. split; [by apply stored_stamp_isoformat|].
    apply (response_datetime e JobResponse (parse_from_mongo j) r);
      [apply NoDup_JobResponse|done|cbn; tauto|].
    by apply parse_lookup_isoformat. }
  assert (ordered (λ r1 r2 : doc, ∃ t1 t2, r1 !! "posted_at" = Some (VDate t1) ∧
                                          r2 !! "posted_at" = Some (VDate t2) ∧
                                          (stamp t2 ≤ stamp t1)%Z) listed) as Hsorted.
  { apply (ordered_Forall2 _ _ _ _ _ Ho H).
    intros a b a' b' Hab (ta & Hta & Ha) (tb & Htb & Hb).
    exists ta, tb. split; [done|]. split; [done|]. lia. }
  intros i j r1 r2 Hij H1 H2. exact (ordered_lookup _ listed i j r1 r2 Hsorted Hij H1 H2).
Qed.

Lemma jobs_sorted_by_stamp (l : list doc) :
  Forall job_written_at l →
  ordered (λ a b, (stored_stamp "posted_at" b ≤ stored_stamp "posted_at" a)%Z)
          (Bson.sort_desc "posted_at" l).
Proof.
  intros Hl. apply (sort_desc_ordered _ _ job_written_at); [|done].
  intros a b Ha Hb. apply key_lt_stamps; by apply job_written_at_posted.
Qed.

(** X25.  In a store built through the surface with clocks that give valid
    times in UTC, the listing of an employer's jobs and every page of
    [get_jobs] are in the order of [posted_at], the newest job first:
    the order of the stored texts is that of the times. *)
Theorem job_listings_newest_first db :
  reachable_utc regex_i db →
  (∀ employer_id e listed,
     (get_employer_jobs regex_i employer_id e db).1 = Ok listed →
     newest_first "posted_at" listed) ∧
  (∀ skip_ limit_ search location job_type e listed,
     (get_jobs regex_i skip_ limit_ search location job_type e db).1 = Ok listed →
     newest_first "posted_at" listed).
Proof.
  intros Hreach. destruct (reachable_utc_written db Hreach) as [Hjobs _]. split.
  - intros employer_id e listed. rewrite get_employer_jobs_eq. cbn [fst].
    destruct (mapM _ _) as [rs|] eqn:Hrs; [|done]. intros [= <-].
    assert (Forall job_written_at (employer_jobs employer_id db)) as Hw.
    { apply Forall_forall. intros j Hj. apply elem_of_filter_bool in Hj as [Hj _].
      by apply (proj1 (Forall_forall _ _) Hjobs). }
    apply (jobs_newest_first e _ _ (proj2 (Forall_sort_desc _ _ _) Hw) Hrs).
    by apply jobs_sorted_by_stamp.
  - intros skip_ limit_ search location job_type e listed. rewrite get_jobs_eq.
    destruct (skip_ <? 0)%Z; [done|]. destruct (_ || _); [done|].
    destruct (compile_query regex_i _) as [p|]; [|done]. cbn [fst].
    destruct (mapM _ _) as [rs|] eqn:Hrs; [|done]. intros [= <-].
    assert (Forall job_written_at (List.filter p (jobs db))) as Hw.
    { apply Forall_forall. intros j Hj. apply elem_of_filter_bool in Hj as [Hj _].
      by apply (proj1 (Forall_forall _ _) Hjobs). }
    apply (jobs_newest_first e (page skip_ limit_
             (Bson.sort_desc "posted_at" (List.filter p (jobs db)))) _); [|exact Hrs|].
    + apply Forall_forall. intros j Hj. apply elem_of_page in Hj.
      by apply (proj1 (Forall_forall _ _) (proj2 (Forall_sort_desc _ "posted_at" _) Hw)).
    + by apply ordered_page, jobs_sorted_by_stamp.
Qed.

End Order.

Lemma job_listings_newest_first_witness :
  newest_first "posted_at"
    [delete "expires_at" (job_object (Demo.clock 5 "j-2") fitter "u-2");
     DemoViews.welder_view].
Proof.
  assert (reachable_utc Regex.engine two_jobs) as Hreach.
  { exists trace_two_jobs. split; [|reflexivity].
    unfold utc_trace, trace_two_jobs, Demo.trace_posted. cbn [app].
    repeat (constructor; [split; reflexivity|]). constructor. }
  destruct (job_listings_newest_first Regex.engine two_jobs Hreach) as [H _].
  apply (H "u-2" (Demo.clock 9 "-")). by_vm.
Defined.

(** Responses built from stored documents that carry the text of a valid
    time in UTC, in the order of the store's sort. *)
Lemma newest_first_of_stored k (P : doc → Prop) (stored listed : list doc) :
  (∀ d, P d → ∃ t, Iso.valid t = true ∧ utcoffset t = Some 0%Z ∧
                   d !! k = Some (VStr (Iso.isoformat t))) →
  Forall P stored →
  Forall2 (λ a r : doc, ∀ t, parse_from_mongo a !! k = Some (VDate t) →
                             r !! k = Some (VDate t)) stored listed →
  ordered (λ a b, (stored_stamp k b ≤ stored_stamp k a)%Z) stored →
  newest_first k listed.
Proof.
  intros HP Hw Hl Ho.
  assert (Forall2 (λ j r : doc, ∃ t, stored_stamp k j = stamp t ∧
                                     r !! k = Some (VDate t)) stored listed) as H.
  { eapply Forall2_impl.
    { apply (Forall2_perm_elem _ P _ stored _ Hl); [reflexivity|exact Hw]. }
    intros j r [Hj Hr]. cbn beta in Hr.
    destruct (HP j Hj) as (t & Hv & Hoff & Ht).
    exists t. split; [by apply stored_stamp_isoformat|].
    apply Hr. by apply parse_lookup_isoformat. }
  assert (ordered (λ r1 r2 : doc, ∃ t1 t2, r1 !! k = Some (VDate t1) ∧
                                          r2 !! k = Some (VDate t2) ∧
                                          (stamp t2 ≤ stamp t1)%Z) listed) as Hsorted.
  { apply (ordered_Forall2 _ _ _ _ _ Ho H).
    intros a b a' b' Hab (ta & Hta & Ha) (tb & Htb & Hb).
    exists ta, tb. split; [done|]. split; [done|]. lia. }
  intros i j r1 r2 Hij H1 H2. exact (ordered_lookup _ listed i j r1 r2 Hsorted Hij H1 H2).
Qed.

Lemma applications_sorted_by_stamp (l : list doc) :
  Forall application_written_at l →
  ordered (λ a b, (stored_stamp "applied_at" b ≤ stored_stamp "applied_at" a)%Z)
          (Bson.sort_desc "applied_at" l).
Proof.
  intros Hl. apply (sort_desc_ordered _ _ application_written_at); [|done].
  intros a b Ha Hb. apply key_lt_stamps; by apply application_written_at_applied.
Qed.

Section OrderOfApplications.

Variable regex_i : string → option (string → bool).

(** X26.  In a store built through the surface with clocks that give valid
    times in UTC, the listing of a user's applications and the listing of
    the applications for a job are in the order of [applied_at], the
    newest application first. *)
Theorem application_listings_newest_first db :
  reachable_utc regex_i db →
  (∀ user_id e listed,
     (get_user_applications regex_i user_id e db).1 = Ok listed →
     newest_first "applied_at" listed) ∧
  (∀ job_id e listed,
     (get_job_applications regex_i job_id e db).1 = Ok listed →
     newest_first "applied_at" listed).
Proof.
  intros Hreach. destruct (reachable_utc_written regex_i db Hreach) as [_ Happs]. split.
  - intros user_id e listed.
    unfold get_user_applications. rewrite bind_eq, to_list_sorted. cbn [docs].
    fold (user_applications user_id db). intros H.
    apply for_each_ok in H.
    2:{ intros app. apply read_only_bind; [apply read_only_getitem|]. intros v.
        apply read_only_bind; [apply read_only_find_one|]. intros job.
        apply read_only_bind; [apply read_only_add_job_details|]. intros data.
        apply read_only_new. }
    apply Forall2_fmap_l in H.
    assert (Forall application_written_at (user_applications user_id db)) as Hw.
    { apply Forall_forall. intros a Ha. apply elem_of_filter_bool in Ha as [Ha _].
      by apply (proj1 (Forall_forall _ _) Happs). }
    apply (newest_first_of_stored "applied_at" application_written_at
             (Bson.sort_desc "applied_at" (user_applications user_id db)));
      [apply application_written_at_applied|by apply Forall_sort_desc|
      |by apply applications_sorted_by_stamp].
    eapply Forall2_impl; [exact H|]. clear H.
    intros a r Hr t Ht. unfold compose in Hr.
    rewrite bind_eq, getitem_eq in Hr.
    destruct (parse_from_mongo a !! "job_id") as [v|]; [|done].
    rewrite bind_eq, find_one_eq1 in Hr. cbn [docs] in Hr. rewrite bind_eq in Hr.
    destruct (add_job_details _ _ e db) as [[data| |] db1] eqn:Hdata; [|done|done].
    pose proof (read_only_add_job_details
      (head (List.filter (λ d, Bson.field_eq d "id" v) (jobs db)))
      (parse_from_mongo a) e db) as Hro.
    rewrite Hdata in Hro. cbn [snd] in Hro. subst db1.
    rewrite new_eq in Hr. cbn [fst] in Hr.
    destruct (construct e ApplicationResponse data) as [r'|] eqn:Hc; [|done].
    injection Hr as ->.
    apply (response_datetime e ApplicationResponse data r);
      [apply NoDup_ApplicationResponse|done|cbn; tauto|].
    by rewrite (add_job_details_other _ _ _ e db "applied_at") by (by rewrite ?Hdata).
  - intros job_id e listed.
    unfold get_job_applications. rewrite bind_eq, to_list_sorted. cbn [docs].
    fold (job_applications job_id db). intros H.
    apply for_each_ok in H.
    2:{ intros app. apply read_only_bind; [apply read_only_getitem|]. intros v.
        apply read_only_bind; [apply read_only_find_one|]. intros applicant.
        apply read_only_bind; [apply read_only_find_one|]. intros job.
        apply read_only_bind; [apply read_only_add_applicant_details|]. intros d1.
        apply read_only_bind; [apply read_only_add_job_details|]. intros d2.
        apply read_only_new. }
    apply Forall2_fmap_l in H.
    assert (Forall application_written_at (job_applications job_id db)) as Hw.
    { apply Forall_forall. intros a Ha. apply elem_of_filter_bool in Ha as [Ha _].
      by apply (proj1 (Forall_forall _ _) Happs). }
    apply (newest_first_of_stored "applied_at" application_written_at
             (Bson.sort_desc "applied_at" (job_applications job_id db)));
      [apply application_written_at_applied|by apply Forall_sort_desc|
      |by apply applications_sorted_by_stamp].
    eapply Forall2_impl; [exact H|]. clear H.
    intros a r Hr t Ht. unfold compose in Hr.
    rewrite bind_eq, getitem_eq in Hr.
    destruct (parse_from_mongo a !! "applicant_id") as [v|]; [|done].
    rewrite bind_eq, find_one_eq1 in Hr. cbn [docs] in Hr.
    rewrite bind_eq, find_one_eq1 in Hr. cbn [docs] in Hr. rewrite bind_eq in Hr.
    destruct (add_applicant_details _ _ e db) as [[d1| |] db1] eqn:Hd1; [|done|done].
    pose proof (read_only_add_applicant_details
      (head (List.filter (λ d, Bson.field_eq d "id" v) (users db)))
      (parse_from_mongo a) e db) as Hro.
    rewrite Hd1 in Hro. cbn [snd] in Hro. subst db1.
    rewrite bind_eq in Hr.
    destruct (add_job_details _ _ e db) as [[d2| |] db2] eqn:Hd2; [|done|done].
    pose proof (read_only_add_job_details
      (head (List.filter (λ d, Bson.field_eq d "id" (VStr job_id)) (jobs db)))
      d1 e db) as Hro.
    rewrite Hd2 in Hro. cbn [snd] in Hro. subst db2.
    rewrite new_eq in Hr. cbn [fst] in Hr.
    destruct (construct e ApplicationResponse d2) as [r'|] eqn:Hc; [|done].
    injection Hr as ->.
    apply (response_datetime e ApplicationResponse d2 r);
      [apply NoDup_ApplicationResponse|done|cbn; tauto|].
    rewrite (add_job_details_other _ _ _ e db "applied_at") by (by rewrite ?Hd2).
    by rewrite (add_applicant_details_other _ _ _ e db "applied_at") by (by rewrite ?Hd1).
Qed.

End OrderOfApplications.

Lemma application_listings_newest_first_witness :
  newest_first "applied_at"
    [application_response (Demo.clock 7 "a-2") (ApplicationCreate.mk "j-2" None) "u-1"
       (VStr "Fitter") (VStr "Acme") VNull;
     application_response (Demo.clock 6 "a-1") (ApplicationCreate.mk "j-1" None) "u-1"
       (VStr "Welder") (VStr "Acme") VNull].
Proof.
  assert (reachable_utc Regex.engine two_applications) as Hreach.
  { exists trace_two_applications. split; [|reflexivity].
    unfold utc_trace, trace_two_applications, trace_two_jobs, Demo.trace_posted.
    cbn [app]. repeat (constructor; [split; reflexivity|]). constructor. }
  destruct (application_listings_newest_first Regex.engine two_applications Hreach)
    as [H _].
  apply (H "u-1" (Demo.clock 9 "-")). by_vm.
Defined.

(** ** A search text that is no regular expression *)

Section Rejected.

Variable regex_i : string → option (string → bool).

Lemma compile_query_rejected q1 k s q2 :
  regex_i s = None → compile_query regex_i (q1 ++ QRegex k s :: q2) = None.
Proof.
  intros Hs. induction q1 as [|c q1 IH]; cbn [app compile_query].
  - cbn [compile]. by rewrite Hs.
  - rewrite IH. by destruct (compile regex_i c).
Qed.

(** X27.  The search and the location are handed to the store as regular
    expressions, as they were typed: when one of them is not empty and
    the store rejects it as a pattern, the listing ends in an exception
    that nobody catches, whatever the other parameters, and nothing is
    written. *)
Theorem get_jobs_rejected_pattern e db skip_ limit_ search location job_type s :
  Str.truthy s = true → regex_i s = None →
  search = Some s ∨ location = Some s →
  get_jobs regex_i skip_ limit_ search location job_type e db = (Uncaught, db).
Proof.
  intros Ht Hs Hor. rewrite get_jobs_eq.
  destruct (skip_ <? 0)%Z; [done|]. destruct (_ || _); [done|].
  assert (compile_query regex_i (jobs_query search location job_type) = None) as ->; [|done].
  unfold jobs_query. destruct Hor as [-> | ->].
  - rewrite Ht. cbn [app compile_query compile mbind option_bind]. by rewrite Hs.
  - rewrite Ht. cbn [app].
    exact (compile_query_rejected (QEq "status" (VStr "active") :: _) "location" s _ Hs).
Qed.

End Rejected.

Lemma get_jobs_rejected_pattern_witness :
  get_jobs Regex.engine 0 20 (Some "(") None None (Demo.clock 9 "-") Demo.posted
  = (Uncaught, Demo.posted).
Proof.
  apply (get_jobs_rejected_pattern Regex.engine _ _ _ _ _ _ _ "(");
    [reflexivity|reflexivity|by left].
Defined.

(** ** Two requests at a time: the checks do not exclude each other *)

Lemma not_NoDup_twice {A} (l : list A) x : ¬ NoDup (l ++ [x; x]).
Proof.
  intros H. apply NoDup_app in H as (_ & _ & H).
  apply NoDup_cons in H as [H _]. apply H, list_elem_of_here.
Qed.

Section Races.

Variable regex_i : string → option (string → bool).

Lemma register_user_after_fresh u x e db :
  found x = false →
  register_user_after u x e db
  = (Ok (delete "resume" (delete "password" (user_object e u))),
     mk_store (users db ++ [prepare_for_mongo (user_object e u)])
              (jobs db) (applications db)).
Proof.
  intros Hx. unfold register_user_after. rewrite Hx.
  rewrite bind_eq, new_eq, new_User, bind_eq. unfold insert_one.
  by rewrite new_eq, new_UserResponse.
Qed.

(** X29.  The check of the email does not exclude a second registration that
    is under way.  [register_user] is its check followed by the rest; when
    two registrations with the same email, which no stored user has, both
    have their check answered before either goes on, both return their
    view and both users are stored, so that two stored users carry the
    same email. *)
Theorem concurrent_registrations_both_stored u1 u2 e1 e2 db :
  UserCreate.email u1 = UserCreate.email u2 →
  email_taken (UserCreate.email u1) db = false →
  register_user regex_i u1 = register_user_check regex_i u1 ≫= register_user_after u1 ∧
  let after :=
    mk_store (users db ++ [prepare_for_mongo (user_object e1 u1);
                           prepare_for_mongo (user_object e2 u2)])
             (jobs db) (applications db) in
  both_checked (register_user_check regex_i u1) (register_user_check regex_i u2)
               (register_user_after u1) (register_user_after u2) e1 e2 db
  = (Ok (delete "resume" (delete "password" (user_object e1 u1))),
     Ok (delete "resume" (delete "password" (user_object e2 u2))),
     after) ∧
  ¬ NoDup (emails after).
Proof.
  intros Hsame Hnew. split; [reflexivity|]. intros after. split.
  - unfold both_checked, register_user_check.
    rewrite !find_one_eq1. cbn [fst snd resume docs].
    rewrite register_user_after_fresh.
    + cbn [fst snd]. rewrite register_user_after_fresh.
      * cbn [fst snd users jobs applications]. unfold after. by rewrite <- app_assoc.
      * rewrite found_head_filter, <- Hsame. exact Hnew.
    + rewrite found_head_filter. exact Hnew.
  - unfold after, emails. cbn [users].
    rewrite fmap_app. cbn [fmap list_fmap].
    destruct (stored_user_fields e1 u1) as (_ & _ & He1 & _).
    destruct (stored_user_fields e2 u2) as (_ & _ & He2 & _).
    rewrite He1, He2, Hsame. apply not_NoDup_twice.
Qed.

Lemma apply_for_job_after_fresh e a i x db :
  let job := lookup_id (jobs db) (ApplicationCreate.job_id a) in
  let applicant := lookup_id (users db) i in
  found x = false →
  (∀ j, job = Some j → str_or_null j "title" ∧ str_or_null j "company") →
  (∀ u, applicant = Some u → str_or_null u "name") →
  apply_for_job_after regex_i a i x e db =
    (Ok (application_response e a i
           (enrich job "title") (enrich job "company") (enrich applicant "name")),
     mk_store (users db) (jobs db)
       (applications db ++ [prepare_for_mongo (application_object e a i)])).
Proof.
  intros job applicant Hx Hj Hu.
  unfold apply_for_job_after. rewrite Hx.
  rewrite bind_eq, new_eq, new_Application, bind_eq. unfold insert_one.
  rewrite bind_eq, find_one_eq1, bind_eq, find_one_eq1.
  cbn [docs set_docs jobs users].
  fold (lookup_id (jobs db) (ApplicationCreate.job_id a)).
  fold (lookup_id (users db) i). fold job applicant.
  rewrite bind_eq, add_job_details_stored;
    [|intros j E; destruct (Hj j E); split; by apply str_or_null_is_Some].
  rewrite bind_eq, add_applicant_details_stored;
    [|intros u E; by apply str_or_null_is_Some, Hu].
  rewrite new_eq.
  by rewrite (new_ApplicationResponse_enriched e a i job applicant Hj Hu).
Qed.

(** X30.  The check of the earlier application does not exclude a second
    application that is under way.  [apply_for_job] is its check followed
    by the rest; when two applications for the same job by the same
    applicant, none being stored for them, both have their check answered
    before either goes on, and the fields read of the job and of the
    applicant that are looked up hold strings or null, both return their
    response and both applications are stored, so that two stored
    applications are for the same job by the same applicant. *)
Theorem concurrent_applications_both_stored a1 a2 i e1 e2 db :
  let job := lookup_id (jobs db) (ApplicationCreate.job_id a1) in
  let applicant := lookup_id (users db) i in
  ApplicationCreate.job_id a1 = ApplicationCreate.job_id a2 →
  already_applied (ApplicationCreate.job_id a1) i db = false →
  (∀ j, job = Some j → str_or_null j "title" ∧ str_or_null j "company") →
  (∀ u, applicant = Some u → str_or_null u "name") →
  apply_for_job regex_i a1 i
    = apply_for_job_check regex_i a1 i ≫= apply_for_job_after regex_i a1 i ∧
  let after :=
    mk_store (users db) (jobs db)
      (applications db ++ [prepare_for_mongo (application_object e1 a1 i);
                           prepare_for_mongo (application_object e2 a2 i)]) in
  both_checked (apply_for_job_check regex_i a1 i) (apply_for_job_check regex_i a2 i)
               (apply_for_job_after regex_i a1 i) (apply_for_job_after regex_i a2 i)
               e1 e2 db
  = (Ok (application_response e1 a1 i
           (enrich job "title") (enrich job "company") (enrich applicant "name")),
     Ok (application_response e2 a2 i
           (enrich job "title") (enrich job "company") (enrich applicant "name")),
     after) ∧
  ¬ NoDup (application_key <$> applications after).
Proof.
  intros job applicant Hsame Hnew Hj Hu. split; [reflexivity|]. intros after. split.
  - unfold both_checked, apply_for_job_check.
    rewrite !find_one_eq2. cbn [fst snd resume docs].
    rewrite (apply_for_job_after_fresh e1 a1 i _ db); [| |exact Hj|exact Hu].
    + cbn [fst snd]. fold job applicant.
      rewrite apply_for_job_after_fresh; cbn [fst snd users jobs applications].
      * rewrite <- Hsame. fold job applicant. unfold after. by rewrite <- app_assoc.
      * rewrite found_head_filter2, <- Hsame. exact Hnew.
      * rewrite <- Hsame. exact Hj.
      * exact Hu.
    + rewrite found_head_filter2. exact Hnew.
  - unfold after. cbn [applications].
    rewrite fmap_app. cbn [fmap list_fmap]. unfold application_key at 2 3.
    destruct (stored_application_fields e1 a1 i) as (_ & Hj1 & Hi1 & _).
    destruct (stored_application_fields e2 a2 i) as (_ & Hj2 & Hi2 & _).
    rewrite Hj1, Hi1, Hj2, Hi2, Hsame. apply not_NoDup_twice.
Qed.

End Races.

(** Two registrations of Ann's email at a time, on the empty store. *)
Lemma concurrent_registrations_both_stored_witness :
  let after :=
    mk_store [prepare_for_mongo (user_object (Demo.clock 0 "u-1") Demo.ann);
              prepare_for_mongo (user_object (Demo.clock 0 "u-9") ann_again)] [] [] in
  both_checked (register_user_check Regex.engine Demo.ann)
               (register_user_check Regex.engine ann_again)
               (register_user_after Demo.ann) (register_user_after ann_again)
               (Demo.clock 0 "u-1") (Demo.clock 0 "u-9") empty_store
  = (Ok (delete "resume" (delete "password" (user_object (Demo.clock 0 "u-1") Demo.ann))),
     Ok (delete "resume" (delete "password" (user_object (Demo.clock 0 "u-9") ann_again))),
     after) ∧
  ¬ NoDup (emails after).
Proof.
  exact (proj2 (concurrent_registrations_both_stored Regex.engine Demo.ann ann_again
                  (Demo.clock 0 "u-1") (Demo.clock 0 "u-9") empty_store
                  eq_refl eq_refl)).
Defined.

(** Two applications of Ann for the welder job at a time. *)
Lemma concurrent_applications_both_stored_witness :
  already_applied "j-1" "u-1" Demo.posted = false ∧
  let after :=
    mk_store (users Demo.posted) (jobs Demo.posted)
      (applications Demo.posted ++
       [prepare_for_mongo (application_object (Demo.clock 3 "a-1") Demo.apply_welder "u-1");
        prepare_for_mongo (application_object (Demo.clock 3 "a-2") Demo.apply_welder "u-1")])
  in
  both_checked (apply_for_job_check Regex.engine Demo.apply_welder "u-1")
               (apply_for_job_check Regex.engine Demo.apply_welder "u-1")
               (apply_for_job_after Regex.engine Demo.apply_welder "u-1")
               (apply_for_job_after Regex.engine Demo.apply_welder "u-1")
               (Demo.clock 3 "a-1") (Demo.clock 3 "a-2") Demo.posted
  = (Ok (application_response (Demo.clock 3 "a-1") Demo.apply_welder "u-1"
           (VStr "Welder") (VStr "Acme") (VStr "Ann Lee")),
     Ok (application_response (Demo.clock 3 "a-2") Demo.apply_welder "u-1"
           (VStr "Welder") (VStr "Acme") (VStr "Ann Lee")),
     after) ∧
  ¬ NoDup (application_key <$> applications after).
Proof.
  assert (already_applied "j-1" "u-1" Demo.posted = false) as Hnew by by_vm.
  assert (lookup_id (jobs Demo.posted) "j-1"
          = Some (prepare_for_mongo (job_object (Demo.clock 2 "j-1") Demo.welder "u-2")))
    as Hjob by by_vm.
  assert (lookup_id (users Demo.posted) "u-1"
          = Some (prepare_for_mongo (user_object (Demo.clock 0 "u-1") Demo.ann)))
    as Huser by by_vm.
  split; [exact Hnew|].
  pose proof (concurrent_applications_both_stored Regex.engine
                Demo.apply_welder Demo.apply_welder "u-1"
                (Demo.clock 3 "a-1") (Demo.clock 3 "a-2") Demo.posted) as H.
  cbv zeta in H.
  change (ApplicationCreate.job_id Demo.apply_welder) with "j-1" in H.
  rewrite Hjob, Huser in H.
  destruct H as [_ H]; [reflexivity | exact Hnew | | |].
  - intros j [= <-]. split; right; [exists "Welder" | exists "Acme"]; by_vm.
  - intros u [= <-]. right. exists "Ann Lee". by_vm.
  - cbn [enrich] in H.
    assert (prepare_for_mongo (job_object (Demo.clock 2 "j-1") Demo.welder "u-2") !! "title"
            = Some (VStr "Welder")) as Et by by_vm.
    assert (prepare_for_mongo (job_object (Demo.clock 2 "j-1") Demo.welder "u-2") !! "company"
            = Some (VStr "Acme")) as Ec by by_vm.
    assert (prepare_for_mongo (user_object (Demo.clock 0 "u-1") Demo.ann) !! "name"
            = Some (VStr "Ann Lee")) as En by by_vm.
    rewrite Et, Ec, En in H. exact H.
Defined.
